(** * btcx: the agent loop, the tool registry and the search engine

    A shallow embedding of the Go packages [internal/agent], [internal/tool]
    and [internal/search] of btcx, followed by the properties proved about
    them.

    Conventions of the embedding
    - a Go [string] is a byte string: Rocq's [string], one [ascii] per byte,
      so that [len(s)] is [String.length s] and [s[:n]] keeps [n] bytes;
    - a Go [int] that only counts (loop counters, [len]) is a [nat]; one
      that is a measure (times, token counts) is a [Z];
    - [(T, error)] results are sums [E + T] ([inl] the error text);
    - collaborators that live outside the repository (the model provider,
      the operating system, the regexp, glob and ignore-file libraries, the
      ripgrep child process) are parameters of the definitions that call
      them. *)

From Stdlib Require Import ZArith Lia Bool Arith Ascii.
From stdpp Require Import base strings gmap list pretty sorting.

#[local] Set Warnings "-register-all".


(** ** Go's [strings] package on byte strings *)

Module gostrings.

(** [strings.HasPrefix(s, prefix)]. *)
Fixpoint HasPrefix (s prefix : string) {struct prefix} : bool :=
  match prefix, s with
  | EmptyString, _ => true
  | String _ _, EmptyString => false
  | String p prefix', String c s' => Ascii.eqb c p && HasPrefix s' prefix'
  end.

(** [strings.Contains(s, substr)]: [substr] starts at some offset of [s]. *)
Fixpoint Contains (s substr : string) : bool :=
  HasPrefix s substr ||
  match s with
  | EmptyString => false
  | String _ s' => Contains s' substr
  end.

(** One byte of [strings.ToLower]: ['A'..'Z'] moves to ['a'..'z'].  Bytes
    from 128 up are left alone: the model follows Go's ASCII path, which is
    the path every text made of ASCII bytes takes. *)
Definition lower_byte (c : Ascii.ascii) : Ascii.ascii :=
  let n := Ascii.nat_of_ascii c in
  if (65 <=? n)%nat && (n <=? 90)%nat then Ascii.ascii_of_nat (n + 32) else c.

(** [strings.ToLower(s)]. *)
Fixpoint ToLower (s : string) : string :=
  match s with
  | EmptyString => EmptyString
  | String c s' => String (lower_byte c) (ToLower s')
  end.

(** The slice [s[:n]] for [n <= len(s)] (every use in the sources is
    guarded by [len(s) > n]). *)
Fixpoint slice_to (n : nat) (s : string) : string :=
  match n, s with
  | O, _ => EmptyString
  | S _, EmptyString => EmptyString
  | S n', String c s' => String c (slice_to n' s')
  end.

(** [strings.Split(s, "\n")]: the fields between newlines, one more than
    [s] has newlines. *)
Fixpoint SplitLines (s : string) : list string :=
  match s with
  | EmptyString => [EmptyString]
  | String c s' =>
      let rest := SplitLines s' in
      if Ascii.eqb c "010"%char then EmptyString :: rest
      else match rest with
           | field :: fields => String c field :: fields
           | [] => [String c EmptyString]
           end
  end.

(** [strings.Join(elems, sep)]. *)
Fixpoint Join (elems : list string) (sep : string) : string :=
  match elems with
  | [] => EmptyString
  | [e] => e
  | e :: rest => e +:+ sep +:+ Join rest sep
  end.

(** The newline byte as a string. *)
Definition nl : string := String "010"%char EmptyString.

(** The loop [for i := 0; i < n; i++ { if buf[i] == 0 ...] of the two
    binary-file checks: whether the buffer holds a null byte. *)
Fixpoint hasNull (buf : string) : bool :=
  match buf with
  | EmptyString => false
  | String c buf' => Ascii.eqb c "000"%char || hasNull buf'
  end.

(** [strings.HasSuffix(s, suffix)]. *)
Fixpoint HasSuffix (s suffix : string) : bool :=
  String.eqb s suffix ||
  match s with
  | EmptyString => false
  | String _ s' => HasSuffix s' suffix
  end.

(** [strings.TrimSuffix(s, suffix)]: [s] without the trailing [suffix], or
    [s] itself when it does not end with it. *)
Definition TrimSuffix (s suffix : string) : string :=
  if HasSuffix s suffix then slice_to (String.length s - String.length suffix) s else s.

End gostrings.

(** Decimal rendering of [%d] for a non-negative count. *)
Definition itoa (n : nat) : string := pretty n.

(** Go's [int] is 64 bits wide on the supported targets; sums of token
    counts wrap around. *)
Definition wrap_int (z : Z) : Z := ((z + 2 ^ 63) mod 2 ^ 64 - 2 ^ 63)%Z.
Definition int_add (a b : Z) : Z := wrap_int (a + b).

(** The double quote, for texts that hold one. *)
Definition dq : string := String (Ascii.ascii_of_nat 34) EmptyString.

(** ** Package [agent]: the control loop (internal/agent/loop.go) *)

Module agent.

(** *** Messages, requests and responses

    [storage.ToolCall] and [provider.ToolCall] have the same three fields
    and the loop copies one into the other field by field: one record stands
    for both.  Time stamps are left out. *)

Record ToolCall := mkToolCall {
  tc_ID : string;
  tc_Name : string;
  tc_Arguments : string
}.

Record ToolResult := mkToolResult {
  tr_ToolCallID : string;
  tr_Output : string;
  tr_Error : string
}.

(** [storage.Message]. *)
Record Message := mkMessage {
  Role : string;
  Content : string;
  ToolCalls : list ToolCall;
  ToolCallID : string;
  ToolResults : list ToolResult
}.

(** [storage.Thread]: the conversation. *)
Record Thread := mkThread {
  ID : string;
  Title : string;
  Messages : list Message
}.

(** [provider.Message]. *)
Record ProviderMessage := mkProviderMessage {
  p_Role : string;
  p_Content : string;
  p_ToolCalls : list ToolCall;
  p_ToolCallID : string
}.

Record Usage := mkUsage {
  InputTokens : Z;
  OutputTokens : Z;
  TotalTokens : Z
}.

(** [provider.ChatRequest]; [Tools] holds the names of the declared tools. *)
Record ChatRequest := mkChatRequest {
  req_Model : string;
  req_System : string;
  req_Messages : list ProviderMessage;
  req_Tools : list string;
  req_MaxTokens : Z
}.

Record ChatResponse := mkChatResponse {
  resp_Content : string;
  resp_ToolCalls : list ToolCall;
  resp_StopReason : string;
  resp_Usage : Usage
}.

Inductive StreamEventType :=
| StreamEventText
| StreamEventToolCall
| StreamEventToolResult
| StreamEventDone
| StreamEventError.

Record StreamEvent := mkStreamEvent {
  ev_Type : StreamEventType;
  ev_Delta : string;
  ev_ToolCall : option ToolCall;
  ev_Error : string;
  ev_Usage : option Usage;
  ev_StopReason : string
}.

(** Response represents a response from the agent. *)
Record Response := mkResponse {
  r_Content : string;
  r_ToolCalls : list ToolCall;
  r_Usage : Usage
}.

(** *** Loop state *)

(** loopState tracks state during the agentic loop to detect stuck patterns. *)
Record loopState := mkLoopState {
  searchHistory : gmap string nat;
  emptyResultCount : nat;
  totalSearches : nat;
  hintInjected : bool
}.

Definition newLoopState : loopState :=
  {| searchHistory := ∅; emptyResultCount := 0; totalSearches := 0;
     hintInjected := false |}.

(** isEmptyResult checks if a tool result indicates no matches found. *)
Definition isEmptyResult (result : string) : bool :=
  let result := gostrings.ToLower result in
  gostrings.Contains result "no files found" ||
  gostrings.Contains result "no matches" ||
  gostrings.Contains result "not found" ||
  (String.length result <? 30)%nat.

(** truncateTitle truncates a title to a reasonable length. *)
Definition truncateTitle (s : string) : string :=
  if (50 <? String.length s)%nat then gostrings.slice_to 47 s +:+ "..." else s.

(** StuckLoopHint returns a hint to add to the system prompt when the model
    appears stuck (internal/agent/prompt.go). *)
Definition StuckLoopHint : string :=
"

## IMPORTANT: Search Guidance

Your previous searches have not returned useful results. Please:

1. Try DIFFERENT search patterns - avoid repeating the same searches
2. Use simpler, more general patterns (e.g., just the function name, not the full signature)
3. Try searching in different directories or with different file extensions
4. If you've tried 2-3 different patterns without success, provide your best answer based on general knowledge and explain that specific code examples were not found in the repository
5. Do NOT repeat searches that returned " +:+ dq +:+ "No files found" +:+ dq +:+ "

If you cannot find relevant code, it's better to give a helpful general answer than to keep searching indefinitely.
".

(** The test [msg.Role == "assistant" && msg.Content != ""]. *)
Definition hasAssistantContent (msg : Message) : bool :=
  String.eqb (Role msg) "assistant" && negb (String.eqb (Content msg) "").

(** The most recent assistant message with content: the backwards scan
    [for i := len(a.Thread.Messages) - 1; i >= 0; i--] that three places of
    the loop run; [""] when there is none. *)
Definition lastAssistantContent (msgs : list Message) : string :=
  match find hasAssistantContent (rev msgs) with
  | Some msg => Content msg
  | None => ""
  end.

(** buildMessages builds the message list for the provider. *)
Definition buildMessages (msgs : list Message) : list ProviderMessage :=
  flat_map (fun msg =>
    if String.eqb (Role msg) "user" then
      [mkProviderMessage "user" (Content msg) [] ""]
    else if String.eqb (Role msg) "assistant" then
      [mkProviderMessage "assistant" (Content msg) (ToolCalls msg) ""]
    else if String.eqb (Role msg) "tool" then
      let content :=
        match ToolResults msg with
        | tr :: _ =>
            if negb (String.eqb (tr_Error tr) "") then "Error: " +:+ tr_Error tr
            else tr_Output tr
        | [] => Content msg
        end in
      [mkProviderMessage "tool" content [] (ToolCallID msg)]
    else []) msgs.

(** Whether [msg] is a tool output that forced completion quotes. *)
Definition quotable (msg : Message) : bool :=
  String.eqb (Role msg) "tool" && (100 <? String.length (Content msg))%nat &&
  negb (isEmptyResult (Content msg)).

(** The quoted form of a tool output: cut to 500 bytes and marked. *)
Definition quoted (content : string) : string :=
  if (500 <? String.length content)%nat then gostrings.slice_to 500 content +:+ "..."
  else content.

(** forceCompletion returns a response with whatever content has been
    accumulated.  Its error result is always nil. *)
Definition forceCompletion (msgs : list Message) (allToolCalls : list ToolCall)
    (totalUsage : Usage) : Response :=
  let lastContent := lastAssistantContent msgs in
  let lastContent :=
    if String.eqb lastContent "" then
      let usefulResults := map (fun msg => quoted (Content msg)) (List.filter quotable msgs) in
      if (0 <? length usefulResults)%nat then
        "Based on the search results, here is what I found:" +:+ gostrings.nl +:+ gostrings.nl
        +:+ fold_left (fun acc result => acc +:+ result +:+ gostrings.nl +:+ gostrings.nl)
                      (take 3 usefulResults) ""
        +:+ "[Note: The model was unable to complete the response. Above are the raw search results.]"
      else
        "I was unable to find specific information about this topic in the codebase after multiple searches. The search patterns used did not return relevant results. Try rephrasing your question or being more specific about what you're looking for."
    else lastContent in
  mkResponse lastContent allToolCalls totalUsage.

(** *** The loop *)

(** What one Ask call works on: the agent's thread, the loop's local
    variables, and the calls made to the collaborators so far ([sent]: the
    requests handed to the provider; [saved]: the threads handed to
    [Storage.SaveThread]; both oldest first). *)
Record Run := mkRun {
  thread : Thread;
  state : loopState;
  totalUsage : Usage;
  allToolCalls : list ToolCall;
  sent : list ChatRequest;
  saved : list Thread
}.

Definition appendMessage (msg : Message) (r : Run) : Run :=
  mkRun (mkThread (ID (thread r)) (Title (thread r)) (Messages (thread r) ++ [msg]))
        (state r) (totalUsage r) (allToolCalls r) (sent r) (saved r).

Definition setState (st : loopState) (r : Run) : Run :=
  mkRun (thread r) st (totalUsage r) (allToolCalls r) (sent r) (saved r).

Definition SaveThread (r : Run) : Run :=
  mkRun (thread r) (state r) (totalUsage r) (allToolCalls r) (sent r)
        (saved r ++ [thread r]).

(** The result of one pass through the loop body: [return] with a
    response or an error, or fall through to the next iteration. *)
Inductive Flow :=
| Return (res : string + Response) (r : Run)
| Continue (r : Run).

Section Loop.

(** The agent's fixed configuration. *)
Variable ModelProvider : string.    (* a.ModelConfig.Provider *)
Variable ModelName : string.        (* a.ModelConfig.Model *)
Variable SystemPrompt : string.     (* a.GetSystemPrompt() *)
Variable toolNames : list string.   (* a.GetTools() *)

(** The collaborators.  [Chat n req] and [StreamChat n req] answer the
    request [req] made after [n] earlier requests of this Ask call;
    [ToolsExecute n name args] is [a.Tools.Execute] for the tool call made
    after [n] earlier ones, yielding the result's [Output] or an error;
    [md5hex] is the hexadecimal MD5 digest. *)
Variable Chat : nat -> ChatRequest -> string + ChatResponse.
Variable StreamChat : nat -> ChatRequest -> string + list StreamEvent.
Variable ToolsExecute : nat -> string -> string -> string + string.
Variable md5hex : string -> string.

(** Whether a callback was passed ([callback != nil]); what the callback
    itself does with the events is outside the loop. *)
Variable callback : bool.

(** hashToolCall creates a hash of a tool call for deduplication. *)
Definition hashToolCall (name args : string) : string :=
  gostrings.slice_to 8 (md5hex (name +:+ args)).

(** The body of streamChat's [for event := range events]. *)
Fixpoint drainEvents (events : list StreamEvent) (acc : ChatResponse)
  : string + ChatResponse :=
  match events with
  | [] => inr acc
  | event :: rest =>
      match ev_Type event with
      | StreamEventText =>
          drainEvents rest
            (mkChatResponse (resp_Content acc +:+ ev_Delta event) (resp_ToolCalls acc)
                            (resp_StopReason acc) (resp_Usage acc))
      | StreamEventToolCall =>
          drainEvents rest
            (mkChatResponse (resp_Content acc)
                            (match ev_ToolCall event with
                             | Some tc => resp_ToolCalls acc ++ [tc]
                             | None => resp_ToolCalls acc
                             end)
                            (resp_StopReason acc) (resp_Usage acc))
      | StreamEventDone =>
          drainEvents rest
            (mkChatResponse (resp_Content acc) (resp_ToolCalls acc) (ev_StopReason event)
                            (match ev_Usage event with
                             | Some u => u
                             | None => resp_Usage acc
                             end))
      | StreamEventError => inl (ev_Error event)
      | StreamEventToolResult => drainEvents rest acc
      end
  end.

(** streamChat streams the chat response. *)
Definition streamChat (n : nat) (req : ChatRequest) : string + ChatResponse :=
  match StreamChat n req with
  | inl err => inl err
  | inr events => drainEvents events (mkChatResponse "" [] "" (mkUsage 0 0 0))
  end.

(** executeTool executes a tool call: a failure of the registry comes back
    as content, never as a Go error. *)
Definition executeTool (n : nat) (tc : ToolCall) : string + string :=
  match ToolsExecute n (tc_Name tc) (tc_Arguments tc) with
  | inl err => inr ("Error: " +:+ err)
  | inr output => inr output
  end.

(** One iteration of [for _, tc := range resp.ToolCalls]; the two flags are
    [hasUsefulResult] and [hasRepeatedSearch]. *)
Definition toolCallStep (acc : Run * bool * bool) (tc : ToolCall) : Run * bool * bool :=
  let '(r, hasUsefulResult, hasRepeatedSearch) := acc in
  let st := state r in
  let n := totalSearches st in
  let hash := hashToolCall (tc_Name tc) (tc_Arguments tc) in
  let count := S (default 0 (searchHistory st !! hash)) in
  let st := mkLoopState (<[hash := count]> (searchHistory st)) (emptyResultCount st)
                        (S (totalSearches st)) (hintInjected st) in
  let hasRepeatedSearch := hasRepeatedSearch || (1 <? count)%nat in
  let r := setState st r in
  match executeTool n tc with
  | inl err =>
      let toolMsg := mkMessage "tool" "" [] (tc_ID tc) [mkToolResult (tc_ID tc) "" err] in
      (appendMessage toolMsg r, hasUsefulResult, hasRepeatedSearch)
  | inr result =>
      let toolMsg := mkMessage "tool" result [] (tc_ID tc) [mkToolResult (tc_ID tc) result ""] in
      (appendMessage toolMsg r,
       hasUsefulResult || negb (isEmptyResult result),
       hasRepeatedSearch)
  end.

(** The bookkeeping after the tool calls of a round: track consecutive
    empty results and mark the hint as injected if the model is stuck. *)
Definition trackEmpty (hasUsefulResult hasRepeatedSearch : bool) (r : Run) : Run :=
  let st := state r in
  let empty := if hasUsefulResult then 0 else S (emptyResultCount st) in
  let hint :=
    if ((2 <=? empty)%nat || hasRepeatedSearch) && negb (hintInjected st) then true
    else hintInjected st in
  setState (mkLoopState (searchHistory st) empty (totalSearches st) hint) r.

(** The body of [for i := 0; i < maxIterations; i++]. *)
Definition iteration (r : Run) : Flow :=
  let messages := buildMessages (Messages (thread r)) in
  let systemPrompt :=
    if hintInjected (state r) then SystemPrompt +:+ StuckLoopHint else SystemPrompt in
  let req := mkChatRequest ModelName systemPrompt messages toolNames 8192 in
  let useStreaming := callback && negb (String.eqb ModelProvider "openai-compatible") in
  let n := length (sent r) in
  let r := mkRun (thread r) (state r) (totalUsage r) (allToolCalls r) (sent r ++ [req])
                 (saved r) in
  match (if useStreaming then streamChat n req else Chat n req) with
  | inl err => Return (inl ("chat request failed: " +:+ err)) r
  | inr resp =>
      let usage :=
        mkUsage (int_add (InputTokens (totalUsage r)) (InputTokens (resp_Usage resp)))
                (int_add (OutputTokens (totalUsage r)) (OutputTokens (resp_Usage resp)))
                (int_add (TotalTokens (totalUsage r)) (TotalTokens (resp_Usage resp))) in
      let assistantMsg := mkMessage "assistant" (resp_Content resp) (resp_ToolCalls resp) "" [] in
      let r := mkRun (thread r) (state r) usage (allToolCalls r ++ resp_ToolCalls resp)
                     (sent r) (saved r) in
      let r := appendMessage assistantMsg r in
      if (length (resp_ToolCalls resp) =? 0)%nat then
        let content := resp_Content resp in
        let content :=
          if String.eqb content "" then
            let content := lastAssistantContent (Messages (thread r)) in
            if String.eqb content "" then
              "I was unable to generate a response for this query."
            else content
          else content in
        Return (inr (mkResponse content (allToolCalls r) (totalUsage r))) r
      else
        let '(r, hasUsefulResult, hasRepeatedSearch) :=
          fold_left toolCallStep (resp_ToolCalls resp) (r, false, false) in
        let r := trackEmpty hasUsefulResult hasRepeatedSearch r in
        if (3 <=? emptyResultCount (state r))%nat then
          Return (inr (forceCompletion (Messages (thread r)) (allToolCalls r) (totalUsage r))) r
        else if (8 <=? totalSearches (state r))%nat && (2 <=? emptyResultCount (state r))%nat then
          Return (inr (forceCompletion (Messages (thread r)) (allToolCalls r) (totalUsage r))) r
        else Continue r
  end.

(** What runLoop does once the [for] statement has run out of iterations. *)
Definition afterLoop (r : Run) : (string + Response) * Run :=
  let r := if (0 <? length (Messages (thread r)))%nat then SaveThread r else r in
  let content := lastAssistantContent (Messages (thread r)) in
  if negb (String.eqb content "") then
    (inr (mkResponse
            (content +:+ gostrings.nl +:+ gostrings.nl
             +:+ "[Note: Response may be incomplete due to iteration limit]")
            (allToolCalls r) (totalUsage r)), r)
  else (inl "max iterations reached", r).

(** The [for] statement with [budget] iterations left. *)
Fixpoint iterate (budget : nat) (r : Run) : (string + Response) * Run :=
  match budget with
  | O => afterLoop r
  | S budget' =>
      match iteration r with
      | Return res r' => (res, r')
      | Continue r' => iterate budget' r'
      end
  end.

Definition maxIterations : nat := 10.

(** runLoop runs the agentic loop until completion, on the thread [th];
    [saved0] holds the threads saved before this call. *)
Definition runLoop (th : Thread) (saved0 : list Thread) : (string + Response) * Run :=
  iterate maxIterations (mkRun th newLoopState (mkUsage 0 0 0) [] [] saved0).

(** The first half of AskWithCallback: initialise the thread if needed and
    add the user message.  [a_Thread] is [a.Thread] ([None] for nil) and
    [threadID] what [generateID()] returns.  (The call
    [a.Tools.SetThreadID] only names the directory of truncated outputs.) *)
Definition askThread (a_Thread : option Thread) (threadID : string) (question : string)
  : Thread :=
  let th :=
    match a_Thread with
    | None => mkThread threadID (truncateTitle question) []
    | Some th => th
    end in
  let userMsg := mkMessage "user" question [] "" [] in
  mkThread (ID th) (Title th) (Messages th ++ [userMsg]).

(** AskWithCallback sends a question to the agent and streams the response. *)
Definition AskWithCallback (a_Thread : option Thread) (saved0 : list Thread)
    (threadID : string) (question : string) : (string + Response) * Run :=
  let th := askThread a_Thread threadID question in
  match runLoop th saved0 with
  | (inl err, r) => (inl err, r)
  | (inr response, r) => (inr response, SaveThread r)
  end.

End Loop.

End agent.

(** ** Go's [path/filepath] on clean slash-separated paths *)

Module filepath.

(** [filepath.IsAbs(path)] on Unix. *)
Definition IsAbs (path : string) : bool := gostrings.HasPrefix path "/".

(** [filepath.Join(a, b)]: empty elements are ignored.  The elements are
    taken to be clean already (no "..", no doubled or trailing slash), so
    the cleaning Join ends with is the identity. *)
Definition Join (a b : string) : string :=
  if String.eqb a "" then b
  else if String.eqb b "" then a
  else a +:+ "/" +:+ b.

(** [filepath.Ext(path)]: the suffix beginning at the final dot in the final
    element of [path]; empty if there is no dot.  [ext_from s] is the scan
    of [s] from its first byte: the extension found in the part of the final
    element that lies in [s], and whether [s] holds a separator. *)
Fixpoint ext_from (s : string) : option string * bool :=
  match s with
  | EmptyString => (None, false)
  | String c s' =>
      let '(ext, sep) := ext_from s' in
      if sep then (ext, true)
      else if Ascii.eqb c "/"%char then (ext, true)
      else match ext with
           | Some e => (Some e, false)
           | None => if Ascii.eqb c "."%char then (Some s, false) else (None, false)
           end
  end.

Definition Ext (path : string) : string := default "" (fst (ext_from path)).

(** The split of a path at its last separator: what lies before it and
    what follows it; [None] for a path without separator. *)
Fixpoint splitLast (path : string) : option (string * string) :=
  match path with
  | EmptyString => None
  | String c path' =>
      match splitLast path' with
      | Some (dir, last) => Some (String c dir, last)
      | None => if Ascii.eqb c "/"%char then Some (EmptyString, path') else None
      end
  end.

(** [filepath.Dir(path)] of a clean path: all but the last element; "." for
    a path without separator, the root for an element of the root. *)
Definition Dir (path : string) : string :=
  match splitLast path with
  | None => "."
  | Some (dir, _) => if String.eqb dir "" then "/" else dir
  end.

(** [filepath.Base(path)] of a clean path: the last element; "." for the
    empty path, the root for the root. *)
Definition Base (path : string) : string :=
  if String.eqb path "" then "."
  else
    match splitLast path with
    | None => path
    | Some (_, last) => if String.eqb last "" then "/" else last
    end.

End filepath.

(** ** Go's [bufio.Scanner] with the default line splitter *)

Module bufio.

(** MaxScanTokenSize is the maximum size used to buffer a token. *)
Definition MaxScanTokenSize : nat := 64 * 1024.

(** [dropCR]: a line loses one trailing carriage return. *)
Fixpoint dropCR (s : string) : string :=
  match s with
  | EmptyString => EmptyString
  | String c EmptyString => if Ascii.eqb c "013"%char then EmptyString else s
  | String c s' => String c (dropCR s')
  end.

(** The tokens [Scan] delivers for the newline-separated fields of the
    input, and whether scanning then stopped on a line too long for the
    buffer ([Err()] is ErrTooLong).  The last field is what follows the last
    newline: it is a line only if it is not empty. *)
Fixpoint scanFields (fields : list string) : list string * bool :=
  match fields with
  | [] => ([], false)
  | field :: rest =>
      match rest with
      | [] =>
          if String.eqb field "" then ([], false)
          else if (MaxScanTokenSize <=? String.length field)%nat then ([], true)
          else ([dropCR field], false)
      | _ :: _ =>
          if (MaxScanTokenSize <=? String.length field)%nat then ([], true)
          else let '(tokens, tooLong) := scanFields rest in (dropCR field :: tokens, tooLong)
      end
  end.

Definition ScanLines (data : string) : list string * bool :=
  scanFields (gostrings.SplitLines data).

End bufio.

(** ** Package [search]: content and file-name search *)

Module search.

(** Match represents a grep match.  [ModTime] is an instant, counted from
    the zero value of [time.Time]. *)
Record Match := mkMatch {
  Path : string;
  LineNum : Z;
  LineText : string;
  ModTime : Z
}.

(** FileInfo represents a file with its modification time. *)
Record FileInfo := mkFileInfo {
  fi_Path : string;
  fi_ModTime : Z
}.

(** GrepOptions are options for the Grep function.  The callers pass
    counts that are not negative. *)
Record GrepOptions := mkGrepOptions {
  Include : string;
  MaxMatches : nat;
  MaxLineLength : nat
}.

Definition DefaultGrepOptions : GrepOptions := mkGrepOptions "" 100 2000.

Record GlobOptions := mkGlobOptions {
  MaxFiles : nat
}.

Definition DefaultGlobOptions : GlobOptions := mkGlobOptions 100.

(** *** The file tree and [filepath.WalkDir] *)

(** What lies under a path: a regular file with its modification time and
    content, or a directory with its entries in the order [os.ReadDir]
    returns them (sorted by file name).  Every file can be opened and
    read. *)
Inductive Node :=
| File (name : string) (modTime : Z) (data : string)
| Dir (name : string) (entries : list Node).

Definition Name (d : Node) : string :=
  match d with
  | File name _ _ => name
  | Dir name _ => name
  end.

Definition IsDir (d : Node) : bool :=
  match d with
  | File _ _ _ => false
  | Dir _ _ => true
  end.

(** The two sentinel errors a walk function may return. *)
Inductive WalkControl :=
| SkipDir
| SkipAll.

Section WalkDir.

(** The walk function, passing along the variables it captures. *)
Context {S : Type}.
Variable fn : string -> Node -> S -> S * option WalkControl.

(** [walkDir] of path/filepath: call [fn] on the entry and, for a directory
    that [fn] did not skip, walk its entries in order; SkipDir returned for
    an entry ends the walk of the directory that holds it. *)
Fixpoint walkDir (path : string) (d : Node) (s : S) {struct d} : S * option WalkControl :=
  match fn path d s with
  | (s, Some SkipDir) => (s, if IsDir d then None else Some SkipDir)
  | (s, Some SkipAll) => (s, Some SkipAll)
  | (s, None) =>
      match d with
      | File _ _ _ => (s, None)
      | Dir _ entries =>
          (fix walkEntries (entries : list Node) (s : S) {struct entries}
             : S * option WalkControl :=
             match entries with
             | [] => (s, None)
             | d1 :: rest =>
                 match walkDir (filepath.Join path (Name d1)) d1 s with
                 | (s, Some SkipDir) => (s, None)
                 | (s, Some SkipAll) => (s, Some SkipAll)
                 | (s, None) => walkEntries rest s
                 end
             end) entries s
      end
  end.

(** [filepath.WalkDir(root, fn)]: SkipDir and SkipAll end the walk without
    error. *)
Definition WalkDir (root : string) (tree : Node) (s : S) : S := fst (walkDir root tree s).

End WalkDir.

(** [filepath.Rel(root, path)] for a path the walk of [root] reaches: "."
    for the root itself, else the path without the root and its slash. *)
Fixpoint drop_bytes (n : nat) (s : string) : string :=
  match n, s with
  | O, _ => s
  | S _, EmptyString => EmptyString
  | S n', String _ s' => drop_bytes n' s'
  end.

Definition Rel (root path : string) : string :=
  if String.eqb path root then "." else drop_bytes (String.length root + 1) path.

(** *** Binary files *)

Definition binaryExtensions : list string :=
  [".zip"; ".tar"; ".gz"; ".exe"; ".dll"; ".so"; ".class"; ".jar";
   ".war"; ".7z"; ".doc"; ".docx"; ".xls"; ".xlsx"; ".ppt"; ".pptx";
   ".pdf"; ".png"; ".jpg"; ".jpeg"; ".gif"; ".bmp"; ".ico"; ".mp3";
   ".mp4"; ".avi"; ".mov"; ".bin"; ".dat"; ".obj"; ".o"; ".a";
   ".lib"; ".wasm"; ".pyc"; ".pyo"].

(** isBinaryFile checks if a file is likely binary; [data] is the content
    of the file at [path]. *)
Definition isBinaryFile (path data : string) : bool :=
  let ext := gostrings.ToLower (filepath.Ext path) in
  if existsb (String.eqb ext) binaryExtensions then true
  else
    let buf := gostrings.slice_to 512 data in
    let n := String.length buf in
    if (n =? 0)%nat then true
    else gostrings.hasNull buf.

(** *** Content search *)

(** The loop of grepFile over the scanned lines, [lineNum] lines in. *)
Fixpoint grepLines (path : string) (modTime : Z) (re : string -> bool) (maxLineLength : nat)
    (lineNum : Z) (lines : list string) : list Match :=
  match lines with
  | [] => []
  | line :: rest =>
      let lineNum := (lineNum + 1)%Z in
      let tail := grepLines path modTime re maxLineLength lineNum rest in
      if re line then
        let displayLine :=
          if (maxLineLength <? String.length line)%nat then
            gostrings.slice_to maxLineLength line +:+ "..."
          else line in
        mkMatch path lineNum displayLine modTime :: tail
      else tail
  end.

(** grepFile searches for a pattern in a single file. *)
Definition grepFile (path : string) (modTime : Z) (data : string) (re : string -> bool)
    (maxLineLength : nat) : string + list Match :=
  let '(lines, tooLong) := bufio.ScanLines data in
  let matches := grepLines path modTime re maxLineLength 0 lines in
  if tooLong then inl "bufio.Scanner: token too long" else inr matches.

(** [sort.Slice(x, less)] as Go runs it on short slices: insertion sort,
    each element moving left while it is less than its left neighbour.
    [insertLeft less x rl] inserts [x] into the sorted part, held reversed
    (last element first). *)
Fixpoint insertLeft {A} (less : A -> A -> bool) (x : A) (rl : list A) : list A :=
  match rl with
  | [] => [x]
  | y :: rl' => if less x y then y :: insertLeft less x rl' else x :: rl
  end.

Definition sort_Slice {A} (less : A -> A -> bool) (l : list A) : list A :=
  rev (fold_left (fun rl x => insertLeft less x rl) l []).

(** [a.ModTime.After(b.ModTime)]. *)
Definition After (a b : Z) : bool := (b <? a)%Z.

Section GoSearch.

(** The libraries: [regexp.Compile], [doublestar.Match(pattern, name)], and
    the matcher [loadGitignore(root)] returns ([None] when the root has no
    readable .gitignore), applied to a path and whether it is a
    directory. *)
Variable regexp_Compile : string -> string + (string -> bool).
Variable doublestar_Match : string -> string -> string + bool.
Variable ignorer : option (string -> bool -> bool).

Definition ignored (relPath : string) (isDir : bool) : bool :=
  match ignorer with
  | Some ig => ig relPath isDir
  | None => false
  end.

(** The directory part of both walk functions: skip hidden directories
    (except root) and directories the ignore file matches. *)
Definition skipDirectory (root path name : string) : bool :=
  (gostrings.HasPrefix name "." && negb (String.eqb path root))
  || ignored (Rel root path +:+ "/") true.

(** The include filter of goGrep. *)
Definition included (include name relPath : string) : bool :=
  if String.eqb include "" then true
  else
    match doublestar_Match include name with
    | inr true => true
    | _ =>
        match doublestar_Match include relPath with
        | inr matched => matched
        | inl _ => false
        end
    end.

(** The walk function of goGrep. *)
Definition grepVisit (root : string) (re : string -> bool) (opts : GrepOptions)
    (path : string) (d : Node) (matches : list Match) : list Match * option WalkControl :=
  let relPath := Rel root path in
  match d with
  | Dir name _ =>
      if skipDirectory root path name then (matches, Some SkipDir) else (matches, None)
  | File name modTime data =>
      if gostrings.HasPrefix name "." then (matches, None)
      else if ignored relPath false then (matches, None)
      else if negb (included (Include opts) name relPath) then (matches, None)
      else if isBinaryFile path data then (matches, None)
      else
        match grepFile path modTime data re (MaxLineLength opts) with
        | inl _ => (matches, None)
        | inr fileMatches =>
            let matches := matches ++ fileMatches in
            if (MaxMatches opts <=? length matches)%nat then (matches, Some SkipAll)
            else (matches, None)
        end
  end.

(** goGrep is the pure Go implementation of grep, on the tree under
    [root]. *)
Definition goGrep (tree : Node) (root pattern : string) (opts : GrepOptions)
  : string + list Match :=
  match regexp_Compile pattern with
  | inl err => inl err
  | inr re =>
      let opts :=
        mkGrepOptions (Include opts)
          (if (MaxMatches opts =? 0)%nat then MaxMatches DefaultGrepOptions else MaxMatches opts)
          (if (MaxLineLength opts =? 0)%nat then MaxLineLength DefaultGrepOptions
           else MaxLineLength opts) in
      let matches := WalkDir (grepVisit root re opts) root tree [] in
      let matches := sort_Slice (fun a b => After (ModTime a) (ModTime b)) matches in
      let matches :=
        if (MaxMatches opts <? length matches)%nat then take (MaxMatches opts) matches
        else matches in
      inr matches
  end.

(** *** File-name search *)

(** The walk function of goGlob. *)
Definition globVisit (root pattern : string) (opts : GlobOptions)
    (path : string) (d : Node) (files : list FileInfo) : list FileInfo * option WalkControl :=
  let relPath := Rel root path in
  match d with
  | Dir name _ =>
      if skipDirectory root path name then (files, Some SkipDir) else (files, None)
  | File name modTime _ =>
      if gostrings.HasPrefix name "." then (files, None)
      else if ignored relPath false then (files, None)
      else
        match doublestar_Match pattern name with
        | inl _ => (files, None)
        | inr matched =>
            let matched :=
              if matched then true
              else match doublestar_Match pattern relPath with
                   | inr m => m
                   | inl _ => false
                   end in
            let files := if matched then files ++ [mkFileInfo path modTime] else files in
            if (MaxFiles opts <=? length files)%nat then (files, Some SkipAll)
            else (files, None)
        end
  end.

(** goGlob is the pure Go implementation of glob. *)
Definition goGlob (tree : Node) (root pattern : string) (opts : GlobOptions)
  : string + list FileInfo :=
  let opts :=
    mkGlobOptions (if (MaxFiles opts =? 0)%nat then MaxFiles DefaultGlobOptions
                   else MaxFiles opts) in
  let files := WalkDir (globVisit root pattern opts) root tree [] in
  let files := sort_Slice (fun a b => After (fi_ModTime a) (fi_ModTime b)) files in
  let files :=
    if (MaxFiles opts <? length files)%nat then take (MaxFiles opts) files else files in
  inr files.

End GoSearch.

(** *** Delegation to ripgrep (the second file of the package) *)

(** [strings.SplitN(line, "|", 3)] when it yields three parts: the text
    before the first bar, between the first two bars, and after. *)
Fixpoint cutBar (s : string) : option (string * string) :=
  match s with
  | EmptyString => None
  | String c s' =>
      if Ascii.eqb c "|"%char then Some (EmptyString, s')
      else match cutBar s' with
           | Some (before, after) => Some (String c before, after)
           | None => None
           end
  end.

Definition splitThree (line : string) : option (string * string * string) :=
  match cutBar line with
  | Some (first, rest) =>
      match cutBar rest with
      | Some (second, third) => Some (first, second, third)
      | None => None
      end
  | None => None
  end.

(** [strconv.Atoi]: an optional sign and decimal digits, at least one. *)
Fixpoint digits (s : string) (acc : Z) : option Z :=
  match s with
  | EmptyString => Some acc
  | String c s' =>
      let n := Ascii.nat_of_ascii c in
      if (48 <=? n)%nat && (n <=? 57)%nat then digits s' (acc * 10 + Z.of_nat (n - 48))%Z
      else None
  end.

Definition Atoi (s : string) : option Z :=
  match s with
  | EmptyString => None
  | String c s' =>
      if Ascii.eqb c "-"%char then
        match s' with
        | EmptyString => None
        | _ => option_map Z.opp (digits s' 0)
        end
      else if Ascii.eqb c "+"%char then
        match s' with
        | EmptyString => None
        | _ => digits s' 0
        end
      else digits s 0
  end.

(** One pass of the inner loop of the two hand-written sorts: exchange
    positions [i] and [j] when the element at [j] is newer. *)
Definition exchangeIfNewer {A} (time : A -> Z) (i j : nat) (l : list A) : list A :=
  match l !! i, l !! j with
  | Some a, Some b => if After (time b) (time a) then <[i := b]> (<[j := a]> l) else l
  | _, _ => l
  end.

(** The loops [for i := 0; i < len-1; i++ { for j := i+1; j < len; j++ ]. *)
Definition sortByTime {A} (time : A -> Z) (l : list A) : list A :=
  let n := length l in
  fold_left
    (fun l i => fold_left (fun l j => exchangeIfNewer time i j l) (seq (i + 1) (n - (i + 1))) l)
    (seq 0 (n - 1)) l.

(** sortMatchesByTime sorts matches by modification time (newest first). *)
Definition sortMatchesByTime (matches : list Match) : list Match := sortByTime ModTime matches.

(** sortFilesByTime sorts files by modification time (newest first). *)
Definition sortFilesByTime (files : list FileInfo) : list FileInfo := sortByTime fi_ModTime files.

Section Ripgrep.

(** The child process [rg args...] run in a directory: the error of
    starting it, or the bytes it writes to its standard output.  And
    [os.Stat(path)]: the modification time, or [None] for an error. *)
Variable rg : list string -> string -> string + string.
Variable Stat : string -> option Z.

(** The command line RipgrepGrep builds. *)
Definition grepArgs (root pattern : string) (opts : GrepOptions) : list string :=
  ["-n"; "-H"; "--hidden"; "--follow"; "--field-match-separator=|"; "--no-heading";
   "--color=never"; "--regexp"; pattern]
  ++ (if negb (String.eqb (Include opts) "") then ["--glob"; Include opts] else [])
  ++ [root].

(** The scan of ripgrep's output lines, [filepath|linenum|content]. *)
Fixpoint scanMatches (opts : GrepOptions) (lines : list string) (matches : list Match)
  : list Match :=
  match lines with
  | [] => matches
  | line :: rest =>
      if String.eqb line "" then scanMatches opts rest matches
      else
        match splitThree line with
        | None => scanMatches opts rest matches
        | Some (filePath, num, lineText) =>
            match Atoi num with
            | None => scanMatches opts rest matches
            | Some lineNum =>
                let lineText :=
                  if (MaxLineLength opts <? String.length lineText)%nat then
                    gostrings.slice_to (MaxLineLength opts) lineText +:+ "..."
                  else lineText in
                let modTime := default 0%Z (Stat filePath) in
                let matches := matches ++ [mkMatch filePath lineNum lineText modTime] in
                if (MaxMatches opts <=? length matches)%nat then matches
                else scanMatches opts rest matches
            end
        end
  end.

(** RipgrepGrep searches for a pattern using ripgrep. *)
Definition RipgrepGrep (root pattern : string) (opts : GrepOptions) : string + list Match :=
  let opts :=
    mkGrepOptions (Include opts)
      (if (MaxMatches opts =? 0)%nat then MaxMatches DefaultGrepOptions else MaxMatches opts)
      (if (MaxLineLength opts =? 0)%nat then MaxLineLength DefaultGrepOptions
       else MaxLineLength opts) in
  match rg (grepArgs root pattern opts) root with
  | inl err => inl err
  | inr stdout =>
      let matches := scanMatches opts (fst (bufio.ScanLines stdout)) [] in
      inr (sortMatchesByTime matches)
  end.

(** The command line RipgrepGlob builds. *)
Definition globArgs (root pattern : string) : list string :=
  ["--files"; "--hidden"; "--follow"; "--glob"; pattern; root].

(** The scan of the file names ripgrep lists. *)
Fixpoint scanFiles (root : string) (opts : GlobOptions) (lines : list string)
    (files : list FileInfo) : list FileInfo :=
  match lines with
  | [] => files
  | filePath :: rest =>
      if String.eqb filePath "" then scanFiles root opts rest files
      else
        let filePath :=
          if negb (filepath.IsAbs filePath) then filepath.Join root filePath else filePath in
        let modTime := default 0%Z (Stat filePath) in
        let files := files ++ [mkFileInfo filePath modTime] in
        if (MaxFiles opts <=? length files)%nat then files
        else scanFiles root opts rest files
  end.

(** RipgrepGlob finds files matching a pattern using ripgrep --files. *)
Definition RipgrepGlob (root pattern : string) (opts : GlobOptions) : string + list FileInfo :=
  let opts :=
    mkGlobOptions (if (MaxFiles opts =? 0)%nat then MaxFiles DefaultGlobOptions
                   else MaxFiles opts) in
  match rg (globArgs root pattern) root with
  | inl err => inl err
  | inr stdout =>
      let files := scanFiles root opts (fst (bufio.ScanLines stdout)) [] in
      inr (sortFilesByTime files)
  end.

(** *** The two entry points *)

Variable regexp_Compile : string -> string + (string -> bool).
Variable doublestar_Match : string -> string -> string + bool.
Variable ignorer : option (string -> bool -> bool).

(** Whether ripgrep (rg) is available in PATH. *)
Variable RipgrepAvailable : bool.

(** Grep searches for a pattern in files under the given root directory.
    Uses ripgrep if available, otherwise falls back to Go implementation. *)
Definition Grep (tree : Node) (root pattern : string) (opts : GrepOptions)
  : string + list Match :=
  if RipgrepAvailable then RipgrepGrep root pattern opts
  else goGrep regexp_Compile doublestar_Match ignorer tree root pattern opts.

(** Glob finds files matching a pattern under the given root directory. *)
Definition Glob (tree : Node) (root pattern : string) (opts : GlobOptions)
  : string + list FileInfo :=
  if RipgrepAvailable then RipgrepGlob root pattern opts
  else goGlob doublestar_Match ignorer tree root pattern opts.

End Ripgrep.

End search.

(** ** Package [tool]: registry, truncation and the read tool *)

Module tool.

(** *** truncation.go *)

(** MaxOutputBytes is the maximum size of tool output before truncation. *)
Definition MaxOutputBytes : nat := 50 * 1024.

(** MaxOutputLines is the maximum number of lines before truncation. *)
Definition MaxOutputLines : nat := 500.

(** TruncationResult contains the result of truncating output. *)
Record TruncationResult := mkTruncationResult {
  trunc_Content : string;
  trunc_Truncated : bool;
  trunc_OutputPath : string
}.

(** TruncationConfig holds configuration for truncation. *)
Record TruncationConfig := mkTruncationConfig {
  cfg_OutputDir : string;
  cfg_ThreadID : string;
  cfg_ToolName : string
}.

(** truncateInMemory truncates content in memory without saving to file. *)
Definition truncateInMemory (output : string) (lines : list string) : TruncationResult :=
  let truncatedContent :=
    if (MaxOutputLines <? length lines)%nat then
      gostrings.Join (take MaxOutputLines lines) gostrings.nl
      +:+ (gostrings.nl +:+ gostrings.nl +:+ "[Output truncated at " +:+ itoa MaxOutputLines
           +:+ " lines. Total: " +:+ itoa (length lines) +:+ " lines]")
    else output in
  let truncatedContent :=
    if (MaxOutputBytes <? String.length truncatedContent)%nat then
      gostrings.slice_to MaxOutputBytes truncatedContent
      +:+ (gostrings.nl +:+ gostrings.nl +:+ "[Output truncated at 50KB]")
    else truncatedContent in
  mkTruncationResult truncatedContent true "".

Section Truncation.

(** The operating system, as far as truncation meets it: whether
    [os.MkdirAll(dir, 0755)] and [os.WriteFile(path, data, 0644)] succeed,
    and the eight hexadecimal digits [randomID()] draws. *)
Variable MkdirAll : string -> bool.
Variable WriteFile : string -> string -> bool.
Variable randomID : string.

(** TruncateOutput truncates output if it exceeds size limits.  Returns the
    truncated output and path to full output file if truncated; its error
    result is always nil.  The second component lists the files written. *)
Definition TruncateOutput (output : string) (cfg : TruncationConfig)
  : (string + TruncationResult) * list (string * string) :=
  let lines := gostrings.SplitLines output in
  let bytes := String.length output in
  let needsTruncation :=
    (MaxOutputBytes <? bytes)%nat || (MaxOutputLines <? length lines)%nat in
  if negb needsTruncation then (inr (mkTruncationResult output false ""), [])
  else
    let threadDir := filepath.Join (cfg_OutputDir cfg) (cfg_ThreadID cfg) in
    if negb (MkdirAll threadDir) then (inr (truncateInMemory output lines), [])
    else
      let filename := cfg_ToolName cfg +:+ "-" +:+ randomID +:+ ".txt" in
      let outputPath := filepath.Join threadDir filename in
      if negb (WriteFile outputPath output) then (inr (truncateInMemory output lines), [])
      else
        let result := truncateInMemory output lines in
        (inr (mkTruncationResult
                (trunc_Content result
                 +:+ (gostrings.nl +:+ gostrings.nl +:+ "[Full output saved to: "
                      +:+ outputPath +:+ "]"))
                (trunc_Truncated result) outputPath),
         [(outputPath, output)]).

(** *** tool.go *)

(** A value of [map[string]interface{}], as the tools fill it. *)
Inductive any :=
| any_bool (b : bool)
| any_int (z : Z)
| any_string (s : string).

(** Result is the result of a tool execution.  A nil [Metadata] map reads
    as the empty map. *)
Record Result := mkResult {
  Title : string;
  Output : string;
  Metadata : gmap string any
}.

(** The [Tool] interface, as far as the registry uses it: the name and
    [Execute], which yields an error or a result pointer ([None] for nil). *)
Record Tool := mkTool {
  Name : string;
  Execute : string -> string + option Result
}.

(** Registry holds all available tools. *)
Record Registry := mkRegistry {
  tools : gmap string Tool;
  outputDir : string;
  threadID : string
}.

(** NewRegistry creates a new tool registry. *)
Definition NewRegistry : Registry := mkRegistry ∅ "" "".

Definition SetOutputDir (dir : string) (r : Registry) : Registry :=
  mkRegistry (tools r) dir (threadID r).

Definition SetThreadID (id : string) (r : Registry) : Registry :=
  mkRegistry (tools r) (outputDir r) id.

(** Register adds a tool to the registry. *)
Definition Register (t : Tool) (r : Registry) : Registry :=
  mkRegistry (<[Name t := t]> (tools r)) (outputDir r) (threadID r).

(** GetTruncationConfig returns the truncation configuration. *)
Definition GetTruncationConfig (r : Registry) (toolName : string) : TruncationConfig :=
  mkTruncationConfig (outputDir r) (threadID r) toolName.

(** Execute runs a tool by name.  The second component lists the files
    written on the way. *)
Definition Registry_Execute (r : Registry) (name : string) (args : string)
  : (string + option Result) * list (string * string) :=
  match tools r !! name with
  | None =>
      (inl ("tool " +:+ dq +:+ name +:+ dq
            +:+ " not found. Available tools: grep, glob, read, list"), [])
  | Some tool =>
      match Execute tool args with
      | inl err => (inl err, [])
      | inr None => (inr None, [])
      | inr (Some result) =>
          if negb (String.eqb (outputDir r) "") then
            let truncCfg := GetTruncationConfig r name in
            match TruncateOutput (Output result) truncCfg with
            | (inr truncResult, written) =>
                if trunc_Truncated truncResult then
                  let metadata := <["truncated" := any_bool true]> (Metadata result) in
                  let metadata :=
                    if negb (String.eqb (trunc_OutputPath truncResult) "") then
                      <["outputPath" := any_string (trunc_OutputPath truncResult)]> metadata
                    else metadata in
                  (inr (Some (mkResult (Title result) (trunc_Content truncResult) metadata)),
                   written)
                else (inr (Some result), written)
            | (inl _, written) => (inr (Some result), written)
            end
          else (inr (Some result), [])
      end
  end.

End Truncation.

(** *** read.go and the binary check it calls *)

Definition defaultReadLimit : Z := 2000.
Definition maxLineLength : nat := 2000.
Definition maxBytes : nat := 50 * 1024.

(** readArgs are the arguments for the read tool. *)
Record readArgs := mkReadArgs {
  FilePath : string;
  Offset : Z;
  Limit : Z
}.

(** What [os.Stat] answers. *)
Inductive StatResult :=
| StatNotExist
| StatFailed (err : string)
| StatInfo (isDir : bool).

(** isBinaryExtension checks if a file has a binary extension. *)
Definition isBinaryExtension (path : string) : bool :=
  let ext := gostrings.ToLower (filepath.Ext path) in
  existsb (String.eqb ext)
    [".zip"; ".tar"; ".gz"; ".exe"; ".dll"; ".so"; ".class"; ".jar";
     ".war"; ".7z"; ".doc"; ".docx"; ".xls"; ".xlsx"; ".ppt"; ".pptx";
     ".pdf"; ".png"; ".jpg"; ".jpeg"; ".gif"; ".bmp"; ".ico"; ".mp3";
     ".mp4"; ".avi"; ".mov"; ".bin"; ".dat"; ".obj"; ".o"; ".a";
     ".lib"; ".wasm"; ".pyc"; ".pyo"].

(** The count of non-printable bytes (excluding common whitespace). *)
Fixpoint nonPrintable (buf : string) : nat :=
  match buf with
  | EmptyString => 0
  | String c buf' =>
      let b := Ascii.nat_of_ascii c in
      (if (b <? 9)%nat || ((13 <? b)%nat && (b <? 32)%nat) then 1 else 0) + nonPrintable buf'
  end.

(** [%05d]: at least five characters, padded with zeros after the sign. *)
Fixpoint zeros (n : nat) : string :=
  match n with
  | O => EmptyString
  | S n' => String "0"%char (zeros n')
  end.

Definition fmt05d (z : Z) : string :=
  if (z <? 0)%Z then
    let ds := pretty (Z.abs z) in "-" +:+ zeros (4 - String.length ds) +:+ ds
  else
    let ds := pretty z in zeros (5 - String.length ds) +:+ ds.

(** The scan loop of the read tool over the lines of the file, [lineNum]
    lines in: the line count reached, the lines kept, whether the byte
    limit cut the output, and whether the loop left by [break]. *)
Fixpoint readLines (offset limit : Z) (tokens : list string) (lineNum : Z)
    (lines : list string) (bytesRead : nat) : Z * list string * bool * bool :=
  match tokens with
  | [] => (lineNum, lines, false, false)
  | token :: rest =>
      let lineNum := (lineNum + 1)%Z in
      if (lineNum <=? offset)%Z then readLines offset limit rest lineNum lines bytesRead
      else if (limit <=? Z.of_nat (length lines))%Z then (lineNum, lines, false, true)
      else
        let line :=
          if (maxLineLength <? String.length token)%nat then
            gostrings.slice_to maxLineLength token +:+ "..."
          else token in
        let lineBytes := (String.length line + 1)%nat in
        if (maxBytes <? bytesRead + lineBytes)%nat then (lineNum, lines, true, true)
        else readLines offset limit rest lineNum (lines ++ [line]) (bytesRead + lineBytes)%nat
  end.

(** The numbered lines of the file view, the first numbered [first]. *)
Fixpoint numbered (first : Z) (lines : list string) : string :=
  match lines with
  | [] => EmptyString
  | line :: rest =>
      fmt05d first +:+ "| " +:+ line +:+ gostrings.nl +:+ numbered (first + 1)%Z rest
  end.

Section ReadTool.

(** The tool's working directory and the collaborators of Execute:
    [json.Unmarshal] into readArgs, [os.Stat], opening and reading a file
    (an error, or its bytes), [SuggestSimilarFiles] and
    [filepath.Rel(workingDir, path)]. *)
Variable workingDir : string.
Variable json_Unmarshal : string -> string + readArgs.
Variable Stat : string -> StatResult.
Variable ReadFile : string -> string + string.
Variable SuggestSimilarFiles : string -> nat -> list string.
Variable Rel : string -> string -> string.

(** IsBinaryContent checks if file content appears to be binary by examining
    the first few kilobytes for null bytes and non-printable characters.
    The quotient test [float64(nonPrintable)/float64(n) > 0.3] is decided on
    the integers: for [n <= 4096] it holds exactly when
    [10 * nonPrintable > 3 * n]. *)
Definition IsBinaryContent (path : string) : bool * option string :=
  match ReadFile path with
  | inl err => (true, Some err)
  | inr data =>
      let buf := gostrings.slice_to 4096 data in
      let n := String.length buf in
      if (n =? 0)%nat then (true, Some "EOF")
      else if gostrings.hasNull buf then (true, None)
      else ((3 * n <? 10 * nonPrintable buf)%nat, None)
  end.

(** Execute runs the read tool. *)
Definition ReadTool_Execute (args : string) : string + option Result :=
  match json_Unmarshal args with
  | inl err => inl ("invalid arguments: " +:+ err)
  | inr a =>
      if String.eqb (FilePath a) "" then inl "filePath is required"
      else
        let filePath :=
          if negb (filepath.IsAbs (FilePath a)) then filepath.Join workingDir (FilePath a)
          else FilePath a in
        match Stat filePath with
        | StatNotExist =>
            let suggestions := SuggestSimilarFiles filePath 3 in
            if (0 <? length suggestions)%nat then
              inl ("file not found: " +:+ filePath +:+ gostrings.nl +:+ gostrings.nl
                   +:+ "Did you mean one of these?" +:+ gostrings.nl +:+ "  "
                   +:+ gostrings.Join suggestions (gostrings.nl +:+ "  "))
            else inl ("file not found: " +:+ filePath)
        | StatFailed err => inl ("failed to stat file: " +:+ err)
        | StatInfo true => inl ("path is a directory, not a file: " +:+ filePath)
        | StatInfo false =>
            if isBinaryExtension filePath then inl ("cannot read binary file: " +:+ filePath)
            else if fst (IsBinaryContent filePath) then
              inl ("cannot read binary file: " +:+ filePath)
            else
              let limit := if (Limit a =? 0)%Z then defaultReadLimit else Limit a in
              let offset := Offset a in
              match ReadFile filePath with
              | inl err => inl ("failed to open file: " +:+ err)
              | inr data =>
                  let '(tokens, tooLong) := bufio.ScanLines data in
                  let '(lineNum, lines, truncatedByBytes, broke) :=
                    readLines offset limit tokens 0 [] 0 in
                  if negb broke && tooLong then
                    inl "failed to read file: bufio.Scanner: token too long"
                  else
                    let lastReadLine := (offset + Z.of_nat (length lines))%Z in
                    let hasMoreLines := (lastReadLine <? lineNum)%Z in
                    let note :=
                      if truncatedByBytes then
                        gostrings.nl +:+ "(Output truncated at " +:+ itoa maxBytes
                        +:+ " bytes. Use 'offset' parameter to read beyond line "
                        +:+ pretty lastReadLine +:+ ")"
                      else if hasMoreLines then
                        gostrings.nl
                        +:+ "(File has more lines. Use 'offset' parameter to read beyond line "
                        +:+ pretty lastReadLine +:+ ")"
                      else
                        gostrings.nl +:+ "(End of file - total " +:+ pretty lineNum
                        +:+ " lines)" in
                    let output :=
                      "<file>" +:+ gostrings.nl +:+ numbered (offset + 1)%Z lines +:+ note
                      +:+ gostrings.nl +:+ "</file>" in
                    let relPath := Rel workingDir filePath in
                    let relPath := if String.eqb relPath "" then filePath else relPath in
                    inr (Some (mkResult relPath output
                                 {["truncated" := any_bool (truncatedByBytes || hasMoreLines)]}))
              end
        end
  end.

End ReadTool.

(** *** Suggestions for a file that was not found (the binary check's file) *)

(** min returns the minimum of three integers. *)
Definition min (a b c : nat) : nat :=
  if (a <? b)%nat then (if (a <? c)%nat then a else c)
  else if (b <? c)%nat then b else c.

(** The inner loop [for j := 1; j <= len(b); j++] of levenshteinDistance
    for the row of the byte [ai]: the cells of the row from column [j] on,
    given the rest [b[j-1:]] of [b], the cells of the row above from column
    [j-1] on, and the cell to the left. *)
Fixpoint fillRow (ai : Ascii.ascii) (b : string) (above : list nat) (left : nat) : list nat :=
  match b, above with
  | String bj b', diag :: ((up :: _) as above') =>
      let cost := if Ascii.eqb ai bj then 0 else 1 in
      let cell := min (up + 1) (left + 1) (diag + cost) in
      cell :: fillRow ai b' above' cell
  | _, _ => []
  end.

(** The outer loop [for i := 1; i <= len(a); i++]: the rows [i], [i+1], ...
    of the matrix for the rest [a[i-1:]] of [a], given row [i-1].  Column 0
    of row [i] holds [i]. *)
Fixpoint fillRows (a b : string) (i : nat) (above : list nat) : list (list nat) :=
  match a with
  | EmptyString => []
  | String ai a' =>
      let row := i :: fillRow ai b above i in
      row :: fillRows a' b (S i) row
  end.

(** levenshteinDistance calculates the edit distance between two strings. *)
Definition levenshteinDistance (a b : string) : nat :=
  if (String.length a =? 0)%nat then String.length b
  else if (String.length b =? 0)%nat then String.length a
  else
    let row0 := seq 0 (S (String.length b)) in
    let matrix := row0 :: fillRows a b 1 row0 in
    match matrix !! String.length a with
    | Some row => default 0 (row !! String.length b)
    | None => 0
    end.

(** The loop that counts the common prefix of [a] and [b]. *)
Fixpoint commonPrefix (a b : string) : nat :=
  match a, b with
  | String x a', String y b' => if Ascii.eqb x y then S (commonPrefix a' b') else 0
  | _, _ => 0
  end.

(** calculateSimilarity returns a similarity score between two strings.
    Lower score means more similar. *)
Definition calculateSimilarity (a b : string) : nat :=
  if String.eqb a b then 0
  else if gostrings.Contains a b || gostrings.Contains b a then 1
  else
    let aBase := gostrings.TrimSuffix a (filepath.Ext a) in
    let bBase := gostrings.TrimSuffix b (filepath.Ext b) in
    if String.eqb aBase bBase then 2
    else if gostrings.Contains aBase bBase || gostrings.Contains bBase aBase then 3
    else
      let dist := levenshteinDistance a b in
      if (dist <=? 3)%nat then 4 + dist
      else if (3 <=? commonPrefix a b)%nat then 8
      else 100.

(** The local type [suggestion]. *)
Record suggestion := mkSuggestion {
  sg_path : string;
  sg_score : nat
}.

Section Suggest.

(** [os.ReadDir(dir)]: an error, or the entries of the directory sorted by
    file name, each with its name and whether it is a directory. *)
Variable ReadDir : string -> string + list (string * bool).

(** The loop over the directory entries that collects the suggestions. *)
Definition collectSuggestions (dir baseLower : string) (entries : list (string * bool))
  : list suggestion :=
  flat_map (fun entry : string * bool =>
    let (name, isDir) := entry in
    if isDir then []
    else
      let nameLower := gostrings.ToLower name in
      let score := calculateSimilarity baseLower nameLower in
      if (score <? 10)%nat then [mkSuggestion (filepath.Join dir name) score] else [])
    entries.

(** SuggestSimilarFiles finds files similar to the requested filename.
    Returns up to maxSuggestions file paths that are similar to the target. *)
Definition SuggestSimilarFiles (targetPath : string) (maxSuggestions : nat) : list string :=
  let dir := filepath.Dir targetPath in
  let base := filepath.Base targetPath in
  let baseLower := gostrings.ToLower base in
  match ReadDir dir with
  | inl _ => []
  | inr entries =>
      let suggestions := collectSuggestions dir baseLower entries in
      let suggestions :=
        search.sort_Slice (fun x y => (sg_score x <? sg_score y)%nat) suggestions in
      map sg_path (take maxSuggestions suggestions)
  end.

End Suggest.

(** *** The grep and glob tools (grep.go and the glob tool's file) *)

(** grepArgs are the arguments for the grep tool. *)
Record grepArgs := mkGrepArgs {
  ga_Pattern : string;
  ga_Path : string;
  ga_Include : string
}.

(** globArgs are the arguments for the glob tool. *)
Record globArgs := mkGlobArgs {
  gl_Pattern : string;
  gl_Path : string
}.

Section SearchTools.

(** The tool's working directory and what Execute calls: [json.Unmarshal],
    the two searches of package [search] on the file system, and
    [filepath.Rel(workingDir, path)] ([""] when it fails). *)
Variable workingDir : string.
Variable grep_Unmarshal : string -> string + grepArgs.
Variable glob_Unmarshal : string -> string + globArgs.
Variable search_Grep : string -> string -> search.GrepOptions -> string + list search.Match.
Variable search_Glob : string -> string -> search.GlobOptions -> string + list search.FileInfo.
Variable Rel : string -> string -> string.

(** The path both tools search: the working directory, or the [path]
    argument resolved against it. *)
Definition searchPathOf (path : string) : string :=
  if negb (String.eqb path "") then
    if filepath.IsAbs path then path else filepath.Join workingDir path
  else workingDir.

(** The loop of GrepTool.Execute that writes the matches, grouped under
    the name of their file; [currentFile] is the file of the match before. *)
Fixpoint writeMatches (currentFile : string) (matches : list search.Match) : string :=
  match matches with
  | [] => EmptyString
  | m :: rest =>
      let header :=
        if negb (String.eqb currentFile (search.Path m)) then
          let relPath := Rel workingDir (search.Path m) in
          let relPath := if String.eqb relPath "" then search.Path m else relPath in
          (if negb (String.eqb currentFile "") then gostrings.nl else "")
          +:+ relPath +:+ ":" +:+ gostrings.nl
        else "" in
      header +:+ "  Line " +:+ pretty (search.LineNum m) +:+ ": " +:+ search.LineText m
      +:+ gostrings.nl +:+ writeMatches (search.Path m) rest
  end.

(** Execute runs the grep tool. *)
Definition GrepTool_Execute (args : string) : string + option Result :=
  match grep_Unmarshal args with
  | inl err => inl ("invalid arguments: " +:+ err)
  | inr a =>
      if String.eqb (ga_Pattern a) "" then inl "pattern is required"
      else
        let searchPath := searchPathOf (ga_Path a) in
        let opts := search.mkGrepOptions (ga_Include a) 100 2000 in
        match search_Grep searchPath (ga_Pattern a) opts with
        | inl err => inl ("search failed: " +:+ err)
        | inr matches =>
            if (length matches =? 0)%nat then
              inr (Some (mkResult (ga_Pattern a) "No files found"
                           (<["matches" := any_int 0]> {["truncated" := any_bool false]})))
            else
              let truncated := (search.MaxMatches opts <=? length matches)%nat in
              let output :=
                "Found " +:+ itoa (length matches) +:+ " matches" +:+ gostrings.nl
                +:+ writeMatches "" matches
                +:+ (if truncated then
                       gostrings.nl
                       +:+ "(Results are truncated. Consider using a more specific path or pattern.)"
                     else "") in
              inr (Some (mkResult (ga_Pattern a) output
                           (<["matches" := any_int (Z.of_nat (length matches))]>
                              {["truncated" := any_bool truncated]})))
        end
  end.

(** The loop of GlobTool.Execute that writes one file per line. *)
Fixpoint writeFiles (files : list search.FileInfo) : string :=
  match files with
  | [] => EmptyString
  | file :: rest =>
      let relPath := Rel workingDir (search.fi_Path file) in
      let relPath := if String.eqb relPath "" then search.fi_Path file else relPath in
      relPath +:+ gostrings.nl +:+ writeFiles rest
  end.

(** Execute runs the glob tool. *)
Definition GlobTool_Execute (args : string) : string + option Result :=
  match glob_Unmarshal args with
  | inl err => inl ("invalid arguments: " +:+ err)
  | inr a =>
      if String.eqb (gl_Pattern a) "" then inl "pattern is required"
      else
        let searchPath := searchPathOf (gl_Path a) in
        let opts := search.mkGlobOptions 100 in
        match search_Glob searchPath (gl_Pattern a) opts with
        | inl err => inl ("glob failed: " +:+ err)
        | inr files =>
            if (length files =? 0)%nat then
              inr (Some (mkResult (filepath.Base searchPath) "No files found"
                           (<["count" := any_int 0]> {["truncated" := any_bool false]})))
            else
              let truncated := (search.MaxFiles opts <=? length files)%nat in
              let output :=
                writeFiles files
                +:+ (if truncated then
                       gostrings.nl
                       +:+ "(Results are truncated. Consider using a more specific path or pattern.)"
                     else "") in
              inr (Some (mkResult (filepath.Base searchPath) output
                           (<["count" := any_int (Z.of_nat (length files))]>
                              {["truncated" := any_bool truncated]})))
        end
  end.

End SearchTools.

End tool.

(* ================================================================== *)
(** * Properties *)
(* ================================================================== *)

(** ** Byte-string facts *)

Lemma HasPrefix_app (s p : string) :
  gostrings.HasPrefix s p = true <-> exists post, s = p +:+ post.
Proof.
  revert s; induction p as [|c p IH]; intros s; simpl.
  - split; [intros _; now exists s | intros _; reflexivity].
  - destruct s as [|d s]; simpl.
    + split; [discriminate | intros [post H]; discriminate].
    + rewrite andb_true_iff, Ascii.eqb_eq, IH. split.
      * intros [-> [post ->]]. now exists post.
      * intros [post H]. injection H as -> ->. split; [reflexivity | now exists post].
Qed.

Lemma Contains_app (s sub : string) :
  gostrings.Contains s sub = true <-> exists pre post, s = pre +:+ sub +:+ post.
Proof.
  induction s as [|c s IH]; simpl.
  - rewrite orb_false_r, HasPrefix_app. split.
    + intros [post H]. now exists EmptyString, post.
    + intros [pre [post H]]. destruct pre; simpl in H; [now exists post | discriminate].
  - rewrite orb_true_iff, HasPrefix_app, IH. split.
    + intros [[post H] | [pre [post H]]].
      * now exists EmptyString, post.
      * exists (String c pre), post. simpl. now rewrite H.
    + intros [pre [post H]]. destruct pre as [|d pre]; simpl in H.
      * left. now exists post.
      * right. injection H as _ ->. now exists pre, post.
Qed.


Lemma ToLower_app (s t : string) :
  gostrings.ToLower (s +:+ t) = gostrings.ToLower s +:+ gostrings.ToLower t.
Proof. induction s as [|c s IH]; simpl; [reflexivity | now rewrite IH]. Qed.

(** Splitting the lower-cased text splits the text itself at the same
    offsets. *)
Lemma ToLower_app_inv (r a b : string) :
  gostrings.ToLower r = a +:+ b ->
  exists ra rb, r = ra +:+ rb /\ gostrings.ToLower ra = a /\ gostrings.ToLower rb = b.
Proof.
  revert r; induction a as [|c a IH]; intros r H; simpl in H.
  - now exists EmptyString, r.
  - destruct r as [|d r]; simpl in H; [discriminate |].
    injection H as Hc Hr. destruct (IH _ Hr) as (ra & rb & -> & Ha & Hb).
    exists (String d ra), rb. simpl. now rewrite Hc, Ha.
Qed.

(** The text [r] holds [marker] when case is ignored: some run of bytes of
    [r] lower-cases to the lower-cased marker. *)
Definition contains_ignoring_case (r marker : string) : Prop :=
  exists pre mid post,
    r = pre +:+ mid +:+ post /\ gostrings.ToLower mid = gostrings.ToLower marker.

Lemma Contains_ToLower (r marker : string) :
  gostrings.ToLower marker = marker ->
  gostrings.Contains (gostrings.ToLower r) marker = true <->
  contains_ignoring_case r marker.
Proof.
  intros Hm. rewrite Contains_app. unfold contains_ignoring_case. rewrite Hm. split.
  - intros (pre & post & H).
    destruct (ToLower_app_inv _ _ _ H) as (ra & rb & -> & _ & Hb).
    destruct (ToLower_app_inv _ _ _ Hb) as (rm & rp & -> & Hmid & _).
    now exists ra, rm, rp.
  - intros (pre & mid & post & -> & Hmid).
    exists (gostrings.ToLower pre), (gostrings.ToLower post).
    now rewrite !ToLower_app, Hmid.
Qed.

(** ** C8: the emptiness heuristic *)



(** ** The agent loop *)

Import agent.

#[local] Arguments Nat.leb : simpl never.
#[local] Arguments Nat.ltb : simpl never.

Lemma string_app_cons (x : ascii) (a b : string) : String x a +:+ b = String x (a +:+ b).
Proof. reflexivity. Qed.

Lemma string_app_nil_l (a : string) : "" +:+ a = a.
Proof. reflexivity. Qed.

Lemma string_app_assoc (a b c : string) : (a +:+ b) +:+ c = a +:+ (b +:+ c).
Proof.
  induction a as [|x a IH]; [reflexivity |].
  rewrite !string_app_cons. f_equal. exact IH.
Qed.

Lemma string_app_nil_r (a : string) : a +:+ "" = a.
Proof.
  induction a as [|x a IH]; [reflexivity |].
  rewrite string_app_cons. f_equal. exact IH.
Qed.

Lemma string_app_length (a b : string) :
  String.length (a +:+ b) = String.length a + String.length b.
Proof.
  induction a as [|x a IH]; [reflexivity |].
  rewrite string_app_cons. simpl. f_equal. exact IH.
Qed.

Lemma slice_to_length (n : nat) (s : string) :
  String.length (gostrings.slice_to n s) = Nat.min n (String.length s).
Proof.
  revert s; induction n as [|n IH]; intros [|c s]; simpl; try reflexivity.
  now rewrite IH.
Qed.

(** *** The backwards scan for assistant content *)









(** *** C7: forced completion *)

(** The three fixed texts of forced completion. *)
Definition evidence_header : string :=
  "Based on the search results, here is what I found:" +:+ gostrings.nl +:+ gostrings.nl.

Definition evidence_footer : string :=
  "[Note: The model was unable to complete the response. Above are the raw search results.]".

Definition nothing_found : string :=
  "I was unable to find specific information about this topic in the codebase after multiple searches. The search patterns used did not return relevant results. Try rephrasing your question or being more specific about what you're looking for.".

(** The quoted outputs, each followed by a blank line. *)
Fixpoint evidence (quotes : list string) : string :=
  match quotes with
  | [] => ""
  | q :: rest => q +:+ gostrings.nl +:+ gostrings.nl +:+ evidence rest
  end.

Lemma fold_left_evidence (quotes : list string) (acc : string) :
  fold_left (fun acc result => acc +:+ result +:+ gostrings.nl +:+ gostrings.nl) quotes acc
  = acc +:+ evidence quotes.
Proof.
  revert acc; induction quotes as [|q quotes IH]; intros acc; simpl.
  - now rewrite string_app_nil_r.
  - rewrite IH. now rewrite !string_app_assoc.
Qed.

(** The returned text as one expression over the history. *)
Lemma forceCompletion_content (msgs : list Message) (calls : list ToolCall) (usage : Usage) :
  r_Content (forceCompletion msgs calls usage) =
  if String.eqb (lastAssistantContent msgs) "" then
    match List.filter quotable msgs with
    | [] => nothing_found
    | quotes =>
        evidence_header +:+ evidence (map (fun m => quoted (Content m)) (take 3 quotes))
        +:+ evidence_footer
    end
  else lastAssistantContent msgs.
Proof.
  unfold forceCompletion. cbv zeta. cbn [r_Content].
  destruct (String.eqb (lastAssistantContent msgs) ""); [| reflexivity].
  rewrite length_map.
  destruct (List.filter quotable msgs) as [|q qs]; [reflexivity |].
  change (0 <? length (q :: qs)) with true. cbv iota.
  rewrite fold_left_evidence, string_app_nil_l, firstn_map.
  unfold evidence_header. now rewrite !string_app_assoc.
Qed.





(** *** One pass of the loop, case by case *)

(** The run a pass ends in. *)
Definition run_of (f : Flow) : Run :=
  match f with
  | Return _ r => r
  | Continue r => r
  end.

(** Whether some tool message of a round carries a useful result. *)
Definition anyUseful (toolMsgs : list Message) : bool :=
  existsb (fun m => negb (isEmptyResult (Content m))) toolMsgs.

Lemma anyUseful_false (toolMsgs : list Message) :
  Forall (fun m => isEmptyResult (Content m) = true) toolMsgs -> anyUseful toolMsgs = false.
Proof.
  induction 1 as [|m l Hm _ IH]; [reflexivity |].
  unfold anyUseful in *. simpl. now rewrite Hm, IH.
Qed.

Lemma anyUseful_app (l1 l2 : list Message) :
  anyUseful (l1 ++ l2) = anyUseful l1 || anyUseful l2.
Proof. unfold anyUseful. apply existsb_app. Qed.

Section LoopFacts.

Variables (ModelProvider ModelName SystemPrompt : string) (toolNames : list string).
Variable Chat : nat -> ChatRequest -> string + ChatResponse.
Variable StreamChat : nat -> ChatRequest -> string + list StreamEvent.
Variable ToolsExecute : nat -> string -> string -> string + string.
Variable md5hex : string -> string.
Variable callback : bool.

Local Abbreviation toolCallStep := (agent.toolCallStep ToolsExecute md5hex).
Local Abbreviation iteration :=
  (agent.iteration ModelProvider ModelName SystemPrompt toolNames Chat StreamChat
                   ToolsExecute md5hex callback).
Local Abbreviation iterate :=
  (agent.iterate ModelProvider ModelName SystemPrompt toolNames Chat StreamChat
                 ToolsExecute md5hex callback).
Local Abbreviation runLoop :=
  (agent.runLoop ModelProvider ModelName SystemPrompt toolNames Chat StreamChat
                 ToolsExecute md5hex callback).
Local Abbreviation AskWithCallback :=
  (agent.AskWithCallback ModelProvider ModelName SystemPrompt toolNames Chat StreamChat
                         ToolsExecute md5hex callback).

(** What the tool calls of one round change: they append one tool message
    per call and count the calls; nothing else moves. *)
Definition tools_ran (tcs : list ToolCall) (r r' : Run) (toolMsgs : list Message) : Prop :=
  Messages (thread r') = Messages (thread r) ++ toolMsgs /\
  ID (thread r') = ID (thread r) /\ Title (thread r') = Title (thread r) /\
  length toolMsgs = length tcs /\
  emptyResultCount (state r') = emptyResultCount (state r) /\
  totalSearches (state r') = totalSearches (state r) + length tcs /\
  hintInjected (state r') = hintInjected (state r) /\
  totalUsage r' = totalUsage r /\ allToolCalls r' = allToolCalls r /\
  sent r' = sent r /\ saved r' = saved r.

Lemma toolCallStep_spec (tc : ToolCall) (r : Run) (u p : bool) :
  exists r' p' m,
    toolCallStep (r, u, p) tc = (r', u || negb (isEmptyResult (Content m)), p') /\
    tools_ran [tc] r r' [m].
Proof.
  unfold agent.toolCallStep. cbv zeta.
  destruct (executeTool ToolsExecute (totalSearches (state r)) tc) as [err | out].
  - eexists _, _, (mkMessage "tool" "" [] (tc_ID tc) [mkToolResult (tc_ID tc) "" err]).
    split; [simpl; now rewrite orb_false_r |].
    unfold tools_ran; simpl; repeat split; lia.
  - eexists _, _, (mkMessage "tool" out [] (tc_ID tc) [mkToolResult (tc_ID tc) out ""]).
    split; [reflexivity |].
    unfold tools_ran; simpl; repeat split; lia.
Qed.

Lemma toolSteps_spec (tcs : list ToolCall) (r : Run) (u p : bool) :
  exists r' p' toolMsgs,
    fold_left toolCallStep tcs (r, u, p) = (r', u || anyUseful toolMsgs, p') /\
    tools_ran tcs r r' toolMsgs.
Proof.
  revert r u p; induction tcs as [|tc tcs IH]; intros r u p.
  - exists r, p, []. split; [simpl; now rewrite orb_false_r |].
    unfold tools_ran. simpl. rewrite app_nil_r. repeat split; lia.
  - destruct (toolCallStep_spec tc r u p) as (r1 & p1 & m & Hstep & H1).
    destruct (IH r1 (u || negb (isEmptyResult (Content m))) p1) as (r2 & p2 & ms & Hfold & H2).
    exists r2, p2, (m :: ms). split.
    + cbn [fold_left]. rewrite Hstep, Hfold. f_equal. f_equal.
      unfold anyUseful. simpl. now rewrite orb_assoc.
    + unfold tools_ran in *. simpl in *.
      destruct H1 as (A1 & A2 & A3 & A4 & A5 & A6 & A7 & A8 & A9 & A10 & A11).
      destruct H2 as (B1 & B2 & B3 & B4 & B5 & B6 & B7 & B8 & B9 & B10 & B11).
      rewrite B1, A1, <- app_assoc. simpl.
      repeat split; try congruence; lia.
Qed.

(** The flow out of a round that executed tools, from the counters it
    leaves behind. *)
Definition after_tools (r1 : Run) : Flow :=
  if (3 <=? emptyResultCount (state r1)) ||
     ((8 <=? totalSearches (state r1)) && (2 <=? emptyResultCount (state r1)))
  then Return (inr (forceCompletion (Messages (thread r1)) (allToolCalls r1) (totalUsage r1))) r1
  else Continue r1.

(** The three ways a pass can go. *)
Inductive pass (r : Run) : Flow -> Prop :=
| pass_failed (err : string) (r1 : Run) :
    thread r1 = thread r -> state r1 = state r ->
    pass r (Return (inl ("chat request failed: " +:+ err)) r1)
| pass_answered (resp : Response) (r1 : Run) (am : Message) :
    Messages (thread r1) = Messages (thread r) ++ [am] ->
    Role am = "assistant" -> ToolCalls am = [] ->
    pass r (Return (inr resp) r1)
| pass_tools (r1 : Run) (am : Message) (toolMsgs : list Message) :
    Messages (thread r1) = Messages (thread r) ++ am :: toolMsgs ->
    Role am = "assistant" -> toolMsgs <> [] ->
    length toolMsgs = length (ToolCalls am) ->
    emptyResultCount (state r1) =
      (if anyUseful toolMsgs then 0 else S (emptyResultCount (state r))) ->
    totalSearches (state r1) = totalSearches (state r) + length toolMsgs ->
    pass r (after_tools r1).

Lemma iteration_pass (r : Run) :
  pass r (iteration r) /\
  saved (run_of (iteration r)) = saved r /\
  length (sent (run_of (iteration r))) = S (length (sent r)) /\
  ID (thread (run_of (iteration r))) = ID (thread r) /\
  Title (thread (run_of (iteration r))) = Title (thread r).
Proof.
  unfold agent.iteration. cbv zeta.
  match goal with
  | |- context [match ?c with inl _ => _ | inr _ => _ end] => destruct c as [err | resp]
  end.
  - simpl. rewrite length_app. simpl. repeat split; try lia.
    now apply pass_failed.
  - destruct (length (resp_ToolCalls resp) =? 0) eqn:Hlen.
    + simpl. rewrite length_app. simpl. repeat split; try lia.
      apply Nat.eqb_eq in Hlen. apply length_zero_iff_nil in Hlen.
      eapply pass_answered with (am := mkMessage "assistant" (resp_Content resp)
                                                 (resp_ToolCalls resp) "" []);
        [reflexivity | reflexivity | exact Hlen].
    + apply Nat.eqb_neq in Hlen.
      match goal with
      | |- context [fold_left _ ?tcs (?r0, false, false)] =>
          destruct (toolSteps_spec tcs r0 false false) as (r2 & p2 & ms & Hfold & Hran);
          rewrite Hfold
      end.
      cbv beta iota zeta. rewrite orb_false_l.
      unfold tools_ran in Hran. simpl in Hran.
      destruct Hran as (B1 & B2 & B3 & B4 & B5 & B6 & B7 & B8 & B9 & B10 & B11).
      set (r1 := trackEmpty (anyUseful ms) p2 r2).
      assert (Hf : (if 3 <=? emptyResultCount (state r1)
                    then Return (inr (forceCompletion (Messages (thread r1)) (allToolCalls r1)
                                                      (totalUsage r1))) r1
                    else if (8 <=? totalSearches (state r1)) && (2 <=? emptyResultCount (state r1))
                    then Return (inr (forceCompletion (Messages (thread r1)) (allToolCalls r1)
                                                      (totalUsage r1))) r1
                    else Continue r1) = after_tools r1).
      { unfold after_tools. destruct (3 <=? emptyResultCount (state r1)); reflexivity. }
      rewrite Hf. split.
      * eapply pass_tools with (am := mkMessage "assistant" (resp_Content resp)
                                                (resp_ToolCalls resp) "" []) (toolMsgs := ms).
        -- unfold r1. simpl. rewrite B1, <- app_assoc. reflexivity.
        -- reflexivity.
        -- intros ->. simpl in B4. lia.
        -- simpl. exact B4.
        -- unfold r1. simpl. now rewrite B5.
        -- unfold r1. simpl. rewrite B6, B4. reflexivity.
      * unfold after_tools.
        match goal with |- context [if ?c then Return _ _ else Continue _] => destruct c end;
          unfold r1; simpl; rewrite ?B10, ?B11, ?B2, ?B3, ?length_app; simpl; repeat split; lia.
Qed.

(** *** Runs of one Ask call *)

(** The run after [n] rounds that all fell through to the next iteration;
    [None] when one of them returned. *)
Fixpoint continued (n : nat) (r : Run) : option Run :=
  match n with
  | O => Some r
  | S n' =>
      match iteration r with
      | Continue r' => continued n' r'
      | Return _ _ => None
      end
  end.

(** The run an Ask call starts its loop from. *)
Definition start (a_Thread : option Thread) (saved0 : list Thread) (threadID question : string)
  : Run :=
  mkRun (askThread a_Thread threadID question) newLoopState (mkUsage 0 0 0) [] [] saved0.

Lemma iterate_continued (n k : nat) (r r' : Run) :
  continued n r = Some r' -> iterate (n + k) r = iterate k r'.
Proof.
  revert r; induction n as [|n IH]; intros r H; simpl in *.
  - now injection H as ->.
  - destruct (iteration r) as [res r1 | r1]; [discriminate | now apply IH].
Qed.

Lemma continued_sent (n : nat) (r r' : Run) :
  continued n r = Some r' -> length (sent r') = length (sent r) + n.
Proof.
  revert r; induction n as [|n IH]; intros r H; simpl in *.
  - injection H as ->. lia.
  - destruct (iteration_pass r) as (_ & _ & Hs & _).
    destruct (iteration r) as [res r1 | r1]; [discriminate |].
    apply IH in H. simpl in Hs. lia.
Qed.

(** What a round returns within the budget is what Ask returns, saved
    when it is an answer. *)
Lemma ask_returns (a_Thread : option Thread) (saved0 : list Thread)
    (threadID question : string) (n : nat) (r r' : Run) (res : string + Response) :
  continued n (start a_Thread saved0 threadID question) = Some r ->
  n < 10 ->
  iteration r = Return res r' ->
  AskWithCallback a_Thread saved0 threadID question =
    match res with
    | inl err => (inl err, r')
    | inr response => (inr response, SaveThread r')
    end.
Proof.
  intros Hc Hn Hret. unfold agent.AskWithCallback, agent.runLoop, maxIterations. cbv zeta.
  fold (start a_Thread saved0 threadID question).
  replace 10 with (n + S (9 - n)) by lia.
  rewrite (iterate_continued n (S (9 - n)) _ r Hc).
  cbn [agent.iterate]. rewrite Hret. now destruct res.
Qed.

Lemma continued_step (n : nat) (r0 r r1 : Run) :
  continued n r0 = Some r -> iteration r = Continue r1 -> continued (S n) r0 = Some r1.
Proof.
  revert r0; induction n as [|n IH]; intros r0 Hc Hstep; simpl in *.
  - injection Hc as ->. now rewrite Hstep.
  - destruct (iteration r0) as [res r' | r']; [discriminate | now apply IH].
Qed.

(** *** C3: the stuck-loop stop *)

(** A round from [r] to [r'] that executed tool calls, none with a useful
    result: the round appended the assistant message [am] and then tool
    messages that [isEmptyResult] all rejects. *)
Definition fruitless (r r' : Run) : Prop :=
  exists am toolMsgs,
    Messages (thread r') = Messages (thread r) ++ am :: toolMsgs /\
    toolMsgs <> [] /\
    Forall (fun m => isEmptyResult (Content m) = true) toolMsgs.

(** The stop condition on the counters a round leaves behind. *)
Definition stuck (st : loopState) : Prop :=
  3 <= emptyResultCount st \/ (8 <= totalSearches st /\ 2 <= emptyResultCount st).

(** The answer of forced completion on the run [r]. *)
Definition forced (r : Run) : Response :=
  forceCompletion (Messages (thread r)) (allToolCalls r) (totalUsage r).

Lemma after_tools_stuck (r1 : Run) :
  stuck (state r1) -> after_tools r1 = Return (inr (forced r1)) r1.
Proof.
  unfold stuck, after_tools, forced. intros H.
  destruct (Nat.leb_spec 3 (emptyResultCount (state r1))); [reflexivity |].
  destruct (Nat.leb_spec 8 (totalSearches (state r1)));
    destruct (Nat.leb_spec 2 (emptyResultCount (state r1))); simpl; try reflexivity; lia.
Qed.

Lemma after_tools_not_stuck (r1 : Run) :
  ~ stuck (state r1) -> after_tools r1 = Continue r1.
Proof.
  unfold stuck, after_tools. intros H.
  destruct (Nat.leb_spec 3 (emptyResultCount (state r1))); [lia |].
  destruct (Nat.leb_spec 8 (totalSearches (state r1)));
    destruct (Nat.leb_spec 2 (emptyResultCount (state r1))); simpl; try reflexivity; lia.
Qed.

Lemma run_of_after_tools (r1 : Run) : run_of (after_tools r1) = r1.
Proof. unfold after_tools. now destruct (_ || _). Qed.

(** A round that appended tool messages is a [pass_tools] round, with the
    messages it appended. *)
Lemma tools_round (r : Run) (am : Message) (toolMsgs : list Message) :
  Messages (thread (run_of (iteration r))) = Messages (thread r) ++ am :: toolMsgs ->
  toolMsgs <> [] ->
  let r1 := run_of (iteration r) in
  iteration r = after_tools r1 /\
  emptyResultCount (state r1) =
    (if anyUseful toolMsgs then 0 else S (emptyResultCount (state r))) /\
  totalSearches (state r1) = totalSearches (state r) + length toolMsgs.
Proof.
  intros Hmsgs Hne. cbv zeta.
  destruct (iteration_pass r) as (Hpass & _).
  inversion Hpass as [err r1 Hth Hst Hf | resp r1 am' Hm Hrole Hcalls Hf
                     | r1 am' ms Hm Hrole Hms Hlen Hempty Htotal Hf];
    rewrite <- Hf in Hmsgs; simpl in Hmsgs.
  - rewrite Hth in Hmsgs. apply (f_equal (@length _)) in Hmsgs.
    rewrite length_app in Hmsgs. simpl in Hmsgs. lia.
  - rewrite Hm in Hmsgs. apply app_inv_head in Hmsgs. injection Hmsgs as _ <-.
    congruence.
  - rewrite run_of_after_tools in *. rewrite Hm in Hmsgs.
    apply app_inv_head in Hmsgs. injection Hmsgs as <- <-. auto.
Qed.

(** C3.  Within one Ask call, let [r] be the run after [n < 10] rounds that
    all continued.  (1) If the next round executes tool calls and none of
    their results is useful, the consecutive-empty counter is one more than
    before.  (2) If the next round executes tool calls and leaves the counter
    at 3 or more, or at 2 or more with 8 or more tool invocations in total,
    the loop stops there: Ask returns the forced-completion answer, an answer
    and not an error, and has sent [n + 1] requests, none for a further
    round.  (3) Three fruitless rounds in a row make Ask return the
    forced-completion answer at the third, after [n + 3] requests. *)
Theorem C3_stuck_loop_forces_completion (a_Thread : option Thread) (saved0 : list Thread)
    (threadID question : string) (n : nat) (r : Run) :
  continued n (start a_Thread saved0 threadID question) = Some r ->
  n < 10 ->
  (forall am toolMsgs,
      Messages (thread (run_of (iteration r))) = Messages (thread r) ++ am :: toolMsgs ->
      toolMsgs <> [] ->
      Forall (fun m => isEmptyResult (Content m) = true) toolMsgs ->
      emptyResultCount (state (run_of (iteration r))) = S (emptyResultCount (state r)))
  /\
  (forall am toolMsgs,
      Messages (thread (run_of (iteration r))) = Messages (thread r) ++ am :: toolMsgs ->
      toolMsgs <> [] ->
      stuck (state (run_of (iteration r))) ->
      let r1 := run_of (iteration r) in
      iteration r = Return (inr (forced r1)) r1 /\
      AskWithCallback a_Thread saved0 threadID question = (inr (forced r1), SaveThread r1) /\
      length (sent r1) = S n)
  /\
  (forall r1 r2,
      n + 3 <= 10 ->
      iteration r = Continue r1 -> fruitless r r1 ->
      iteration r1 = Continue r2 -> fruitless r1 r2 ->
      fruitless r2 (run_of (iteration r2)) ->
      let r3 := run_of (iteration r2) in
      iteration r2 = Return (inr (forced r3)) r3 /\
      AskWithCallback a_Thread saved0 threadID question = (inr (forced r3), SaveThread r3) /\
      length (sent r3) = n + 3).
Proof.
  intros Hc Hn.
  assert (Hsent0 : length (sent r) = n).
  { apply continued_sent in Hc. simpl in Hc. exact Hc. }
  split; [| split].
  - intros am toolMsgs Hmsgs Hne Hempty.
    destruct (tools_round r am toolMsgs Hmsgs Hne) as (_ & He & _).
    now rewrite He, (anyUseful_false _ Hempty).
  - intros am toolMsgs Hmsgs Hne Hstuck r1.
    destruct (tools_round r am toolMsgs Hmsgs Hne) as (Hflow & _ & _).
    fold r1 in Hflow, Hstuck. rewrite (after_tools_stuck r1 Hstuck) in Hflow.
    split; [exact Hflow | split].
    + exact (ask_returns _ _ _ _ n r r1 _ Hc Hn Hflow).
    + destruct (iteration_pass r) as (_ & _ & Hs & _). fold r1 in Hs. lia.
  - intros r1 r2 Hbudget H1 (am1 & ms1 & Hm1 & Hne1 & He1) H2 (am2 & ms2 & Hm2 & Hne2 & He2)
           (am3 & ms3 & Hm3 & Hne3 & He3) r3.
    assert (Hr1 : run_of (iteration r) = r1) by now rewrite H1.
    assert (Hr2 : run_of (iteration r1) = r2) by now rewrite H2.
    rewrite <- Hr1 in Hm1. rewrite <- Hr2 in Hm2.
    destruct (tools_round r am1 ms1 Hm1 Hne1) as (_ & E1 & _).
    destruct (tools_round r1 am2 ms2 Hm2 Hne2) as (_ & E2 & _).
    destruct (tools_round r2 am3 ms3 Hm3 Hne3) as (Hflow & E3 & _).
    rewrite (anyUseful_false _ He1), Hr1 in E1.
    rewrite (anyUseful_false _ He2), Hr2 in E2.
    rewrite (anyUseful_false _ He3) in E3. fold r3 in Hflow, E3.
    assert (Hstuck : stuck (state r3)) by (left; lia).
    rewrite (after_tools_stuck r3 Hstuck) in Hflow.
    pose proof (continued_step _ _ _ _ (continued_step _ _ _ _ Hc H1) H2) as Hc2.
    split; [exact Hflow | split].
    + exact (ask_returns _ _ _ _ (S (S n)) r2 r3 _ Hc2 ltac:(lia) Hflow).
    + destruct (iteration_pass r) as (_ & _ & S1 & _).
      destruct (iteration_pass r1) as (_ & _ & S2 & _).
      destruct (iteration_pass r2) as (_ & _ & S3 & _).
      rewrite Hr1 in S1. rewrite Hr2 in S2. fold r3 in S3. lia.
Qed.

(** *** C4: the iteration budget *)

Definition incomplete_note : string :=
  gostrings.nl +:+ gostrings.nl +:+ "[Note: Response may be incomplete due to iteration limit]".

Lemma afterLoop_result (r : Run) :
  fst (afterLoop r) =
    (if String.eqb (lastAssistantContent (Messages (thread r))) "" then
       inl "max iterations reached"
     else inr (mkResponse (lastAssistantContent (Messages (thread r)) +:+ incomplete_note)
                          (allToolCalls r) (totalUsage r)))
  /\ sent (snd (afterLoop r)) = sent r
  /\ thread (snd (afterLoop r)) = thread r.
Proof.
  unfold afterLoop. cbv zeta.
  destruct (0 <? length (Messages (thread r))); simpl;
    destruct (String.eqb (lastAssistantContent (Messages (thread r))) ""); simpl;
    unfold incomplete_note; rewrite ?string_app_assoc; auto.
Qed.





(** *** C5: what a provider failure leaves behind *)

(** Rounds never save; only the exhausted budget does, inside runLoop. *)
Lemma iterate_failure_saved (n : nat) (r : Run) (err : string) :
  fst (iterate n r) = inl err ->
  err <> "max iterations reached" ->
  saved (snd (iterate n r)) = saved r.
Proof.
  revert r; induction n as [|n IH]; intros r H Hne; simpl in *.
  - destruct (afterLoop_result r) as (Hres & _). rewrite Hres in H.
    destruct (String.eqb _ _); [congruence | discriminate].
  - destruct (iteration_pass r) as (_ & Hs & _).
    destruct (iteration r) as [res r1 | r1]; simpl in *; [exact Hs |].
    rewrite <- Hs. now apply IH.
Qed.

(** Whenever an Ask call fails with anything but the exhausted budget, that
    is with a failed chat request, [Storage.SaveThread] has not been called:
    the threads saved are those saved before the call. *)
Lemma chat_failure_never_saves (a_Thread : option Thread) (saved0 : list Thread)
    (threadID question err : string) :
  fst (AskWithCallback a_Thread saved0 threadID question) = inl err ->
  err <> "max iterations reached" ->
  saved (snd (AskWithCallback a_Thread saved0 threadID question)) = saved0.
Proof.
  unfold agent.AskWithCallback, agent.runLoop. cbv zeta. intros H Hne.
  match type of H with
  | context [agent.iterate ?a ?b ?c ?d ?e ?f ?g ?h ?i ?n ?r] =>
      pose proof (iterate_failure_saved n r err) as Hit;
      destruct (agent.iterate a b c d e f g h i n r) as [[e' | resp] r1]
  end; simpl in *; [| discriminate].
  injection H as ->. now apply Hit.
Qed.

End LoopFacts.

(** *** C5 on a failing provider *)

(** A provider that asks for one search and then loses the connection. *)
Definition chat_search_then_fail (n : nat) (req : ChatRequest) : string + ChatResponse :=
  match n with
  | O => inr (mkChatResponse "Let me search." [mkToolCall "call_1" "grep" "{}"] "tool_use"
                             (mkUsage 10 5 15))
  | S _ => inl "connection reset by peer"
  end.

Definition no_stream (n : nat) (req : ChatRequest) : string + list StreamEvent :=
  inl "streaming not used".

Definition tools_find_main (n : nat) (name args : string) : string + string :=
  inr "main.go:12: func main() { cmd.Execute() } // entry point here".

(** C5, the code at a failing input.  The provider answers the first request
    with a tool call and fails on the second.  Ask returns the error; the
    thread in memory holds the user message, the assistant message and the
    tool message, and nothing has been handed to [Storage.SaveThread]. *)
Theorem C5_failed_chat_is_not_saved :
  let out := AskWithCallback "ollama" "llama3" "You answer questions about code." ["grep"]
                             chat_search_then_fail no_stream tools_find_main (fun s => s) false
                             None [] "1700000000" "What is Cobra?" in
  fst out = inl "chat request failed: connection reset by peer" /\
  map Role (Messages (thread (snd out))) = ["user"; "assistant"; "tool"] /\
  length (sent (snd out)) = 2 /\
  saved (snd out) = [].
Proof.
  cbv zeta. split; [vm_compute; reflexivity |].
  split; [vm_compute; reflexivity |].
  split; [vm_compute; reflexivity |].
  apply chat_failure_never_saves with (err := "chat request failed: connection reset by peer").
  - vm_compute; reflexivity.
  - discriminate.
Qed.

(** ** Truncation and the registry *)

(** The two ceilings, on the output as [TruncateOutput] measures it: bytes,
    and newline-separated fields. *)
Definition over_ceiling (output : string) : Prop :=
  tool.MaxOutputBytes < String.length output \/
  tool.MaxOutputLines < length (gostrings.SplitLines output).

Definition line_note (total : nat) : string :=
  gostrings.nl +:+ gostrings.nl +:+ "[Output truncated at " +:+ itoa tool.MaxOutputLines
  +:+ " lines. Total: " +:+ itoa total +:+ " lines]".

Definition byte_note : string :=
  gostrings.nl +:+ gostrings.nl +:+ "[Output truncated at 50KB]".

Definition file_note (path : string) : string :=
  gostrings.nl +:+ gostrings.nl +:+ "[Full output saved to: " +:+ path +:+ "]".

(** The cut at the line ceiling: the first 500 lines and the note with the
    total, or the output itself when it has no more than 500 lines. *)
Definition line_cut (output : string) : string :=
  let lines := gostrings.SplitLines output in
  if tool.MaxOutputLines <? length lines then
    gostrings.Join (take tool.MaxOutputLines lines) gostrings.nl +:+ line_note (length lines)
  else output.

(** The preview kept in memory. *)
Definition preview (output : string) : string :=
  tool.trunc_Content (tool.truncateInMemory output (gostrings.SplitLines output)).

Lemma over_ceiling_dec (output : string) :
  (tool.MaxOutputBytes <? String.length output) ||
  (tool.MaxOutputLines <? length (gostrings.SplitLines output)) = true <-> over_ceiling output.
Proof. unfold over_ceiling. rewrite orb_true_iff, !Nat.ltb_lt. tauto. Qed.

(** The preview is the line cut, cut again at the byte ceiling if need be. *)
Lemma preview_cases (output : string) :
  (String.length (line_cut output) <= tool.MaxOutputBytes -> preview output = line_cut output) /\
  (tool.MaxOutputBytes < String.length (line_cut output) ->
   preview output = gostrings.slice_to tool.MaxOutputBytes (line_cut output) +:+ byte_note).
Proof.
  unfold preview, tool.truncateInMemory. cbv zeta. cbn [tool.trunc_Content].
  fold (line_note (length (gostrings.SplitLines output))).
  fold (line_cut output). fold byte_note.
  destruct (Nat.ltb_spec tool.MaxOutputBytes (String.length (line_cut output))); split;
    intros; try reflexivity; lia.
Qed.

Lemma preview_length (output : string) :
  String.length (preview output) <= tool.MaxOutputBytes + 28.
Proof.
  destruct (preview_cases output) as [Hfit Hcut].
  destruct (Nat.le_gt_cases (String.length (line_cut output)) tool.MaxOutputBytes) as [H | H].
  - rewrite (Hfit H). lia.
  - rewrite (Hcut H), string_app_length, slice_to_length.
    change (String.length byte_note) with 28. lia.
Qed.

Section RegistryFacts.

Variable MkdirAll : string -> bool.
Variable WriteFile : string -> string -> bool.
Variable randomID : string.

Local Abbreviation TruncateOutput := (tool.TruncateOutput MkdirAll WriteFile randomID).
Local Abbreviation Registry_Execute := (tool.Registry_Execute MkdirAll WriteFile randomID).

(** Where the full output of a truncated result would be written. *)
Definition side_file (cfg : tool.TruncationConfig) : string :=
  filepath.Join (filepath.Join (tool.cfg_OutputDir cfg) (tool.cfg_ThreadID cfg))
                (tool.cfg_ToolName cfg +:+ "-" +:+ randomID +:+ ".txt").

(** Whether the full output reaches its side file. *)
Definition stored (output : string) (cfg : tool.TruncationConfig) : bool :=
  MkdirAll (filepath.Join (tool.cfg_OutputDir cfg) (tool.cfg_ThreadID cfg)) &&
  WriteFile (side_file cfg) output.

Lemma TruncateOutput_under (output : string) (cfg : tool.TruncationConfig) :
  ~ over_ceiling output ->
  TruncateOutput output cfg = (inr (tool.mkTruncationResult output false ""), []).
Proof.
  intros H. unfold tool.TruncateOutput. cbv zeta.
  destruct (_ || _) eqn:E; [| reflexivity].
  apply over_ceiling_dec in E. contradiction.
Qed.

Lemma TruncateOutput_over (output : string) (cfg : tool.TruncationConfig) :
  over_ceiling output ->
  TruncateOutput output cfg =
    if stored output cfg then
      (inr (tool.mkTruncationResult (preview output +:+ file_note (side_file cfg)) true
                                    (side_file cfg)),
       [(side_file cfg, output)])
    else (inr (tool.mkTruncationResult (preview output) true ""), []).
Proof.
  intros H. apply over_ceiling_dec in H.
  unfold tool.TruncateOutput, stored, side_file, preview. cbv zeta. rewrite H. cbn [negb].
  destruct (MkdirAll _); cbn [negb andb]; [| reflexivity].
  destruct (WriteFile _ _); cbn [negb]; reflexivity.
Qed.

Lemma string_app_not_empty_r (a b : string) : b <> "" -> a +:+ b <> "".
Proof. destruct a; [now rewrite string_app_nil_l | discriminate]. Qed.

Lemma Join_not_empty (a b : string) : b <> "" -> filepath.Join a b <> "".
Proof.
  intros Hb. unfold filepath.Join.
  destruct (String.eqb_spec a ""); [exact Hb |].
  destruct (String.eqb_spec b ""); [contradiction |].
  destruct a; [contradiction | discriminate].
Qed.

Lemma side_file_not_empty (cfg : tool.TruncationConfig) : side_file cfg <> "".
Proof.
  unfold side_file. apply Join_not_empty.
  apply string_app_not_empty_r, string_app_not_empty_r, string_app_not_empty_r. discriminate.
Qed.

(** What the registry returns for a tool that produced [result]. *)
Lemma Registry_Execute_result (reg : tool.Registry) (name args : string) (t : tool.Tool)
    (result : tool.Result) :
  tool.tools reg !! name = Some t ->
  tool.Execute t args = inr (Some result) ->
  let out := tool.Output result in
  let cfg := tool.GetTruncationConfig reg name in
  Registry_Execute reg name args =
    if String.eqb (tool.outputDir reg) "" then (inr (Some result), [])
    else if (tool.MaxOutputBytes <? String.length out) ||
            (tool.MaxOutputLines <? length (gostrings.SplitLines out))
    then
      if stored out cfg then
        (inr (Some (tool.mkResult (tool.Title result)
                      (preview out +:+ file_note (side_file cfg))
                      (<["outputPath" := tool.any_string (side_file cfg)]>
                         (<["truncated" := tool.any_bool true]> (tool.Metadata result))))),
         [(side_file cfg, out)])
      else
        (inr (Some (tool.mkResult (tool.Title result) (preview out)
                      (<["truncated" := tool.any_bool true]> (tool.Metadata result)))), [])
    else (inr (Some result), []).
Proof.
  intros Htool Hexec. cbv zeta. unfold tool.Registry_Execute. rewrite Htool, Hexec.
  destruct (String.eqb (tool.outputDir reg) ""); cbn [negb]; [reflexivity |].
  cbv zeta.
  destruct (_ || _) eqn:E.
  - apply over_ceiling_dec in E. rewrite (TruncateOutput_over _ _ E).
    destruct (stored _ _); cbn [tool.trunc_Truncated tool.trunc_OutputPath tool.trunc_Content].
    + pose proof (side_file_not_empty (tool.GetTruncationConfig reg name)) as Hne.
      apply String.eqb_neq in Hne. rewrite Hne. reflexivity.
    + reflexivity.
  - assert (Hn : ~ over_ceiling (tool.Output result)).
    { intros H. apply over_ceiling_dec in H. congruence. }
    rewrite (TruncateOutput_under _ _ Hn). reflexivity.
Qed.

(** *** C6: truncation through the registry *)

(** C6 (amended).  For a tool execution through the registry that produced
    [result]: with no output directory set the result passes through
    unchanged, whatever its size; with one set, output within both ceilings
    (500 newline-separated lines, 50 KB) passes through unchanged, and
    output over either is replaced by a preview, marked truncated in the
    metadata and followed by a pointer to the side file when the full output
    was stored.  The preview is cut at the line ceiling first (the first 500
    lines, then a note stating the ceiling and the total number of lines)
    and then, if that text is still over 50 KB, cut to its first 51200 bytes
    and followed by the note "[Output truncated at 50KB]". *)
Theorem C6_registry_truncation (reg : tool.Registry) (name args : string) (t : tool.Tool)
    (result : tool.Result) :
  tool.tools reg !! name = Some t ->
  tool.Execute t args = inr (Some result) ->
  let out := tool.Output result in
  let lines := gostrings.SplitLines out in
  let cfg := tool.GetTruncationConfig reg name in
  let res := fst (Registry_Execute reg name args) in
  (tool.outputDir reg = "" -> res = inr (Some result))
  /\
  (tool.outputDir reg <> "" -> ~ over_ceiling out -> res = inr (Some result))
  /\
  (tool.outputDir reg <> "" -> over_ceiling out ->
   exists result',
     res = inr (Some result') /\
     tool.Title result' = tool.Title result /\
     tool.Output result' =
       preview out +:+ (if stored out cfg then file_note (side_file cfg) else "") /\
     tool.Metadata result' !! "truncated" = Some (tool.any_bool true))
  /\
  (String.length (line_cut out) <= tool.MaxOutputBytes -> preview out = line_cut out)
  /\
  (tool.MaxOutputBytes < String.length (line_cut out) ->
   preview out = gostrings.slice_to tool.MaxOutputBytes (line_cut out) +:+ byte_note)
  /\
  (tool.MaxOutputLines < length lines ->
   line_cut out =
     gostrings.Join (take tool.MaxOutputLines lines) gostrings.nl +:+ line_note (length lines))
  /\
  (length lines <= tool.MaxOutputLines -> line_cut out = out)
  /\
  String.length (preview out) <= tool.MaxOutputBytes + 28.
Proof.
  intros Htool Hexec. cbv zeta.
  rewrite (Registry_Execute_result reg name args t result Htool Hexec). cbv zeta.
  split; [| split; [| split; [| split; [| split; [| split; [| split]]]]]].
  - intros ->. reflexivity.
  - intros Hdir Hunder. apply String.eqb_neq in Hdir. rewrite Hdir.
    destruct (_ || _) eqn:E; [| reflexivity].
    apply over_ceiling_dec in E. contradiction.
  - intros Hdir Hover. apply String.eqb_neq in Hdir. rewrite Hdir.
    apply over_ceiling_dec in Hover. rewrite Hover.
    destruct (stored _ _); eexists; cbn [fst];
      (split; [reflexivity |]); cbn [tool.Title tool.Output tool.Metadata];
      (split; [reflexivity |]).
    + split; [reflexivity |].
      rewrite lookup_insert_ne by discriminate. apply lookup_insert_eq.
    + split; [now rewrite string_app_nil_r |]. apply lookup_insert_eq.
  - apply preview_cases.
  - apply preview_cases.
  - intros H. unfold line_cut. cbv zeta. apply Nat.ltb_lt in H. now rewrite H.
  - intros H. unfold line_cut. cbv zeta. apply Nat.ltb_ge in H. now rewrite H.
  - apply preview_length.
Qed.

(** *** C9: when the side file cannot be written *)


End RegistryFacts.

(** ** Concrete runs *)

(** [n] copies of [s]. *)
Fixpoint repeat_str (n : nat) (s : string) : string :=
  match n with
  | O => ""
  | S n' => s +:+ repeat_str n' s
  end.

(** 600 one-byte lines, and 600 lines of 200 bytes. *)
Definition short_lines_600 : string :=
  repeat_str 599 ("x" +:+ gostrings.nl) +:+ "x".

Definition long_lines_600 : string :=
  repeat_str 599 (repeat_str 200 "y" +:+ gostrings.nl) +:+ repeat_str 200 "y".

(** A tool named [grep] whose output is [out] whatever the arguments. *)
Definition fixed_output_tool (out : string) : tool.Tool :=
  tool.mkTool "grep" (fun _ => inr (Some (tool.mkResult "pattern" out ∅))).

Definition os_ok1 (_ : string) : bool := true.
Definition os_ok2 (_ _ : string) : bool := true.

(** A registry as [NewRegistry] leaves it (no output directory), and one
    configured as the agent configures it. *)
Definition bare_registry (out : string) : tool.Registry :=
  tool.Register (fixed_output_tool out) tool.NewRegistry.

Definition configured_registry (out : string) : tool.Registry :=
  tool.SetThreadID "1700000000" (tool.SetOutputDir "/data/outputs" (bare_registry out)).

(** Equality of two long closed byte strings, decided by evaluation. *)
Ltac string_eq_by_eval := apply String.eqb_eq; vm_compute; reflexivity.

(** Comparison of two closed counts, decided by evaluation. *)
Ltac lt_by_eval := apply Nat.ltb_lt; vm_compute; reflexivity.

(** C6, counterexample.  (1) A registry without output directory returns a
    600-line output as it is: all 600 lines, no annotation.  (2) With the
    directory set, 600 lines of 200 bytes come back cut at 50 KB: the note
    of the line cut, and with it the total line count, is cut away. *)
Lemma C6_output_returned_uncut :
  length (gostrings.SplitLines short_lines_600) = 600 /\
  fst (tool.Registry_Execute os_ok1 os_ok2 "a1b2c3d4" (bare_registry short_lines_600)
                             "grep" "{}")
    = inr (Some (tool.mkResult "pattern" short_lines_600 ∅))
  /\
  length (gostrings.SplitLines long_lines_600) = 600 /\
  exists result,
    fst (tool.Registry_Execute os_ok1 os_ok2 "a1b2c3d4" (configured_registry long_lines_600)
                               "grep" "{}") = inr (Some result) /\
    tool.Output result =
      gostrings.slice_to tool.MaxOutputBytes long_lines_600
      +:+ byte_note +:+ file_note "/data/outputs/1700000000/grep-a1b2c3d4.txt" /\
    gostrings.Contains (tool.Output result) "Total:" = false.
Proof.
  split; [vm_compute; reflexivity |].
  split.
  { rewrite (Registry_Execute_result os_ok1 os_ok2 "a1b2c3d4" (bare_registry short_lines_600)
               "grep" "{}" (fixed_output_tool short_lines_600)
               (tool.mkResult "pattern" short_lines_600 ∅) eq_refl eq_refl).
    reflexivity. }
  split; [vm_compute; reflexivity |].
  assert (Hover : over_ceiling long_lines_600) by (left; lt_by_eval).
  destruct (C6_registry_truncation os_ok1 os_ok2 "a1b2c3d4"
              (configured_registry long_lines_600) "grep" "{}"
              (fixed_output_tool long_lines_600)
              (tool.mkResult "pattern" long_lines_600 ∅) eq_refl eq_refl)
    as (_ & _ & H & _ & Hcut & _).
  destruct (H ltac:(discriminate) Hover) as (result' & Hres & _ & Hout & _).
  cbn [tool.Output] in *.
  exists result'. split; [exact Hres |].
  assert (Hprev : preview long_lines_600 =
                  gostrings.slice_to tool.MaxOutputBytes long_lines_600 +:+ byte_note).
  { rewrite Hcut by lt_by_eval.
    apply (f_equal (fun x => x +:+ byte_note)). string_eq_by_eval. }
  assert (Hfile : (if stored os_ok1 os_ok2 "a1b2c3d4" long_lines_600
                        (tool.GetTruncationConfig (configured_registry long_lines_600) "grep")
                   then file_note (side_file "a1b2c3d4"
                          (tool.GetTruncationConfig (configured_registry long_lines_600) "grep"))
                   else "") = file_note "/data/outputs/1700000000/grep-a1b2c3d4.txt")
    by reflexivity.
  rewrite Hout, Hprev, Hfile, string_app_assoc.
  split; [reflexivity |]. vm_compute. reflexivity.
Qed.

(** C6 at work: 600 short lines through a configured registry. *)
Lemma C6_registry_truncation_witness :
  tool.outputDir (configured_registry short_lines_600) <> "" /\
  over_ceiling short_lines_600 /\
  exists result',
    fst (tool.Registry_Execute os_ok1 os_ok2 "a1b2c3d4" (configured_registry short_lines_600)
                               "grep" "{}") = inr (Some result') /\
    tool.Output result' =
      gostrings.Join (take 500 (gostrings.SplitLines short_lines_600)) gostrings.nl
      +:+ line_note 600 +:+ file_note "/data/outputs/1700000000/grep-a1b2c3d4.txt".
Proof.
  assert (Hdir : tool.outputDir (configured_registry short_lines_600) <> "") by discriminate.
  assert (Hover : over_ceiling short_lines_600) by (right; lt_by_eval).
  split; [exact Hdir | split; [exact Hover |]].
  destruct (C6_registry_truncation os_ok1 os_ok2 "a1b2c3d4"
              (configured_registry short_lines_600) "grep" "{}"
              (fixed_output_tool short_lines_600)
              (tool.mkResult "pattern" short_lines_600 ∅) eq_refl eq_refl)
    as (_ & _ & H & Hfit & _ & Hcut & _).
  destruct (H Hdir Hover) as (result' & Hres & _ & Hout & _).
  exists result'. split; [exact Hres |].
  rewrite Hout. cbn [tool.Output] in *.
  rewrite Hfit by (apply Nat.leb_le; vm_compute; reflexivity).
  rewrite Hcut by lt_by_eval.
  now rewrite string_app_assoc.
Defined.


(** ** The search engine *)

(** *** Sorting newest first *)

Section SortFacts.

Context {A : Type}.
Variable time : A -> Z.

(** Newest first: no element is older than one that follows it. *)
Definition newest_first (l : list A) : Prop :=
  StronglySorted (fun a b => (time b <= time a)%Z) l.

Definition oldest_first (l : list A) : Prop :=
  StronglySorted (fun a b => (time a <= time b)%Z) l.

Local Abbreviation less := (fun a b : A => search.After (time a) (time b)).

Lemma insertLeft_perm (x : A) (rl : list A) :
  Permutation (search.insertLeft less x rl) (x :: rl).
Proof.
  induction rl as [|y rl IH]; simpl; [reflexivity |].
  destruct (search.After (time x) (time y)); [| reflexivity].
  rewrite IH. apply perm_swap.
Qed.

Lemma insertLeft_sorted (x : A) (rl : list A) :
  oldest_first rl -> oldest_first (search.insertLeft less x rl).
Proof.
  unfold oldest_first. induction rl as [|y rl IH]; intros Hs; simpl.
  - repeat constructor.
  - apply StronglySorted_inv in Hs as [Hs Hy].
    unfold search.After. destruct (Z.ltb_spec (time y) (time x)) as [Hlt | Hge].
    + constructor; [now apply IH |].
      rewrite (insertLeft_perm x rl). constructor; [lia | exact Hy].
    + constructor; [now constructor |].
      constructor; [exact Hge |].
      eapply Forall_impl; [exact Hy |]. simpl. intros; lia.
Qed.

Lemma insertion_fold (l acc : list A) :
  oldest_first acc ->
  oldest_first (fold_left (fun rl x => search.insertLeft less x rl) l acc) /\
  Permutation (fold_left (fun rl x => search.insertLeft less x rl) l acc) (l ++ acc).
Proof.
  revert acc; induction l as [|x l IH]; intros acc Hacc; simpl.
  - split; [exact Hacc | reflexivity].
  - destruct (IH _ (insertLeft_sorted x acc Hacc)) as [Hs Hp].
    split; [exact Hs |].
    rewrite Hp, (insertLeft_perm x acc). symmetry. apply Permutation_middle.
Qed.

Lemma oldest_first_rev (l : list A) : oldest_first l -> newest_first (rev l).
Proof.
  unfold oldest_first, newest_first. induction 1 as [|a l Hs IH Ha]; simpl; [constructor |].
  apply StronglySorted_app. split; [| split; [exact IH | repeat constructor]].
  intros x1 x2 H1 H2. apply list_elem_of_singleton in H2 as ->.
  rewrite List.Forall_forall in Ha. apply Ha.
  apply in_rev. now apply list_elem_of_In.
Qed.

(** The sort of the Go path returns its input, rearranged newest first. *)
Lemma sort_Slice_sorted (l : list A) :
  newest_first (search.sort_Slice less l) /\ Permutation (search.sort_Slice less l) l.
Proof.
  unfold search.sort_Slice.
  destruct (insertion_fold l [] ltac:(constructor)) as [Hs Hp].
  split; [now apply oldest_first_rev |].
  rewrite <- Permutation_rev, Hp. now rewrite app_nil_r.
Qed.


End SortFacts.

(** *** The walk and its cap *)

(** Induction over a tree, with the entries of a directory as induction
    hypotheses. *)
Definition Node_induction (P : search.Node -> Prop)
    (HFile : forall name modTime data, P (search.File name modTime data))
    (HDir : forall name entries, Forall P entries -> P (search.Dir name entries))
  : forall d, P d :=
  fix induct (d : search.Node) : P d :=
    match d with
    | search.File name modTime data => HFile name modTime data
    | search.Dir name entries =>
        HDir name entries
          ((fix all (entries : list search.Node) : Forall P entries :=
              match entries with
              | [] => List.Forall_nil P
              | d1 :: rest => @List.Forall_cons _ P d1 rest (induct d1) (all rest)
              end) entries)
    end.

(** What a walk gathers, file by file: start from [s]; add the results of
    each file in turn; stop after the first file that brings the count to
    the cap. *)
Fixpoint gather {A} (cap : nat) (s : list A) (groups : list (list A)) : list A :=
  match groups with
  | [] => s
  | g :: rest => if cap <=? length (s ++ g) then s ++ g else gather cap (s ++ g) rest
  end.

Lemma gather_app {A} (cap : nat) (g1 g2 : list (list A)) (s : list A) :
  length s < cap ->
  gather cap s (g1 ++ g2) =
    if cap <=? length (gather cap s g1) then gather cap s g1
    else gather cap (gather cap s g1) g2.
Proof.
  revert s; induction g1 as [|g g1 IH]; intros s Hs; simpl.
  - destruct (Nat.leb_spec cap (length s)); [lia | reflexivity].
  - destruct (Nat.leb_spec cap (length (s ++ g))) as [Hfull | Hroom].
    + destruct (Nat.leb_spec cap (length (s ++ g))); [reflexivity | lia].
    + now apply IH.
Qed.

(** While nothing stops the walk early it gathers everything. *)
Lemma gather_all {A} (cap : nat) (groups : list (list A)) (s : list A) :
  length s + length (concat groups) <= cap ->
  gather cap s groups = s ++ concat groups.
Proof.
  revert s; induction groups as [|g groups IH]; intros s H; simpl in *.
  - now rewrite app_nil_r.
  - rewrite length_app in H.
    destruct (Nat.leb_spec cap (length (s ++ g))) as [Hfull | Hroom].
    + rewrite length_app in Hfull.
      assert (Hnil : concat groups = []) by (apply length_zero_iff_nil; lia).
      now rewrite Hnil, app_nil_r.
    + rewrite IH by (rewrite length_app; lia). now rewrite <- app_assoc.
Qed.

(** When every file adds at most one result, the walk gathers the first
    results up to the cap. *)
Lemma gather_singles {A} (cap : nat) (groups : list (list A)) (s : list A) :
  Forall (fun g => length g <= 1) groups ->
  length s < cap ->
  gather cap s groups = s ++ take (cap - length s) (concat groups).
Proof.
  intros Hone. revert s; induction Hone as [|g groups Hg _ IH]; intros s Hs; simpl.
  - now rewrite take_nil, app_nil_r.
  - destruct (Nat.leb_spec cap (length (s ++ g))) as [Hfull | Hroom];
      rewrite length_app in *.
    + assert (Hlen : cap - length s = length g) by lia.
      rewrite take_app_length' by exact Hlen. reflexivity.
    + rewrite IH by (rewrite length_app; lia).
      rewrite length_app, <- app_assoc. f_equal.
      rewrite take_app_ge by lia. do 2 f_equal. lia.
Qed.

Lemma gather_length {A} (cap : nat) (groups : list (list A)) (s : list A) :
  Forall (fun g => length g <= 1) groups ->
  length s < cap ->
  length (gather cap s groups) <= cap.
Proof.
  intros Hone Hs. rewrite (gather_singles cap groups s Hone Hs).
  rewrite length_app, length_take. lia.
Qed.

(** The entries loop of [walkDir], by itself. *)
Definition walkEntries {S} (fn : string -> search.Node -> S -> S * option search.WalkControl)
    (path : string) : list search.Node -> S -> S * option search.WalkControl :=
  fix walkEntries (entries : list search.Node) (s : S) {struct entries} :=
    match entries with
    | [] => (s, None)
    | d1 :: rest =>
        match search.walkDir fn (filepath.Join path (search.Name d1)) d1 s with
        | (s, Some search.SkipDir) => (s, None)
        | (s, Some search.SkipAll) => (s, Some search.SkipAll)
        | (s, None) => walkEntries rest s
        end
    end.

Section WalkFacts.

Context {A : Type}.

(** A walk function of the shape both searches have: a directory is skipped
    or entered, never changing what was gathered; a file adds its results
    and stops the whole walk once the cap is reached. *)
Variable fn : string -> search.Node -> list A -> list A * option search.WalkControl.
Variable skip : string -> string -> bool.
Variable results : string -> string -> Z -> string -> list A.
Variable cap : nat.

Hypothesis fn_dir : forall path name entries s,
  fn path (search.Dir name entries) s =
    (s, if skip path name then Some search.SkipDir else None).

Hypothesis fn_file : forall path name modTime data s,
  length s < cap ->
  fn path (search.File name modTime data) s =
    (s ++ results path name modTime data,
     if cap <=? length (s ++ results path name modTime data) then Some search.SkipAll
     else None).

(** The results of the files a walk without cap reaches, in walk order. *)
Fixpoint groups_of (path : string) (d : search.Node) : list (list A) :=
  match d with
  | search.File name modTime data => [results path name modTime data]
  | search.Dir name entries =>
      if skip path name then []
      else flat_map (fun d1 => groups_of (filepath.Join path (search.Name d1)) d1) entries
  end.

Lemma walkDir_gather (d : search.Node) :
  forall path s,
    length s < cap ->
    search.walkDir fn path d s =
      (gather cap s (groups_of path d),
       if cap <=? length (gather cap s (groups_of path d)) then Some search.SkipAll else None).
Proof using fn_dir fn_file.
  induction d as [name modTime data | name entries IH] using Node_induction; intros path s Hs.
  - cbn [search.walkDir groups_of gather]. rewrite (fn_file _ _ _ _ _ Hs).
    destruct (Nat.leb_spec cap (length (s ++ results path name modTime data))) as [H | H];
      cbn [search.IsDir];
      destruct (Nat.leb_spec cap (length (s ++ results path name modTime data)));
      try reflexivity; lia.
  - change (search.walkDir fn path (search.Dir name entries) s)
      with (match fn path (search.Dir name entries) s with
            | (s, Some search.SkipDir) => (s, None)
            | (s, Some search.SkipAll) => (s, Some search.SkipAll)
            | (s, None) => walkEntries fn path entries s
            end).
    rewrite fn_dir. cbn [groups_of]. destruct (skip path name).
    + cbn [gather]. destruct (Nat.leb_spec cap (length s)); [lia | reflexivity].
    + clear fn_dir. revert s Hs.
      induction IH as [|d1 rest Hd1 _ IHrest]; intros s Hs.
      * cbn. destruct (Nat.leb_spec cap (length s)); [lia | reflexivity].
      * cbn [walkEntries flat_map]. rewrite (Hd1 _ _ Hs).
        rewrite (gather_app cap _ _ s Hs).
        destruct (Nat.leb_spec cap
                    (length (gather cap s
                               (groups_of (filepath.Join path (search.Name d1)) d1))))
          as [Hfull | Hroom].
        -- destruct (Nat.leb_spec cap
                       (length (gather cap s
                                  (groups_of (filepath.Join path (search.Name d1)) d1))));
             [reflexivity | lia].
        -- now apply IHrest.
Qed.

End WalkFacts.

(** *** C1: what the cap keeps *)

Lemma if_pair {A B} (c : bool) (a : A) (x y : B) :
  (if c then (a, x) else (a, y)) = (a, if c then x else y).
Proof. now destruct c. Qed.

Section SearchFacts.

Variable regexp_Compile : string -> string + (string -> bool).
Variable doublestar_Match : string -> string -> string + bool.
Variable ignorer : option (string -> bool -> bool).

Local Abbreviation goGrep := (search.goGrep regexp_Compile doublestar_Match ignorer).
Local Abbreviation goGlob := (search.goGlob doublestar_Match ignorer).
Local Abbreviation grepVisit := (search.grepVisit doublestar_Match ignorer).
Local Abbreviation globVisit := (search.globVisit doublestar_Match ignorer).
Local Abbreviation skipDirectory := (search.skipDirectory ignorer).

(** The file at [path] as file-name search reports it: a file that is not
    hidden, not ignored, and whose name or path relative to the root the
    pattern matches. *)
Definition globResults (root pattern path name : string) (modTime : Z) (data : string)
  : list search.FileInfo :=
  if gostrings.HasPrefix name "." then []
  else if search.ignored ignorer (search.Rel root path) false then []
  else
    match doublestar_Match pattern name with
    | inl _ => []
    | inr true => [search.mkFileInfo path modTime]
    | inr false =>
        match doublestar_Match pattern (search.Rel root path) with
        | inr true => [search.mkFileInfo path modTime]
        | _ => []
        end
    end.

(** The matches of the file at [path] as content search reports them: none
    for a file that is hidden, ignored, filtered out, binary or unreadable
    by lines; else its matching lines. *)
Definition grepResults (root : string) (re : string -> bool) (opts : search.GrepOptions)
    (path name : string) (modTime : Z) (data : string) : list search.Match :=
  if gostrings.HasPrefix name "." then []
  else if search.ignored ignorer (search.Rel root path) false then []
  else if negb (search.included doublestar_Match (search.Include opts) name
                                (search.Rel root path)) then []
  else if search.isBinaryFile path data then []
  else
    match search.grepFile path modTime data re (search.MaxLineLength opts) with
    | inl _ => []
    | inr fileMatches => fileMatches
    end.

(** Every matching file under the root, in walk order; and the matches of
    every file, file by file in walk order. *)
Definition globFound (tree : search.Node) (root pattern : string) : list search.FileInfo :=
  concat (groups_of (skipDirectory root) (globResults root pattern) root tree).

Definition grepGroups (tree : search.Node) (root : string) (re : string -> bool)
    (opts : search.GrepOptions) : list (list search.Match) :=
  groups_of (skipDirectory root) (grepResults root re opts) root tree.

(** The caps in force: 100 when the option is 0. *)
Definition globCap (opts : search.GlobOptions) : nat :=
  if search.MaxFiles opts =? 0 then 100 else search.MaxFiles opts.

Definition grepOptions (opts : search.GrepOptions) : search.GrepOptions :=
  search.mkGrepOptions (search.Include opts)
    (if search.MaxMatches opts =? 0 then 100 else search.MaxMatches opts)
    (if search.MaxLineLength opts =? 0 then 2000 else search.MaxLineLength opts).

Lemma globCap_pos (opts : search.GlobOptions) : 0 < globCap opts.
Proof. unfold globCap. destruct (Nat.eqb_spec (search.MaxFiles opts) 0); lia. Qed.

Lemma grepCap_pos (opts : search.GrepOptions) : 0 < search.MaxMatches (grepOptions opts).
Proof. simpl. destruct (Nat.eqb_spec (search.MaxMatches opts) 0); lia. Qed.

Lemma globVisit_file (root pattern : string) (cap : nat) (path name : string) (modTime : Z)
    (data : string) (s : list search.FileInfo) :
  length s < cap ->
  globVisit root pattern (search.mkGlobOptions cap) path (search.File name modTime data) s =
    (s ++ globResults root pattern path name modTime data,
     if cap <=? length (s ++ globResults root pattern path name modTime data)
     then Some search.SkipAll else None).
Proof.
  intros Hs. unfold search.globVisit, globResults. cbv zeta. cbn [search.MaxFiles].
  assert (Hnone : (s, @None search.WalkControl) =
                  (s ++ [], if cap <=? length (s ++ []) then Some search.SkipAll else None)).
  { rewrite app_nil_r. destruct (Nat.leb_spec cap (length s)); [lia | reflexivity]. }
  destruct (gostrings.HasPrefix name "."); [exact Hnone |].
  destruct (search.ignored ignorer (search.Rel root path) false); [exact Hnone |].
  destruct (doublestar_Match pattern name) as [err | [|]]; [exact Hnone | apply if_pair |].
  destruct (doublestar_Match pattern (search.Rel root path)) as [err | [|]];
    [| apply if_pair |]; rewrite app_nil_r; destruct (Nat.leb_spec cap (length s));
    try reflexivity; lia.
Qed.

Lemma grepVisit_file (root : string) (re : string -> bool) (opts : search.GrepOptions)
    (path name : string) (modTime : Z) (data : string) (s : list search.Match) :
  length s < search.MaxMatches opts ->
  grepVisit root re opts path (search.File name modTime data) s =
    (s ++ grepResults root re opts path name modTime data,
     if search.MaxMatches opts <=? length (s ++ grepResults root re opts path name modTime data)
     then Some search.SkipAll else None).
Proof.
  intros Hs. unfold search.grepVisit, grepResults. cbv zeta.
  assert (Hnone : (s, @None search.WalkControl) =
                  (s ++ [], if search.MaxMatches opts <=? length (s ++ [])
                            then Some search.SkipAll else None)).
  { rewrite app_nil_r. destruct (Nat.leb_spec (search.MaxMatches opts) (length s));
      [lia | reflexivity]. }
  destruct (gostrings.HasPrefix name "."); [exact Hnone |].
  destruct (search.ignored ignorer (search.Rel root path) false); [exact Hnone |].
  destruct (negb _); [exact Hnone |].
  destruct (search.isBinaryFile path data); [exact Hnone |].
  destruct (search.grepFile _ _ _ _ _) as [err | fileMatches]; [exact Hnone | apply if_pair].
Qed.

Lemma globResults_single (root pattern path name : string) (modTime : Z) (data : string) :
  length (globResults root pattern path name modTime data) <= 1.
Proof.
  unfold globResults.
  repeat match goal with
         | |- context [if ?c then _ else _] => destruct c
         | |- context [match ?c with inl _ => _ | inr _ => _ end] => destruct c
         end; simpl; lia.
Qed.

Lemma glob_groups_single (root pattern : string) (d : search.Node) :
  forall path,
    Forall (fun g => length g <= 1)
           (groups_of (skipDirectory root) (globResults root pattern) path d).
Proof.
  induction d as [name modTime data | name entries IH] using Node_induction; intros path.
  - cbn. constructor; [apply globResults_single | constructor].
  - cbn [groups_of]. destruct (skipDirectory root path name); [constructor |].
    induction IH as [|d1 rest Hd1 _ IHrest]; cbn [flat_map]; [constructor |].
    apply Forall_app. split; [apply Hd1 | exact IHrest].
Qed.

(** The walk of goGlob gathers the first matching files, up to the cap. *)
Lemma goGlob_walk (tree : search.Node) (root pattern : string) (cap : nat) :
  0 < cap ->
  search.WalkDir (globVisit root pattern (search.mkGlobOptions cap)) root tree [] =
    take cap (globFound tree root pattern).
Proof.
  intros Hcap. unfold search.WalkDir.
  rewrite (walkDir_gather _ (skipDirectory root) (globResults root pattern) cap).
  - cbn [fst]. rewrite gather_singles by (apply glob_groups_single || exact Hcap).
    cbn [length app]. now rewrite Nat.sub_0_r.
  - intros. cbn. apply if_pair.
  - intros. now apply globVisit_file.
  - exact Hcap.
Qed.

(** The walk of goGrep gathers file by file until the cap is reached. *)
Lemma goGrep_walk (tree : search.Node) (root : string) (re : string -> bool)
    (opts : search.GrepOptions) :
  0 < search.MaxMatches opts ->
  search.WalkDir (grepVisit root re opts) root tree [] =
    gather (search.MaxMatches opts) [] (grepGroups tree root re opts).
Proof.
  intros Hcap. unfold search.WalkDir, grepGroups.
  rewrite (walkDir_gather _ (skipDirectory root) (grepResults root re opts)
                          (search.MaxMatches opts)).
  - reflexivity.
  - intros. cbn. apply if_pair.
  - intros. now apply grepVisit_file.
  - exact Hcap.
Qed.

Lemma cut_to_cap {A} (cap : nat) (l : list A) :
  (if cap <? length l then take cap l else l) = take cap l.
Proof.
  destruct (Nat.ltb_spec cap (length l)); [reflexivity |].
  symmetry. now apply take_ge.
Qed.


End SearchFacts.

(** ** C10: empty files and the binary check *)

Lemma isBinaryFile_empty (path : string) : search.isBinaryFile path "" = true.
Proof.
  unfold search.isBinaryFile. cbv zeta.
  destruct (existsb _ _); reflexivity.
Qed.

(** C10.  For a path that [os.Stat] reports as a regular file and whose
    content is empty, the read tool returns the error "cannot read binary
    file: <path>" and no file view: [IsBinaryContent] answers true when the
    first read yields zero bytes.  Content search applies the same test in
    [isBinaryFile], which answers true for every empty file, so its walk
    passes over an empty file without adding a match or reporting
    anything. *)
Theorem C10_empty_file_is_binary
    (workingDir : string) (json_Unmarshal : string -> string + tool.readArgs)
    (Stat : string -> tool.StatResult) (ReadFile : string -> string + string)
    (SuggestSimilarFiles : string -> nat -> list string) (Rel : string -> string -> string)
    (args : string) (a : tool.readArgs) :
  let filePath :=
    if negb (filepath.IsAbs (tool.FilePath a)) then filepath.Join workingDir (tool.FilePath a)
    else tool.FilePath a in
  json_Unmarshal args = inr a ->
  tool.FilePath a <> "" ->
  Stat filePath = tool.StatInfo false ->
  ReadFile filePath = inr "" ->
  tool.IsBinaryContent ReadFile filePath = (true, Some "EOF")
  /\
  tool.ReadTool_Execute workingDir json_Unmarshal Stat ReadFile SuggestSimilarFiles Rel args
    = inl ("cannot read binary file: " +:+ filePath)
  /\
  (forall path, search.isBinaryFile path "" = true)
  /\
  (forall doublestar_Match ignorer root re opts path name modTime matches,
      search.grepVisit doublestar_Match ignorer root re opts path
                       (search.File name modTime "") matches = (matches, None)).
Proof.
  intros filePath Hargs Hpath Hstat Hread.
  assert (Hbin : tool.IsBinaryContent ReadFile filePath = (true, Some "EOF")).
  { unfold tool.IsBinaryContent. rewrite Hread. reflexivity. }
  split; [exact Hbin | split; [| split]].
  - unfold tool.ReadTool_Execute. rewrite Hargs.
    apply String.eqb_neq in Hpath. rewrite Hpath. cbv zeta. fold filePath.
    rewrite Hstat, Hbin. cbn [fst].
    destruct (tool.isBinaryExtension filePath); reflexivity.
  - apply isBinaryFile_empty.
  - intros. unfold search.grepVisit. cbv zeta. rewrite isBinaryFile_empty.
    destruct (gostrings.HasPrefix name "."); [reflexivity |].
    destruct (search.ignored _ _ _); [reflexivity |].
    destruct (negb (search.included _ _ _ _)); reflexivity.
Qed.

(** *** A small disk for the read tool *)

Definition disk (path : string) : option string :=
  if String.eqb path "/repo/main.go" then
    Some ("package main" +:+ gostrings.nl +:+ gostrings.nl +:+ "func main() {}" +:+ gostrings.nl)
  else if String.eqb path "/repo/empty.txt" then Some ""
  else None.

Definition disk_Stat (path : string) : tool.StatResult :=
  match disk path with
  | Some _ => tool.StatInfo false
  | None => tool.StatNotExist
  end.

Definition disk_ReadFile (path : string) : string + string :=
  match disk path with
  | Some data => inr data
  | None => inl "no such file or directory"
  end.

(** Arguments that are just the file path, for the examples. *)
Definition path_only (args : string) : string + tool.readArgs :=
  inr (tool.mkReadArgs args 0 0).

Definition no_suggestions (path : string) (n : nat) : list string := [].

(** C10 at work: reading the empty file of the disk. *)
Lemma C10_empty_file_is_binary_witness :
  disk_Stat "/repo/empty.txt" = tool.StatInfo false /\
  disk_ReadFile "/repo/empty.txt" = inr "" /\
  tool.ReadTool_Execute "/repo" path_only disk_Stat disk_ReadFile no_suggestions
                        (fun _ p => p) "empty.txt"
    = inl "cannot read binary file: /repo/empty.txt".
Proof.
  split; [reflexivity | split; [reflexivity |]].
  apply (C10_empty_file_is_binary "/repo" path_only disk_Stat disk_ReadFile no_suggestions
           (fun _ p => p) "empty.txt" (tool.mkReadArgs "empty.txt" 0 0));
    [reflexivity | discriminate | reflexivity | reflexivity].
Defined.

(** ** The searches on small trees *)

(** [regexp.Compile] for a pattern without metacharacters: the compiled
    expression matches the lines that contain the pattern. *)
Definition literal_regexp (pattern : string) : string + (string -> bool) :=
  inr (fun line => gostrings.Contains line pattern).

(** [strings.HasSuffix]. *)
Fixpoint HasSuffix (s suffix : string) : bool :=
  String.eqb s suffix ||
  match s with
  | EmptyString => false
  | String _ s' => HasSuffix s' suffix
  end.

(** [doublestar.Match] for the patterns [*suffix] and for patterns without
    metacharacters: the star matches any run of bytes without a slash. *)
Definition star_glob (pattern name : string) : string + bool :=
  match pattern with
  | String "*" suffix => inr (HasSuffix name suffix && negb (gostrings.Contains name "/"))
  | _ => inr (String.eqb pattern name)
  end.

(** Three files that all hold "foo": a.go oldest, b.go in between, c.go
    newest. *)
Definition three_files : search.Node :=
  search.Dir "repo"
    [search.File "a.go" 100 ("foo" +:+ gostrings.nl);
     search.File "b.go" 200 ("foo" +:+ gostrings.nl);
     search.File "c.go" 300 ("foo" +:+ gostrings.nl)].



(** *** C2: the two paths on a tree with a hidden file *)

(** A visible and a hidden file that both hold "foo". *)
Definition tree_with_hidden_file : search.Node :=
  search.Dir "repo"
    [search.File ".hidden.go" 300 ("foo" +:+ gostrings.nl);
     search.File "main.go" 100 ("foo" +:+ gostrings.nl)].

(** What ripgrep prints for the pattern "foo" on that tree: with [--hidden]
    it searches the hidden file too, without it only main.go. *)
Definition rg_on_hidden_tree (args : list string) (dir : string) : string + string :=
  if existsb (String.eqb "--hidden") args then
    inr ("/repo/.hidden.go|1|foo" +:+ gostrings.nl +:+ "/repo/main.go|1|foo" +:+ gostrings.nl)
  else inr ("/repo/main.go|1|foo" +:+ gostrings.nl).

Definition stat_on_hidden_tree (path : string) : option Z :=
  if String.eqb path "/repo/.hidden.go" then Some 300%Z
  else if String.eqb path "/repo/main.go" then Some 100%Z
  else None.

(** An old file with one match and a newer one with three. *)
Definition tree_with_busy_file : search.Node :=
  search.Dir "repo"
    [search.File "a.go" 100 ("foo" +:+ gostrings.nl);
     search.File "b.go" 200 ("foo 1" +:+ gostrings.nl +:+ "foo 2" +:+ gostrings.nl
                             +:+ "foo 3" +:+ gostrings.nl)].

(** Ripgrep printing the matches of that tree in the order of the walk. *)
Definition rg_on_busy_tree (args : list string) (dir : string) : string + string :=
  inr ("/repo/a.go|1|foo" +:+ gostrings.nl +:+ "/repo/b.go|1|foo 1" +:+ gostrings.nl
       +:+ "/repo/b.go|2|foo 2" +:+ gostrings.nl +:+ "/repo/b.go|3|foo 3" +:+ gostrings.nl).

Definition stat_on_busy_tree (path : string) : option Z :=
  if String.eqb path "/repo/a.go" then Some 100%Z
  else if String.eqb path "/repo/b.go" then Some 200%Z
  else None.

(** C2, the code at two failing inputs.  (1) RipgrepGrep passes [--hidden]
    to ripgrep, so on a tree with a hidden file that holds the pattern the
    delegated path reports the hidden file and the Go path does not: [Grep]
    answers differently with and without ripgrep.  (2) The delegated path
    stops at the cap line by line and sorts what it has; the Go path stops
    file by file, sorts and then cuts: with a cap of 2, on the same stream of
    matches, the two return different matches. *)
Theorem C2_delegated_path_differs :
  let opts := search.mkGrepOptions "" 2 2000 in
  In "--hidden" (search.grepArgs "/repo" "foo" opts) /\
  search.Grep rg_on_hidden_tree stat_on_hidden_tree literal_regexp star_glob None false
              tree_with_hidden_file "/repo" "foo" opts
    = inr [search.mkMatch "/repo/main.go" 1 "foo" 100] /\
  search.Grep rg_on_hidden_tree stat_on_hidden_tree literal_regexp star_glob None true
              tree_with_hidden_file "/repo" "foo" opts
    = inr [search.mkMatch "/repo/.hidden.go" 1 "foo" 300;
           search.mkMatch "/repo/main.go" 1 "foo" 100] /\
  search.Grep rg_on_busy_tree stat_on_busy_tree literal_regexp star_glob None false
              tree_with_busy_file "/repo" "foo" opts
    = inr [search.mkMatch "/repo/b.go" 1 "foo 1" 200; search.mkMatch "/repo/b.go" 2 "foo 2" 200] /\
  search.Grep rg_on_busy_tree stat_on_busy_tree literal_regexp star_glob None true
              tree_with_busy_file "/repo" "foo" opts
    = inr [search.mkMatch "/repo/b.go" 1 "foo 1" 200; search.mkMatch "/repo/a.go" 1 "foo" 100].
Proof.
  cbv zeta. split; [simpl; tauto |].
  repeat split; vm_compute; reflexivity.
Qed.

(** ** The loop on scripted collaborators *)

(** A provider that asks for the same search in every round, and says so. *)
Definition chat_always_search (n : nat) (req : ChatRequest) : string + ChatResponse :=
  inr (mkChatResponse "Let me search." [mkToolCall "call_1" "grep" "{}"] "tool_use"
                      (mkUsage 10 5 15)).

(** A provider that asks for the same search in every round without a
    word. *)
Definition chat_silent_search (n : nat) (req : ChatRequest) : string + ChatResponse :=
  inr (mkChatResponse "" [mkToolCall "call_1" "grep" "{}"] "tool_use" (mkUsage 10 5 15)).

Definition tools_no_match (n : nat) (name args : string) : string + string :=
  inr "No files found".

(** C3 at work: three rounds of searches without a match.  The loop stops
    at the third with the forced-completion answer. *)
Lemma C3_stuck_loop_forces_completion_witness :
  let ask := AskWithCallback "ollama" "llama3" "You answer questions about code." ["grep"]
                             chat_silent_search no_stream tools_no_match (fun s => s) false
                             None [] "1700000000" "What is Cobra?" in
  exists answer,
    fst ask = inr answer /\
    r_Content answer = nothing_found /\
    length (sent (snd ask)) = 3.
Proof.
  cbv zeta.
  set (iter := iteration "ollama" "llama3" "You answer questions about code." ["grep"]
                         chat_silent_search no_stream tools_no_match (fun s => s) false).
  set (r0 := start None [] "1700000000" "What is Cobra?").
  set (r1 := run_of (iter r0)).
  set (r2 := run_of (iter r1)).
  set (am := mkMessage "assistant" "" [mkToolCall "call_1" "grep" "{}"] "" []).
  set (tm := mkMessage "tool" "No files found" [] "call_1"
                       [mkToolResult "call_1" "No files found" ""]).
  assert (Hfruitless : forall r, Messages (thread (run_of (iter r))) =
                                 Messages (thread r) ++ am :: [tm] ->
                                 fruitless r (run_of (iter r))).
  { intros r H. exists am, [tm]. split; [exact H | split; [discriminate |]].
    repeat constructor. }
  destruct (C3_stuck_loop_forces_completion "ollama" "llama3"
              "You answer questions about code." ["grep"]
              chat_silent_search no_stream tools_no_match (fun s => s) false
              None [] "1700000000" "What is Cobra?" 0 r0 eq_refl ltac:(lia))
    as (_ & _ & H3).
  destruct (H3 r1 r2) as (_ & Hask & Hsent).
  - lia.
  - vm_compute. reflexivity.
  - apply Hfruitless. vm_compute. reflexivity.
  - vm_compute. reflexivity.
  - apply Hfruitless. vm_compute. reflexivity.
  - apply Hfruitless. vm_compute. reflexivity.
  - fold iter in Hask, Hsent.
    exists (forced (run_of (iter r2))). rewrite Hask. cbn [fst snd].
    split; [reflexivity | split; [vm_compute; reflexivity |]].
    cbn [SaveThread sent]. exact Hsent.
Defined.




(* ================================================================== *)
(** * Further properties of the code *)
(* ================================================================== *)

(** ** Titles *)

Lemma truncateTitle_length (s : string) : String.length (truncateTitle s) <= 50.
Proof.
  unfold truncateTitle. destruct (Nat.ltb_spec 50 (String.length s)) as [H | H]; [| exact H].
  rewrite string_app_length, slice_to_length. change (String.length "...") with 3. lia.
Qed.

(** X1.  [truncateTitle] never returns more than 50 bytes: a title of at
    most 50 bytes is kept as it is, a longer one becomes its first 47 bytes
    followed by three dots, 50 bytes in all. *)
Theorem truncateTitle_bounds (s : string) :
  String.length (truncateTitle s) <= 50 /\
  (String.length s <= 50 -> truncateTitle s = s) /\
  (50 < String.length s ->
   truncateTitle s = gostrings.slice_to 47 s +:+ "..." /\
   String.length (truncateTitle s) = 50).
Proof.
  unfold truncateTitle. destruct (Nat.ltb_spec 50 (String.length s)) as [H | H].
  - rewrite string_app_length, slice_to_length. change (String.length "...") with 3.
    repeat split; lia.
  - repeat split; try lia.
Qed.

(** ** The loop, round by round *)

Lemma string_app_not_empty_l (a b : string) : a <> "" -> a +:+ b <> "".
Proof. destruct a; [congruence | discriminate]. Qed.

Lemma forceCompletion_not_empty (msgs : list Message) (calls : list ToolCall) (usage : Usage) :
  r_Content (forceCompletion msgs calls usage) <> "".
Proof.
  rewrite forceCompletion_content.
  destruct (String.eqb_spec (lastAssistantContent msgs) "") as [_ | Hne]; [| exact Hne].
  destruct (List.filter quotable msgs); [discriminate |].
  apply string_app_not_empty_l. discriminate.
Qed.

Section LoopMore.

Variables (ModelProvider ModelName SystemPrompt : string) (toolNames : list string).
Variable Chat : nat -> ChatRequest -> string + ChatResponse.
Variable StreamChat : nat -> ChatRequest -> string + list StreamEvent.
Variable ToolsExecute : nat -> string -> string -> string + string.
Variable md5hex : string -> string.
Variable callback : bool.

Local Abbreviation toolCallStep := (agent.toolCallStep ToolsExecute md5hex).
Local Abbreviation iteration :=
  (agent.iteration ModelProvider ModelName SystemPrompt toolNames Chat StreamChat
                   ToolsExecute md5hex callback).
Local Abbreviation iterate :=
  (agent.iterate ModelProvider ModelName SystemPrompt toolNames Chat StreamChat
                 ToolsExecute md5hex callback).
Local Abbreviation AskWithCallback :=
  (agent.AskWithCallback ModelProvider ModelName SystemPrompt toolNames Chat StreamChat
                         ToolsExecute md5hex callback).
Local Abbreviation reached :=
  (continued ModelProvider ModelName SystemPrompt toolNames Chat StreamChat
             ToolsExecute md5hex callback).

(** The hash the loop files a tool call under. *)
Definition call_hash (tc : ToolCall) : string :=
  hashToolCall md5hex (tc_Name tc) (tc_Arguments tc).

Local Abbreviation hash := call_hash.

(** The request a round sends from the run [r], and the provider's reply to
    it, streamed or not. *)
Definition request_of (r : Run) : ChatRequest :=
  mkChatRequest ModelName
    (if hintInjected (state r) then SystemPrompt +:+ StuckLoopHint else SystemPrompt)
    (buildMessages (Messages (thread r))) toolNames 8192.

Definition reply_to (r : Run) : string + ChatResponse :=
  if callback && negb (String.eqb ModelProvider "openai-compatible")
  then streamChat StreamChat (length (sent r)) (request_of r)
  else Chat (length (sent r)) (request_of r).

(** The run once the reply [resp] has been received: the request is logged,
    the usage added up, the tool calls recorded and the assistant message
    appended. *)
Definition received (r : Run) (resp : ChatResponse) : Run :=
  mkRun (mkThread (ID (thread r)) (Title (thread r))
           (Messages (thread r)
            ++ [mkMessage "assistant" (resp_Content resp) (resp_ToolCalls resp) "" []]))
        (state r)
        (mkUsage (int_add (InputTokens (totalUsage r)) (InputTokens (resp_Usage resp)))
                 (int_add (OutputTokens (totalUsage r)) (OutputTokens (resp_Usage resp)))
                 (int_add (TotalTokens (totalUsage r)) (TotalTokens (resp_Usage resp))))
        (allToolCalls r ++ resp_ToolCalls resp)
        (sent r ++ [request_of r]) (saved r).

(** The text a round answers with when the model asked for no tool. *)
Definition answer_text (r : Run) (resp : ChatResponse) : string :=
  if String.eqb (resp_Content resp) "" then
    if String.eqb (lastAssistantContent (Messages (thread (received r resp)))) "" then
      "I was unable to generate a response for this query."
    else lastAssistantContent (Messages (thread (received r resp)))
  else resp_Content resp.

(** A pass of the loop, by the reply it gets. *)
Lemma iteration_cases (r : Run) :
  iteration r =
    match reply_to r with
    | inl err =>
        Return (inl ("chat request failed: " +:+ err))
               (mkRun (thread r) (state r) (totalUsage r) (allToolCalls r)
                      (sent r ++ [request_of r]) (saved r))
    | inr resp =>
        if length (resp_ToolCalls resp) =? 0 then
          Return (inr (mkResponse (answer_text r resp) (allToolCalls (received r resp))
                                  (totalUsage (received r resp))))
                 (received r resp)
        else
          let '(r2, u, p) := fold_left toolCallStep (resp_ToolCalls resp)
                                       (received r resp, false, false) in
          after_tools (trackEmpty u p r2)
    end.
Proof.
  unfold agent.iteration, reply_to. cbv zeta. fold (request_of r).
  destruct (if callback && negb (String.eqb ModelProvider "openai-compatible")
            then streamChat StreamChat (length (sent r)) (request_of r)
            else Chat (length (sent r)) (request_of r)) as [err | resp]; [reflexivity |].
  destruct (length (resp_ToolCalls resp) =? 0); [reflexivity |].
  change (appendMessage (mkMessage "assistant" (resp_Content resp) (resp_ToolCalls resp) "" [])
            (mkRun (thread (mkRun (thread r) (state r) (totalUsage r) (allToolCalls r)
                                  (sent r ++ [request_of r]) (saved r)))
                   (state (mkRun (thread r) (state r) (totalUsage r) (allToolCalls r)
                                 (sent r ++ [request_of r]) (saved r)))
                   (mkUsage
                      (int_add (InputTokens (totalUsage (mkRun (thread r) (state r) (totalUsage r)
                                 (allToolCalls r) (sent r ++ [request_of r]) (saved r))))
                               (InputTokens (resp_Usage resp)))
                      (int_add (OutputTokens (totalUsage (mkRun (thread r) (state r) (totalUsage r)
                                 (allToolCalls r) (sent r ++ [request_of r]) (saved r))))
                               (OutputTokens (resp_Usage resp)))
                      (int_add (TotalTokens (totalUsage (mkRun (thread r) (state r) (totalUsage r)
                                 (allToolCalls r) (sent r ++ [request_of r]) (saved r))))
                               (TotalTokens (resp_Usage resp))))
                   (allToolCalls (mkRun (thread r) (state r) (totalUsage r) (allToolCalls r)
                                        (sent r ++ [request_of r]) (saved r))
                    ++ resp_ToolCalls resp)
                   (sent (mkRun (thread r) (state r) (totalUsage r) (allToolCalls r)
                                (sent r ++ [request_of r]) (saved r)))
                   (saved (mkRun (thread r) (state r) (totalUsage r) (allToolCalls r)
                                 (sent r ++ [request_of r]) (saved r)))))
    with (received r resp).
  destruct (fold_left toolCallStep (resp_ToolCalls resp) (received r resp, false, false))
    as [[r2 u] p].
  unfold after_tools. destruct (3 <=? emptyResultCount (state (trackEmpty u p r2))); reflexivity.
Qed.

(** *** What every pass keeps *)

(** How often the pair of the call [h] hashes to was invoked among
    [calls], and the repetition counter the loop holds for [h]. *)
Definition invocations (h : string) (calls : list ToolCall) : nat :=
  length (List.filter (fun tc => String.eqb (hash tc) h) calls).

Definition counter (st : loopState) (h : string) : nat :=
  default 0 (searchHistory st !! h).

Lemma invocations_app (h : string) (l1 l2 : list ToolCall) :
  invocations h (l1 ++ l2) = invocations h l1 + invocations h l2.
Proof. unfold invocations. now rewrite List.filter_app, length_app. Qed.

Lemma invocations_pos (h : string) (calls : list ToolCall) :
  0 < invocations h calls -> exists tc, In tc calls /\ hash tc = h.
Proof.
  unfold invocations. induction calls as [|tc calls IH]; simpl; [lia |].
  destruct (String.eqb_spec (hash tc) h) as [Heq | Hne].
  - intros _. exists tc. auto.
  - intros H. destruct (IH H) as (tc' & Hin & Hh). exists tc'. auto.
Qed.

(** One tool call moves the counter of its own hash by one and raises the
    repetition flag when the counter passes 1. *)
Lemma toolCallStep_counter (tc : ToolCall) (r : Run) (u p : bool) :
  let out := toolCallStep (r, u, p) tc in
  (forall h, counter (state (fst (fst out))) h =
             counter (state r) h + (if String.eqb (hash tc) h then 1 else 0)) /\
  snd out = p || (1 <=? counter (state r) (hash tc)).
Proof.
  cbv zeta. unfold agent.toolCallStep. cbv zeta.
  destruct (executeTool ToolsExecute (totalSearches (state r)) tc) as [err | res];
    cbn [fst snd state setState appendMessage searchHistory]; (split; [intros h | reflexivity]);
    unfold counter, call_hash; cbn [searchHistory];
    (destruct (String.eqb_spec (hashToolCall md5hex (tc_Name tc) (tc_Arguments tc)) h)
       as [<- | Hne];
     [rewrite lookup_insert_eq; simpl; lia | rewrite lookup_insert_ne by exact Hne; lia]).
Qed.

(** The tool calls of a round, on the counters and the flag. *)
Lemma toolSteps_counter (tcs : list ToolCall) (r : Run) (u p : bool) :
  let out := fold_left toolCallStep tcs (r, u, p) in
  (forall h, counter (state (fst (fst out))) h = counter (state r) h + invocations h tcs) /\
  snd out = p || existsb (fun tc => 2 <=? counter (state (fst (fst out))) (hash tc)) tcs.
Proof.
  cbv zeta. revert r u p; induction tcs as [|tc tcs IH]; intros r u p.
  - cbn. split; [intros h; unfold invocations; simpl; lia | now rewrite orb_false_r].
  - cbn [fold_left].
    destruct (toolCallStep_counter tc r u p) as [Hc Hp]. cbv zeta in Hc, Hp.
    destruct (toolCallStep (r, u, p) tc) as [[r1 u1] p1]. cbn [fst snd] in Hc, Hp.
    destruct (IH r1 u1 p1) as [Hc' Hp'].
    set (out := fold_left toolCallStep tcs (r1, u1, p1)) in *.
    assert (Hall : forall h, counter (state (fst (fst out))) h =
                             counter (state r) h + invocations h (tc :: tcs)).
    { intros h. rewrite Hc', Hc. unfold invocations. simpl.
      destruct (String.eqb (hash tc) h); simpl; lia. }
    split; [exact Hall |].
    rewrite Hp', Hp. cbn [existsb]. rewrite <- !orb_assoc. f_equal.
    set (E := existsb _ tcs).
    destruct (Nat.leb_spec 1 (counter (state r) (hash tc))) as [Hseen | Hnew].
    + assert (H2 : (2 <=? counter (state (fst (fst out))) (hash tc)) = true).
      { apply Nat.leb_le. rewrite Hall. unfold invocations. simpl.
        rewrite String.eqb_refl. simpl. lia. }
      now rewrite H2.
    + destruct (Nat.leb_spec 2 (counter (state (fst (fst out))) (hash tc))) as [Hrep | Hone];
        [| reflexivity].
      assert (Hpos : 0 < invocations (hash tc) tcs).
      { rewrite Hall in Hrep. unfold invocations in *. simpl in Hrep.
        rewrite String.eqb_refl in Hrep. simpl in Hrep. lia. }
      destruct (invocations_pos _ _ Hpos) as (tc' & Hin & Hh).
      assert (HE : E = true).
      { unfold E. apply existsb_exists. exists tc'. split; [exact Hin |].
        apply Nat.leb_le. rewrite Hh. exact Hrep. }
      now rewrite HE.
Qed.

(** The loop's invariants: the search counter counts the recorded calls, the
    repetition counter of every hash counts the calls with that hash, and
    two fruitless rounds in a row have set the hint flag. *)
Definition consistent (r : Run) : Prop :=
  totalSearches (state r) = length (allToolCalls r) /\
  (forall h, counter (state r) h = invocations h (allToolCalls r)) /\
  (2 <= emptyResultCount (state r) -> hintInjected (state r) = true).

Lemma start_consistent (a_Thread : option Thread) (saved0 : list Thread)
    (threadID question : string) :
  consistent (start a_Thread saved0 threadID question).
Proof.
  unfold consistent, start. cbn. split; [reflexivity | split; [| lia]].
  intros h. unfold counter. cbn. now rewrite lookup_empty.
Qed.

Lemma trackEmpty_hint (u p : bool) (r : Run) :
  let r1 := trackEmpty u p r in
  (hintInjected (state r) = true -> hintInjected (state r1) = true) /\
  (p = true -> hintInjected (state r1) = true) /\
  (2 <= emptyResultCount (state r1) -> hintInjected (state r1) = true) /\
  searchHistory (state r1) = searchHistory (state r) /\
  totalSearches (state r1) = totalSearches (state r) /\
  allToolCalls r1 = allToolCalls r /\ sent r1 = sent r /\ thread r1 = thread r /\
  totalUsage r1 = totalUsage r.
Proof.
  cbv zeta. unfold trackEmpty. cbv zeta.
  cbn [state setState hintInjected emptyResultCount searchHistory totalSearches allToolCalls
       sent thread totalUsage].
  destruct (hintInjected (state r)); cbn [negb]; rewrite ?andb_false_r, ?andb_true_r.
  - repeat split; auto.
  - split; [discriminate |]. split; [intros ->; now rewrite orb_true_r |].
    split; [| repeat split].
    intros H. apply Nat.leb_le in H. now rewrite H.
Qed.

(** What a pass does to the run, whatever the reply. *)
Lemma iteration_step (r : Run) :
  let r1 := run_of (iteration r) in
  sent r1 = sent r ++ [request_of r] /\
  (hintInjected (state r) = true -> hintInjected (state r1) = true) /\
  (consistent r -> consistent r1) /\
  (consistent r ->
   forall new tc,
     allToolCalls r1 = allToolCalls r ++ new -> In tc new ->
     2 <= invocations (hash tc) (allToolCalls r1) ->
     hintInjected (state r1) = true) /\
  (forall resp r', iteration r = Return (inr resp) r' ->
     r_Content resp <> "" /\ r_ToolCalls resp = allToolCalls r' /\ r_Usage resp = totalUsage r') /\
  (forall err r', iteration r = Return (inl err) r' ->
     exists e, reply_to r = inl e /\ err = "chat request failed: " +:+ e).
Proof.
  cbv zeta. rewrite iteration_cases.
  destruct (reply_to r) as [err | resp].
  { cbn [run_of sent state allToolCalls]. split; [reflexivity |]. split; [auto |].
    split; [auto |]. split.
    - intros _ new tc Hnew Hin. rewrite <- (app_nil_r (allToolCalls r)) in Hnew at 1.
      apply app_inv_head in Hnew. subst new. destruct Hin.
    - split; [intros resp r' H; discriminate H |].
      intros err' r' H. injection H as <- <-. now exists err. }
  destruct (Nat.eqb_spec (length (resp_ToolCalls resp)) 0) as [Hnone | Hsome].
  { apply length_zero_iff_nil in Hnone.
    cbn [run_of]. unfold received at 1 2 3 4 5 6 7 8. rewrite Hnone, app_nil_r.
    cbn [sent state allToolCalls]. split; [reflexivity |]. split; [auto |].
    split; [auto |]. split.
    - intros _ new tc Hnew Hin. rewrite <- (app_nil_r (allToolCalls r)) in Hnew at 1.
      apply app_inv_head in Hnew. subst new. destruct Hin.
    - split; [| intros err' r' H; discriminate H].
      intros resp' r' H. injection H as <- <-. cbn [r_Content r_ToolCalls r_Usage].
      split; [| split; [unfold received; cbn; now rewrite Hnone, app_nil_r | reflexivity]].
      unfold answer_text.
      destruct (String.eqb_spec (resp_Content resp) "") as [_ | Hne]; [| exact Hne].
      destruct (String.eqb_spec (lastAssistantContent (Messages (thread (received r resp)))) "")
        as [_ | Hne]; [discriminate | exact Hne]. }
  destruct (toolSteps_spec ToolsExecute md5hex (resp_ToolCalls resp) (received r resp)
                           false false) as (r2 & p2 & ms & Hfold & Hran).
  destruct (toolSteps_counter (resp_ToolCalls resp) (received r resp) false false)
    as [Hcount Hflag]. cbv zeta in Hcount, Hflag.
  rewrite Hfold in *. cbn [fst snd] in Hcount, Hflag. cbv beta iota.
  rewrite run_of_after_tools.
  destruct (trackEmpty_hint (false || anyUseful ms) p2 r2)
    as (Hkeep & Hrep & Htwo & Hhist & Htotal & Hcalls & Hsent & Hthread & Husage).
  set (r1 := trackEmpty (false || anyUseful ms) p2 r2) in *.
  destruct Hran as (_ & _ & _ & _ & _ & B6 & B7 & B8 & B9 & B10 & _).
  cbn [received state allToolCalls sent totalUsage] in B6, B7, B8, B9, B10.
  assert (Hcounter : forall h, counter (state r1) h = counter (state r2) h).
  { intros h. unfold counter. now rewrite Hhist. }
  split; [now rewrite Hsent, B10 |].
  split; [intros H; apply Hkeep; now rewrite B7 |].
  split; [| split].
  - intros (I1 & I2 & I3). split; [| split; [| exact Htwo]].
    + rewrite Htotal, B6, Hcalls, B9, length_app. lia.
    + intros h. rewrite Hcounter, Hcount, Hcalls, B9, invocations_app.
      cbn [received state]. now rewrite I2.
  - intros (I1 & I2 & I3) new tc Hnew Hin Htwice. apply Hrep. rewrite Hflag. cbn [orb].
    rewrite Hcalls, B9 in Hnew, Htwice. apply app_inv_head in Hnew. subst new.
    apply existsb_exists. exists tc. split; [exact Hin |].
    apply Nat.leb_le. rewrite Hcount. cbn [received state].
    rewrite I2, <- invocations_app. exact Htwice.
  - unfold after_tools. split.
    + intros resp' r' H.
      destruct ((3 <=? _) || _); [| discriminate]. injection H as <- <-.
      split; [apply forceCompletion_not_empty | split; reflexivity].
    + intros err' r' H. destruct ((3 <=? _) || _); discriminate.
Qed.

(** *** The tool messages of a round *)

(** The message as the provider gets it when nothing is rewritten on the
    way: same role, content, tool calls and call ID. *)
Definition to_provider (m : Message) : ProviderMessage :=
  mkProviderMessage (Role m) (Content m) (ToolCalls m) (ToolCallID m).

(** The tool calls of a round append one tool message per call, in order,
    each carrying the ID of its call, and each passed on to the provider
    with the content it is stored with. *)
Lemma toolSteps_ids (tcs : list ToolCall) (r : Run) (u p : bool) :
  exists toolMsgs,
    Messages (thread (fst (fst (fold_left toolCallStep tcs (r, u, p)))))
      = Messages (thread r) ++ toolMsgs /\
    map ToolCallID toolMsgs = map tc_ID tcs /\
    Forall (fun m => Role m = "tool") toolMsgs /\
    buildMessages toolMsgs = map to_provider toolMsgs.
Proof.
  revert r u p; induction tcs as [|tc tcs IH]; intros r u p.
  - exists []. cbn. now rewrite app_nil_r.
  - cbn [fold_left].
    assert (Hstep : exists m,
               Messages (thread (fst (fst (toolCallStep (r, u, p) tc))))
                 = Messages (thread r) ++ [m] /\
               ToolCallID m = tc_ID tc /\ Role m = "tool" /\
               buildMessages [m] = [to_provider m]).
    { unfold agent.toolCallStep. cbv zeta.
      assert (Hexec : exists res, executeTool ToolsExecute (totalSearches (state r)) tc = inr res).
      { unfold executeTool. destruct (ToolsExecute _ _ _); eauto. }
      destruct Hexec as (res & ->). eexists. cbn. repeat split. }
    destruct Hstep as (m & Hm & Hid & Hrole & Hplain).
    destruct (toolCallStep (r, u, p) tc) as [[r1 u1] p1]. cbn [fst] in Hm.
    destruct (IH r1 u1 p1) as (ms & Hms & Hids & Hroles & Hplains).
    exists (m :: ms). rewrite Hms, Hm, <- app_assoc. cbn [app map].
    split; [reflexivity | split; [now rewrite Hid, Hids | split; [now constructor |]]].
    change (m :: ms) with ([m] ++ ms). unfold buildMessages in *.
    rewrite flat_map_app, Hplain, Hplains. reflexivity.
Qed.

(** The history after a pass. *)
Lemma iteration_history (r : Run) :
  let before := Messages (thread r) in
  let after := Messages (thread (run_of (iteration r))) in
  after = before \/
  exists am toolMsgs,
    after = before ++ am :: toolMsgs /\
    Role am = "assistant" /\
    Forall (fun m => Role m = "tool") toolMsgs /\
    map ToolCallID toolMsgs = map tc_ID (ToolCalls am).
Proof.
  cbv zeta. rewrite iteration_cases.
  destruct (reply_to r) as [err | resp]; [left; reflexivity | right].
  exists (mkMessage "assistant" (resp_Content resp) (resp_ToolCalls resp) "" []).
  destruct (Nat.eqb_spec (length (resp_ToolCalls resp)) 0) as [Hnone | Hsome].
  - apply length_zero_iff_nil in Hnone. exists []. cbn. rewrite Hnone. auto.
  - destruct (toolSteps_ids (resp_ToolCalls resp) (received r resp) false false)
      as (ms & Hms & Hids & Hroles & _).
    destruct (fold_left toolCallStep (resp_ToolCalls resp) (received r resp, false, false))
      as [[r2 u] p]. cbn [fst] in Hms.
    rewrite run_of_after_tools. exists ms.
    unfold trackEmpty. cbv zeta. cbn [thread setState].
    rewrite Hms. cbn [received thread Messages]. rewrite <- app_assoc. cbn.
    auto.
Qed.

(** The tool message the loop stores for the call [tc], executed after
    [n] earlier calls: the output of the tool, or "Error: " and the error
    when the registry fails (the error field of the result stays empty). *)
Definition tool_message (n : nat) (tc : ToolCall) : Message :=
  let content :=
    match ToolsExecute n (tc_Name tc) (tc_Arguments tc) with
    | inl err => "Error: " +:+ err
    | inr output => output
    end in
  mkMessage "tool" content [] (tc_ID tc) [mkToolResult (tc_ID tc) content ""].

Fixpoint tool_messages (n : nat) (tcs : list ToolCall) : list Message :=
  match tcs with
  | [] => []
  | tc :: rest => tool_message n tc :: tool_messages (S n) rest
  end.

Lemma toolSteps_messages (tcs : list ToolCall) :
  forall (r : Run) (u p : bool),
    Messages (thread (fst (fst (fold_left toolCallStep tcs (r, u, p)))))
    = Messages (thread r) ++ tool_messages (totalSearches (state r)) tcs.
Proof.
  induction tcs as [|tc tcs IH]; intros r u p.
  - cbn. now rewrite app_nil_r.
  - cbn [fold_left tool_messages].
    assert (Hstep : Messages (thread (fst (fst (toolCallStep (r, u, p) tc))))
                    = Messages (thread r) ++ [tool_message (totalSearches (state r)) tc] /\
                    totalSearches (state (fst (fst (toolCallStep (r, u, p) tc))))
                    = S (totalSearches (state r))).
    { unfold agent.toolCallStep, executeTool, tool_message. cbv zeta.
      destruct (ToolsExecute (totalSearches (state r)) (tc_Name tc) (tc_Arguments tc));
        cbn; split; reflexivity. }
    destruct Hstep as [Hm Hn].
    destruct (toolCallStep (r, u, p) tc) as [[r1 u1] p1]. cbn [fst] in Hm, Hn.
    rewrite IH, Hm, Hn, <- app_assoc. reflexivity.
Qed.

(** X2.  What a round adds to the history is determined by the reply of
    the provider: nothing when the chat request failed; else the assistant
    message with the reply's content and tool calls, followed by one tool
    message per tool call, in the order of the calls, each with the ID of
    its call and, as content, the output of executing that call, or
    "Error: " and the error when the tool failed. *)
Theorem round_history (r : Run) :
  let after := Messages (thread (run_of (iteration r))) in
  match reply_to r with
  | inl _ => after = Messages (thread r)
  | inr resp =>
      after =
        Messages (thread r)
        ++ mkMessage "assistant" (resp_Content resp) (resp_ToolCalls resp) "" []
           :: tool_messages (totalSearches (state r)) (resp_ToolCalls resp)
  end.
Proof.
  cbv zeta. rewrite iteration_cases.
  destruct (reply_to r) as [err | resp]; [reflexivity |].
  destruct (Nat.eqb_spec (length (resp_ToolCalls resp)) 0) as [Hnone | Hsome].
  - apply length_zero_iff_nil in Hnone. cbn [run_of received thread Messages].
    rewrite Hnone. reflexivity.
  - pose proof (toolSteps_messages (resp_ToolCalls resp) (received r resp) false false) as Hms.
    destruct (fold_left toolCallStep (resp_ToolCalls resp) (received r resp, false, false))
      as [[r2 u] p]. cbn [fst] in Hms.
    rewrite run_of_after_tools. unfold trackEmpty. cbv zeta. cbn [thread setState].
    rewrite Hms. cbn [received thread Messages state]. now rewrite <- app_assoc.
Qed.

(** *** Whole Ask calls *)

Lemma reached_consistent (n : nat) (r0 r : Run) :
  consistent r0 -> reached n r0 = Some r -> consistent r.
Proof.
  revert r0; induction n as [|n IH]; intros r0 H0 H; simpl in H.
  - now injection H as <-.
  - destruct (iteration_step r0) as (_ & _ & Hcons & _).
    destruct (iteration r0) as [res r1 | r1]; [discriminate |].
    exact (IH r1 (Hcons H0) H).
Qed.

Lemma afterLoop_run (r : Run) :
  state (snd (afterLoop r)) = state r /\
  allToolCalls (snd (afterLoop r)) = allToolCalls r /\
  totalUsage (snd (afterLoop r)) = totalUsage r /\
  (saved (snd (afterLoop r)) = saved r \/
   saved (snd (afterLoop r)) = saved r ++ [thread r]).
Proof.
  unfold afterLoop. cbv zeta.
  destruct (0 <? length (Messages (thread r)));
    destruct (negb (String.eqb _ "")); cbn; auto.
Qed.

(** What the loop returns, by induction on the budget. *)
Lemma iterate_facts (n : nat) (r : Run) :
  consistent r ->
  let out := iterate n r in
  consistent (snd out) /\
  (forall resp, fst out = inr resp ->
     r_Content resp <> "" /\ r_ToolCalls resp = allToolCalls (snd out) /\
     r_Usage resp = totalUsage (snd out)) /\
  (forall err, fst out = inl err ->
     err = "max iterations reached" \/
     exists j r' e, j < n /\ reached j r = Some r' /\ reply_to r' = inl e /\
                    err = "chat request failed: " +:+ e) /\
  (saved (snd out) = saved r \/ saved (snd out) = saved r ++ [thread (snd out)]) /\
  (exists more, Messages (thread (snd out)) = Messages (thread r) ++ more) /\
  ID (thread (snd out)) = ID (thread r) /\ Title (thread (snd out)) = Title (thread r).
Proof.
  cbv zeta. revert r; induction n as [|n IH]; intros r Hcons.
  - cbn [agent.iterate].
    destruct (afterLoop_result r) as (Hres & _ & Hth).
    destruct (afterLoop_run r) as (Hst & Hcalls & Husage & Hsaved).
    split; [| split; [| split; [| split; [| split]]]].
    + destruct Hcons as (I1 & I2 & I3). unfold consistent. rewrite Hst, Hcalls. auto.
    + intros resp H. rewrite Hres in H.
      destruct (String.eqb_spec (lastAssistantContent (Messages (thread r))) "") as [| Hne];
        [discriminate |].
      injection H as <-. cbn. rewrite Hcalls, Husage.
      split; [now apply string_app_not_empty_l | auto].
    + intros err H. rewrite Hres in H.
      destruct (String.eqb (lastAssistantContent (Messages (thread r))) "");
        [injection H as <-; now left | discriminate].
    + rewrite Hth. exact Hsaved.
    + exists []. now rewrite Hth, app_nil_r.
    + now rewrite Hth.
  - cbn [agent.iterate].
    destruct (iteration_step r) as (_ & _ & Hc & _ & Hans & Herr).
    destruct (iteration_pass ModelProvider ModelName SystemPrompt toolNames Chat StreamChat
                             ToolsExecute md5hex callback r) as (Hpass & Hsaved & _ & Hid & Htitle).
    assert (Hmore : exists more,
               Messages (thread (run_of (iteration r))) = Messages (thread r) ++ more).
    { destruct (iteration_history r) as [H | (am & ms & H & _)]; cbv zeta in H.
      - exists []. now rewrite app_nil_r.
      - now exists (am :: ms). }
    destruct (iteration r) as [res r1 | r1] eqn:Hit; cbn [run_of fst snd] in *.
    + split; [exact (Hc Hcons) |].
      split; [intros resp ->; exact (Hans resp r1 eq_refl) |].
      split; [| auto].
      intros err ->. right. destruct (Herr err r1 eq_refl) as (e & He & ->).
      exists 0, r, e. repeat split; [lia | exact He].
    + destruct (IH r1 (Hc Hcons)) as (J1 & J2 & J3 & J4 & (more' & J5) & J6 & J7).
      destruct Hmore as (more & Hmore).
      split; [exact J1 | split; [exact J2 | split; [| split; [| split; [| split]]]]].
      * intros err H. destruct (J3 err H) as [-> | (j & r' & e & Hj & Hr & He & ->)];
          [now left | right].
        exists (S j), r', e. repeat split; [lia | | exact He].
        cbn. now rewrite Hit.
      * now rewrite <- Hsaved.
      * exists (more ++ more'). now rewrite J5, Hmore, app_assoc.
      * congruence.
      * congruence.
Qed.

(** A history the provider gets as it is stored. *)
Definition passed_on (msgs : list Message) : Prop :=
  buildMessages msgs = map to_provider msgs.

Lemma passed_on_app (l1 l2 : list Message) :
  passed_on l1 -> passed_on l2 -> passed_on (l1 ++ l2).
Proof.
  unfold passed_on, buildMessages. intros H1 H2.
  now rewrite flat_map_app, map_app, H1, H2.
Qed.

Lemma iteration_passed_on (r : Run) :
  passed_on (Messages (thread r)) -> passed_on (Messages (thread (run_of (iteration r)))).
Proof.
  intros H. rewrite iteration_cases.
  destruct (reply_to r) as [err | resp]; [exact H |].
  assert (Ham : passed_on (Messages (thread (received r resp)))).
  { cbn [received thread Messages]. apply passed_on_app; [exact H | reflexivity]. }
  destruct (length (resp_ToolCalls resp) =? 0); [exact Ham |].
  destruct (toolSteps_ids (resp_ToolCalls resp) (received r resp) false false)
    as (ms & Hms & _ & _ & Hplain).
  destruct (fold_left toolCallStep (resp_ToolCalls resp) (received r resp, false, false))
    as [[r2 u] p]. cbn [fst] in Hms.
  rewrite run_of_after_tools. unfold trackEmpty. cbv zeta. cbn [thread setState].
  rewrite Hms. now apply passed_on_app.
Qed.

Lemma reached_passed_on (n : nat) (r0 r : Run) :
  passed_on (Messages (thread r0)) -> reached n r0 = Some r ->
  passed_on (Messages (thread r)).
Proof.
  revert r0; induction n as [|n IH]; intros r0 H0 H; simpl in H.
  - now injection H as <-.
  - pose proof (iteration_passed_on r0 H0) as H1.
    destruct (iteration r0) as [res r1 | r1]; [discriminate |].
    exact (IH r1 H1 H).
Qed.

Lemma Ask_unfold (a_Thread : option Thread) (saved0 : list Thread) (threadID question : string) :
  AskWithCallback a_Thread saved0 threadID question =
    match iterate 10 (start a_Thread saved0 threadID question) with
    | (inl err, r) => (inl err, r)
    | (inr response, r) => (inr response, SaveThread r)
    end.
Proof. reflexivity. Qed.

(** X3.  Ask fails in two ways only: with "max iterations reached" when the
    budget is used up, or with "chat request failed: " followed by the error
    of the provider, in a round within the budget whose chat request the
    provider failed.  No failure of a tool ever makes Ask fail. *)
Theorem Ask_fails_only_with_the_provider (a_Thread : option Thread) (saved0 : list Thread)
    (threadID question err : string) :
  fst (AskWithCallback a_Thread saved0 threadID question) = inl err ->
  err = "max iterations reached" \/
  exists n r e,
    n < 10 /\ reached n (start a_Thread saved0 threadID question) = Some r /\
    reply_to r = inl e /\ err = "chat request failed: " +:+ e.
Proof.
  rewrite Ask_unfold. intros H.
  destruct (iterate_facts 10 _ (start_consistent a_Thread saved0 threadID question))
    as (_ & _ & Herr & _).
  apply Herr. destruct (iterate 10 _) as [[e | resp] r1]; [exact H | discriminate].
Qed.

(** X4.  An answer of Ask is never the empty text, it lists every tool call
    the call made, in order, and reports the usage the call added up; the
    loop's search counter equals the number of those tool calls. *)
Theorem Ask_answer_is_complete (a_Thread : option Thread) (saved0 : list Thread)
    (threadID question : string) (resp : Response) :
  let out := AskWithCallback a_Thread saved0 threadID question in
  fst out = inr resp ->
  r_Content resp <> "" /\
  r_ToolCalls resp = allToolCalls (snd out) /\
  r_Usage resp = totalUsage (snd out) /\
  totalSearches (state (snd out)) = length (r_ToolCalls resp).
Proof.
  cbv zeta. rewrite Ask_unfold. intros H.
  destruct (iterate_facts 10 _ (start_consistent a_Thread saved0 threadID question))
    as ((Htotal & _) & Hans & _).
  destruct (iterate 10 _) as [[e | resp'] r1]; [discriminate |].
  cbn [fst snd] in *. injection H as <-.
  destruct (Hans resp' eq_refl) as (Hne & Hcalls & Husage).
  cbn [SaveThread allToolCalls totalUsage state].
  repeat split; try assumption. now rewrite Hcalls.
Qed.


(** X6.  Ask only ever appends to the conversation: the thread it leaves
    holds the messages the thread held before, then the user's question,
    then what the rounds added.  A thread that existed keeps its ID and
    title; a new one gets the generated ID and the question, cut to 50
    bytes, as its title. *)
Theorem Ask_extends_the_thread (a_Thread : option Thread) (saved0 : list Thread)
    (threadID question : string) :
  let th := thread (snd (AskWithCallback a_Thread saved0 threadID question)) in
  match a_Thread with
  | Some old =>
      (exists more, Messages th = Messages old ++ mkMessage "user" question [] "" [] :: more) /\
      ID th = ID old /\ Title th = Title old
  | None =>
      (exists more, Messages th = mkMessage "user" question [] "" [] :: more) /\
      ID th = threadID /\ Title th = truncateTitle question /\
      String.length (Title th) <= 50
  end.
Proof.
  cbv zeta. rewrite Ask_unfold.
  destruct (iterate_facts 10 _ (start_consistent a_Thread saved0 threadID question))
    as (_ & _ & _ & _ & (more & Hmore) & Hid & Htitle).
  assert (Hth : thread (snd (match iterate 10 (start a_Thread saved0 threadID question) with
                             | (inl err, r) => (inl err, r)
                             | (inr response, r) => (inr response, SaveThread r)
                             end))
                = thread (snd (iterate 10 (start a_Thread saved0 threadID question)))).
  { now destruct (iterate 10 _) as [[e | resp'] r1]. }
  rewrite Hth, Hmore, Hid, Htitle. clear Hth Hmore Hid Htitle.
  destruct a_Thread as [old |]; cbn [start thread askThread Messages ID Title].
  - split; [exists more; now rewrite <- app_assoc | auto].
  - split; [now exists more |]. repeat split. apply truncateTitle_length.
Qed.

(** X7.  Within one Ask call the repetition counter of a hash equals the
    number of tool calls made so far whose name and arguments hash to it.
    When a round executes a call whose hash then has two or more
    invocations, be it a repeat of an earlier round or of the same round,
    the round leaves the hint flag set. *)
Theorem repeated_call_sets_hint (a_Thread : option Thread) (saved0 : list Thread)
    (threadID question : string) (n : nat) (r : Run) :
  reached n (start a_Thread saved0 threadID question) = Some r ->
  let r1 := run_of (iteration r) in
  (forall h, default 0 (searchHistory (state r1) !! h) = invocations h (allToolCalls r1)) /\
  (forall new tc,
      allToolCalls r1 = allToolCalls r ++ new -> In tc new ->
      2 <= invocations (call_hash tc) (allToolCalls r1) ->
      hintInjected (state r1) = true).
Proof.
  intros Hr r1.
  pose proof (reached_consistent n _ r (start_consistent a_Thread saved0 threadID question) Hr)
    as Hcons.
  destruct (iteration_step r) as (_ & _ & Hkeep & Hrep & _).
  split; [apply (Hkeep Hcons) | exact (Hrep Hcons)].
Qed.

(** X8.  The request of a round carries the configured model, tools and a
    token limit of 8192, the whole history, and the system prompt, extended
    by the stuck-loop hint exactly when the hint flag was set in an earlier
    round.  Within one Ask call the first request never carries the hint,
    two fruitless rounds in a row have always set the flag, and a flag that
    is set stays set. *)
Theorem hint_reaches_the_next_request (a_Thread : option Thread) (saved0 : list Thread)
    (threadID question : string) (n : nat) (r : Run) :
  reached n (start a_Thread saved0 threadID question) = Some r ->
  let r1 := run_of (iteration r) in
  sent r1 =
    sent r ++ [mkChatRequest ModelName
                 (if hintInjected (state r) then SystemPrompt +:+ StuckLoopHint
                  else SystemPrompt)
                 (buildMessages (Messages (thread r))) toolNames 8192] /\
  (n = 0 -> hintInjected (state r) = false) /\
  (2 <= emptyResultCount (state r) -> hintInjected (state r) = true) /\
  (hintInjected (state r) = true -> hintInjected (state r1) = true).
Proof.
  intros Hr r1.
  pose proof (reached_consistent n _ r (start_consistent a_Thread saved0 threadID question) Hr)
    as (_ & _ & Htwo).
  destruct (iteration_step r) as (Hsent & Hmono & _).
  split; [exact Hsent | split; [| split; [exact Htwo | exact Hmono]]].
  intros ->. cbn in Hr. now injection Hr as <-.
Qed.

(** X9.  In a conversation started by this Ask call, the provider is sent
    the history as it is stored: one message per stored message, in order,
    with the same role, content, tool calls and call ID; in particular the
    output of every tool call reaches the model unchanged. *)
Theorem fresh_history_is_passed_on (saved0 : list Thread) (threadID question : string)
    (n : nat) (r : Run) :
  reached n (start None saved0 threadID question) = Some r ->
  exists req,
    sent (run_of (iteration r)) = sent r ++ [req] /\
    req_Messages req = map to_provider (Messages (thread r)) /\
    length (req_Messages req) = length (Messages (thread r)).
Proof.
  intros Hr. destruct (iteration_step r) as (Hsent & _).
  exists (request_of r). split; [exact Hsent |].
  assert (H : passed_on (Messages (thread r))).
  { apply (reached_passed_on n (start None saved0 threadID question)); [reflexivity | exact Hr]. }
  cbn [request_of req_Messages]. rewrite H. split; [reflexivity | apply length_map].
Qed.

Lemma lastAssistantContent_snoc (msgs : list Message) (m : Message) :
  hasAssistantContent m = false ->
  lastAssistantContent (msgs ++ [m]) = lastAssistantContent msgs.
Proof.
  intros Hm. unfold lastAssistantContent. rewrite rev_app_distr. cbn [rev app find].
  now rewrite Hm.
Qed.

Lemma reached_saved (n : nat) (r0 r : Run) : reached n r0 = Some r -> saved r = saved r0.
Proof.
  revert r0; induction n as [|n IH]; intros r0 Hr; simpl in Hr.
  - now injection Hr as <-.
  - destruct (iteration_pass ModelProvider ModelName SystemPrompt toolNames Chat StreamChat
                             ToolsExecute md5hex callback r0) as (_ & Hs & _).
    destruct (iteration r0) as [res r1 | r1]; [discriminate |].
    rewrite <- Hs. now apply IH.
Qed.

(** X29.  The natural stop: when, in a round within the budget, the model
    replies without asking for a tool, Ask returns at once with that reply.
    The answer's content is the reply's content; when that is empty it is
    the content of the last assistant message with content of the thread,
    and when there is none the fixed text "I was unable to generate a
    response for this query.".  The answer lists the tool calls of the
    earlier rounds, the thread ends with the assistant message of the reply
    and is saved, and no further request is sent. *)
Theorem natural_stop_returns_the_reply (a_Thread : option Thread) (saved0 : list Thread)
    (threadID question : string) (n : nat) (r : Run) (resp : ChatResponse) :
  reached n (start a_Thread saved0 threadID question) = Some r ->
  n < 10 ->
  reply_to r = inr resp ->
  resp_ToolCalls resp = [] ->
  let out := AskWithCallback a_Thread saved0 threadID question in
  let content :=
    if String.eqb (resp_Content resp) "" then
      if String.eqb (lastAssistantContent (Messages (thread r))) "" then
        "I was unable to generate a response for this query."
      else lastAssistantContent (Messages (thread r))
    else resp_Content resp in
  fst out = inr (mkResponse content (allToolCalls r) (totalUsage (snd out))) /\
  Messages (thread (snd out)) =
    Messages (thread r) ++ [mkMessage "assistant" (resp_Content resp) [] "" []] /\
  saved (snd out) = saved0 ++ [thread (snd out)] /\
  length (sent (snd out)) = n + 1.
Proof.
  intros Hr Hn Hreply Hnone. cbv zeta.
  assert (Hit : iteration r =
                Return (inr (mkResponse (answer_text r resp) (allToolCalls (received r resp))
                                        (totalUsage (received r resp))))
                       (received r resp)).
  { rewrite iteration_cases, Hreply, Hnone. reflexivity. }
  rewrite (ask_returns ModelProvider ModelName SystemPrompt toolNames Chat StreamChat
             ToolsExecute md5hex callback a_Thread saved0 threadID question n r _ _ Hr Hn Hit).
  cbn [fst snd SaveThread thread saved sent totalUsage received Messages allToolCalls].
  rewrite Hnone, app_nil_r.
  assert (Htext : answer_text r resp =
                  (if String.eqb (resp_Content resp) "" then
                     if String.eqb (lastAssistantContent (Messages (thread r))) "" then
                       "I was unable to generate a response for this query."
                     else lastAssistantContent (Messages (thread r))
                   else resp_Content resp)).
  { unfold answer_text. destruct (String.eqb_spec (resp_Content resp) "") as [He | _];
      [| reflexivity].
    cbn [received thread Messages]. rewrite lastAssistantContent_snoc; [reflexivity |].
    unfold hasAssistantContent. cbn [Role Content]. rewrite He. reflexivity. }
  rewrite Htext. split; [reflexivity |]. split; [reflexivity |].
  pose proof (continued_sent ModelProvider ModelName SystemPrompt toolNames Chat StreamChat
                ToolsExecute md5hex callback n _ r Hr) as Hsent.
  pose proof (reached_saved n _ r Hr) as Hsaved. cbn [start saved] in Hsaved.
  rewrite Hsaved. split; [reflexivity |].
  rewrite length_app. cbn [length start sent] in *. lia.
Qed.

End LoopMore.

(** *** The streamed reply *)

(** The text and the tool calls a stream of events carries. *)
Fixpoint stream_text (events : list StreamEvent) : string :=
  match events with
  | [] => ""
  | event :: rest =>
      match ev_Type event with
      | StreamEventText => ev_Delta event +:+ stream_text rest
      | _ => stream_text rest
      end
  end.

Fixpoint stream_calls (events : list StreamEvent) : list ToolCall :=
  match events with
  | [] => []
  | event :: rest =>
      match ev_Type event, ev_ToolCall event with
      | StreamEventToolCall, Some tc => tc :: stream_calls rest
      | _, _ => stream_calls rest
      end
  end.

Definition is_error (event : StreamEvent) : bool :=
  match ev_Type event with
  | StreamEventError => true
  | _ => false
  end.

Lemma drainEvents_collects (events : list StreamEvent) (acc : ChatResponse) :
  Forall (fun e => is_error e = false) events ->
  exists resp,
    drainEvents events acc = inr resp /\
    resp_Content resp = resp_Content acc +:+ stream_text events /\
    resp_ToolCalls resp = resp_ToolCalls acc ++ stream_calls events.
Proof.
  intros H. revert acc; induction H as [|e events He _ IH]; intros acc.
  - exists acc. cbn. now rewrite string_app_nil_r, app_nil_r.
  - unfold is_error in He. cbn [drainEvents stream_text stream_calls].
    destruct (ev_Type e); try discriminate.
    + destruct (IH (mkChatResponse (resp_Content acc +:+ ev_Delta e) (resp_ToolCalls acc)
                                   (resp_StopReason acc) (resp_Usage acc)))
        as (resp & -> & Hc & Ht).
      exists resp. cbn in Hc, Ht. now rewrite Hc, Ht, string_app_assoc.
    + destruct (ev_ToolCall e) as [tc |].
      * destruct (IH (mkChatResponse (resp_Content acc) (resp_ToolCalls acc ++ [tc])
                                     (resp_StopReason acc) (resp_Usage acc)))
          as (resp & -> & Hc & Ht).
        exists resp. cbn in Hc, Ht. now rewrite Hc, Ht, <- app_assoc.
      * destruct (IH (mkChatResponse (resp_Content acc) (resp_ToolCalls acc)
                                     (resp_StopReason acc) (resp_Usage acc)))
          as (resp & -> & Hc & Ht).
        exists resp. cbn in Hc, Ht. now rewrite Hc, Ht.
    + destruct (IH acc) as (resp & -> & Hc & Ht). now exists resp.
    + destruct (IH (mkChatResponse (resp_Content acc) (resp_ToolCalls acc) (ev_StopReason e)
                                   (match ev_Usage e with
                                    | Some u => u
                                    | None => resp_Usage acc
                                    end)))
        as (resp & -> & Hc & Ht).
      exists resp. cbn in Hc, Ht. now rewrite Hc, Ht.
Qed.

Lemma drainEvents_fails (pre post : list StreamEvent) (e : StreamEvent) (acc : ChatResponse) :
  Forall (fun e => is_error e = false) pre ->
  is_error e = true ->
  drainEvents (pre ++ e :: post) acc = inl (ev_Error e).
Proof.
  intros H He. revert acc; induction H as [|e1 pre H1 _ IH]; intros acc.
  - unfold is_error in He. cbn. destruct (ev_Type e); try discriminate. reflexivity.
  - unfold is_error in H1. cbn [app drainEvents].
    destruct (ev_Type e1); try discriminate; apply IH.
Qed.

(** X10.  The reply assembled from a stream: when the provider delivers the
    events [events], the reply's content is the text deltas concatenated in
    order and its tool calls are the calls of the tool-call events in order,
    provided no event is an error; the first error event makes streamChat
    fail with that event's error, whatever was received before and whatever
    follows. *)
Theorem streamChat_assembles_the_reply
    (StreamChat : nat -> ChatRequest -> string + list StreamEvent)
    (n : nat) (req : ChatRequest) (events : list StreamEvent) :
  StreamChat n req = inr events ->
  (Forall (fun e => is_error e = false) events ->
   exists resp,
     streamChat StreamChat n req = inr resp /\
     resp_Content resp = stream_text events /\
     resp_ToolCalls resp = stream_calls events)
  /\
  (forall pre e post,
      events = pre ++ e :: post ->
      Forall (fun e => is_error e = false) pre ->
      is_error e = true ->
      streamChat StreamChat n req = inl (ev_Error e)).
Proof.
  intros Hs. unfold streamChat. rewrite Hs. split.
  - intros Hok.
    destruct (drainEvents_collects events (mkChatResponse "" [] "" (mkUsage 0 0 0)) Hok)
      as (resp & Hd & Hc & Ht).
    exists resp. cbn in Hc, Ht. now rewrite string_app_nil_l in Hc.
  - intros pre e post -> Hpre He. now apply drainEvents_fails.
Qed.

(** *** The loop on scripted collaborators, continued *)

(** A provider that asks for one search and then answers. *)
Definition chat_search_then_answer (n : nat) (req : ChatRequest) : string + ChatResponse :=
  match n with
  | O => inr (mkChatResponse "Let me search." [mkToolCall "call_1" "grep" "{}"] "tool_use"
                             (mkUsage 10 5 15))
  | S _ => inr (mkChatResponse "Cobra is a library for command-line programs." [] "end_turn"
                               (mkUsage 20 9 29))
  end.

(** X3 at work: the provider that loses the connection in the second
    round. *)
Lemma Ask_fails_only_with_the_provider_witness :
  "chat request failed: connection reset by peer" = "max iterations reached" \/
  exists n r e,
    n < 10 /\
    continued "ollama" "llama3" "You answer questions about code." ["grep"]
              chat_search_then_fail no_stream tools_find_main (fun s => s) false
              n (start None [] "1700000000" "What is Cobra?") = Some r /\
    reply_to "ollama" "llama3" "You answer questions about code." ["grep"]
             chat_search_then_fail no_stream false r = inl e /\
    "chat request failed: connection reset by peer" = "chat request failed: " +:+ e.
Proof.
  apply (Ask_fails_only_with_the_provider "ollama" "llama3" "You answer questions about code."
           ["grep"] chat_search_then_fail no_stream tools_find_main (fun s => s) false
           None [] "1700000000" "What is Cobra?").
  vm_compute. reflexivity.
Defined.

(** X4 at work: one search, then the answer. *)
Lemma Ask_answer_is_complete_witness :
  let out := AskWithCallback "ollama" "llama3" "You answer questions about code." ["grep"]
                             chat_search_then_answer no_stream tools_find_main (fun s => s) false
                             None [] "1700000000" "What is Cobra?" in
  let answer := mkResponse "Cobra is a library for command-line programs."
                           [mkToolCall "call_1" "grep" "{}"] (mkUsage 30 14 44) in
  fst out = inr answer /\
  r_ToolCalls answer = allToolCalls (snd out) /\
  totalSearches (state (snd out)) = 1.
Proof.
  cbv zeta.
  assert (H : fst (AskWithCallback "ollama" "llama3" "You answer questions about code." ["grep"]
                     chat_search_then_answer no_stream tools_find_main (fun s => s) false
                     None [] "1700000000" "What is Cobra?")
              = inr (mkResponse "Cobra is a library for command-line programs."
                                [mkToolCall "call_1" "grep" "{}"] (mkUsage 30 14 44)))
    by (vm_compute; reflexivity).
  split; [exact H |].
  destruct (Ask_answer_is_complete "ollama" "llama3" "You answer questions about code." ["grep"]
              chat_search_then_answer no_stream tools_find_main (fun s => s) false
              None [] "1700000000" "What is Cobra?" _ H) as (_ & Hcalls & _ & Htotal).
  split; [exact Hcalls | exact Htotal].
Defined.

(** X29 at work: the second round of the same call is a natural stop. *)
Lemma natural_stop_returns_the_reply_witness :
  let out := AskWithCallback "ollama" "llama3" "You answer questions about code." ["grep"]
                             chat_search_then_answer no_stream tools_find_main (fun s => s) false
                             None [] "1700000000" "What is Cobra?" in
  fst out = inr (mkResponse "Cobra is a library for command-line programs."
                            [mkToolCall "call_1" "grep" "{}"] (totalUsage (snd out))) /\
  map Role (Messages (thread (snd out))) = ["user"; "assistant"; "tool"; "assistant"] /\
  length (sent (snd out)) = 2.
Proof.
  cbv zeta.
  set (r1 := run_of (iteration "ollama" "llama3" "You answer questions about code." ["grep"]
                               chat_search_then_answer no_stream tools_find_main (fun s => s)
                               false (start None [] "1700000000" "What is Cobra?"))).
  destruct (natural_stop_returns_the_reply "ollama" "llama3" "You answer questions about code."
              ["grep"] chat_search_then_answer no_stream tools_find_main (fun s => s) false
              None [] "1700000000" "What is Cobra?" 1 r1
              (mkChatResponse "Cobra is a library for command-line programs." [] "end_turn"
                              (mkUsage 20 9 29)))
    as (Hout & Hmsgs & _ & Hsent).
  - vm_compute. reflexivity.
  - lia.
  - vm_compute. reflexivity.
  - reflexivity.
  - split; [exact Hout |]. split; [| exact Hsent].
    rewrite Hmsgs. vm_compute. reflexivity.
Defined.


(** X7 at work: the model asks for the same search in the second round,
    and the second round sets the hint flag although the search was
    useful. *)
Lemma repeated_call_sets_hint_witness :
  let iter := iteration "ollama" "llama3" "You answer questions about code." ["grep"]
                        chat_always_search no_stream tools_find_main (fun s => s) false in
  let r0 := start None [] "1700000000" "What is Cobra?" in
  hintInjected (state (run_of (iter r0))) = false /\
  hintInjected (state (run_of (iter (run_of (iter r0))))) = true.
Proof.
  cbv zeta. split; [vm_compute; reflexivity |].
  destruct (repeated_call_sets_hint "ollama" "llama3" "You answer questions about code." ["grep"]
              chat_always_search no_stream tools_find_main (fun s => s) false
              None [] "1700000000" "What is Cobra?" 1
              (run_of (iteration "ollama" "llama3" "You answer questions about code." ["grep"]
                                 chat_always_search no_stream tools_find_main (fun s => s) false
                                 (start None [] "1700000000" "What is Cobra?")))
              ltac:(vm_compute; reflexivity)) as [_ H].
  apply (H [mkToolCall "call_1" "grep" "{}"] (mkToolCall "call_1" "grep" "{}")).
  - vm_compute. reflexivity.
  - left. reflexivity.
  - apply Nat.leb_le. vm_compute. reflexivity.
Defined.

(** X8 at work: after two rounds without a match the third request carries
    the hint. *)
Lemma hint_reaches_the_next_request_witness :
  let iter := iteration "ollama" "llama3" "You answer questions about code." ["grep"]
                        chat_silent_search no_stream tools_no_match (fun s => s) false in
  let r2 := run_of (iter (run_of (iter (start None [] "1700000000" "What is Cobra?")))) in
  emptyResultCount (state r2) = 2 /\
  map req_System (drop 2 (sent (run_of (iter r2))))
    = ["You answer questions about code." +:+ StuckLoopHint].
Proof.
  cbv zeta.
  set (iter := iteration "ollama" "llama3" "You answer questions about code." ["grep"]
                         chat_silent_search no_stream tools_no_match (fun s => s) false).
  set (r2 := run_of (iter (run_of (iter (start None [] "1700000000" "What is Cobra?"))))).
  assert (He : emptyResultCount (state r2) = 2) by (vm_compute; reflexivity).
  split; [exact He |].
  destruct (hint_reaches_the_next_request "ollama" "llama3" "You answer questions about code."
              ["grep"] chat_silent_search no_stream tools_no_match (fun s => s) false
              None [] "1700000000" "What is Cobra?" 2 r2 ltac:(vm_compute; reflexivity))
    as (Hsent & _ & Htwo & _).
  fold iter in Hsent. rewrite Hsent, (Htwo ltac:(rewrite He; lia)).
  assert (Hlen : length (sent r2) = 2) by (vm_compute; reflexivity).
  rewrite drop_app_length' by exact Hlen. reflexivity.
Defined.

(** X9 at work: the second request of a fresh conversation. *)
Lemma fresh_history_is_passed_on_witness :
  let iter := iteration "ollama" "llama3" "You answer questions about code." ["grep"]
                        chat_always_search no_stream tools_find_main (fun s => s) false in
  let r1 := run_of (iter (start None [] "1700000000" "What is Cobra?")) in
  exists req,
    sent (run_of (iter r1)) = sent r1 ++ [req] /\
    map p_Role (req_Messages req) = ["user"; "assistant"; "tool"] /\
    map p_Content (req_Messages req) =
      ["What is Cobra?"; "Let me search.";
       "main.go:12: func main() { cmd.Execute() } // entry point here"].
Proof.
  cbv zeta.
  set (iter := iteration "ollama" "llama3" "You answer questions about code." ["grep"]
                         chat_always_search no_stream tools_find_main (fun s => s) false).
  set (r1 := run_of (iter (start None [] "1700000000" "What is Cobra?"))).
  destruct (fresh_history_is_passed_on "ollama" "llama3" "You answer questions about code."
              ["grep"] chat_always_search no_stream tools_find_main (fun s => s) false
              [] "1700000000" "What is Cobra?" 1 r1 ltac:(vm_compute; reflexivity))
    as (req & Hsent & Hmsgs & _).
  exists req. split; [exact Hsent |]. rewrite Hmsgs. split; vm_compute; reflexivity.
Defined.

(** X10 at work: two text deltas, a tool call and the end of the stream. *)
Definition demo_events : list StreamEvent :=
  [mkStreamEvent StreamEventText "Let me " None "" None "";
   mkStreamEvent StreamEventText "search." None "" None "";
   mkStreamEvent StreamEventToolCall "" (Some (mkToolCall "call_1" "grep" "{}")) "" None "";
   mkStreamEvent StreamEventDone "" None "" (Some (mkUsage 10 5 15)) "tool_use"].

Lemma streamChat_assembles_the_reply_witness :
  exists resp,
    streamChat (fun _ _ => inr demo_events) 0 (mkChatRequest "llama3" "" [] [] 8192) = inr resp /\
    resp_Content resp = "Let me search." /\
    resp_ToolCalls resp = [mkToolCall "call_1" "grep" "{}"].
Proof.
  destruct (streamChat_assembles_the_reply (fun _ _ => inr demo_events) 0
              (mkChatRequest "llama3" "" [] [] 8192) demo_events eq_refl) as [H _].
  apply H. repeat constructor.
Defined.

(** ** Lines of a text *)

(** Whether a text holds a newline. *)
Fixpoint has_newline (s : string) : bool :=
  match s with
  | EmptyString => false
  | String c s' => Ascii.eqb c "010"%char || has_newline s'
  end.

Lemma SplitLines_not_nil (s : string) : gostrings.SplitLines s <> [].
Proof.
  induction s as [|c s IH]; simpl; [discriminate |].
  destruct (Ascii.eqb c "010"%char); [discriminate |].
  destruct (gostrings.SplitLines s); discriminate.
Qed.

(** A field followed by a newline is the first field of the text. *)
Lemma SplitLines_field (a rest : string) :
  has_newline a = false ->
  gostrings.SplitLines (a +:+ gostrings.nl +:+ rest) = a :: gostrings.SplitLines rest.
Proof.
  induction a as [|c a IH]; intros Ha.
  - reflexivity.
  - simpl in Ha. apply orb_false_elim in Ha as [Hc Ha].
    rewrite string_app_cons. simpl. rewrite Hc, (IH Ha). reflexivity.
Qed.

Lemma SplitLines_last (a : string) :
  has_newline a = false -> gostrings.SplitLines a = [a].
Proof.
  induction a as [|c a IH]; intros Ha; [reflexivity |].
  simpl in Ha. apply orb_false_elim in Ha as [Hc Ha].
  simpl. rewrite Hc, (IH Ha). reflexivity.
Qed.

Lemma SplitLines_fields (s : string) :
  Forall (fun f => has_newline f = false) (gostrings.SplitLines s).
Proof.
  induction s as [|c s IH]; simpl; [repeat constructor |].
  destruct (Ascii.eqb c "010"%char) eqn:Hc; [now constructor |].
  destruct (gostrings.SplitLines s) as [|f fs]; [repeat constructor; simpl; now rewrite Hc |].
  inversion IH; subst. constructor; [simpl; now rewrite Hc | assumption].
Qed.

(** Splitting what was joined gives the fields back, also when more text
    follows after a newline. *)
Lemma SplitLines_Join_more (fields : list string) (rest : string) :
  fields <> [] ->
  Forall (fun f => has_newline f = false) fields ->
  gostrings.SplitLines (gostrings.Join fields gostrings.nl +:+ gostrings.nl +:+ rest)
  = fields ++ gostrings.SplitLines rest.
Proof.
  intros Hne H. induction H as [|f fields Hf Hfs IH]; [congruence |].
  destruct fields as [|g fields].
  - cbn [gostrings.Join app]. now apply SplitLines_field.
  - change (gostrings.Join (f :: g :: fields) gostrings.nl)
      with (f +:+ gostrings.nl +:+ gostrings.Join (g :: fields) gostrings.nl).
    rewrite !string_app_assoc. rewrite (SplitLines_field f _ Hf).
    rewrite IH by discriminate. reflexivity.
Qed.

Lemma SplitLines_Join (fields : list string) :
  fields <> [] ->
  Forall (fun f => has_newline f = false) fields ->
  gostrings.SplitLines (gostrings.Join fields gostrings.nl) = fields.
Proof.
  intros Hne H. induction H as [|f fields Hf Hfs IH]; [congruence |].
  destruct fields as [|g fields].
  - cbn [gostrings.Join]. now apply SplitLines_last.
  - change (gostrings.Join (f :: g :: fields) gostrings.nl)
      with (f +:+ gostrings.nl +:+ gostrings.Join (g :: fields) gostrings.nl).
    rewrite (SplitLines_field f _ Hf), IH by discriminate. reflexivity.
Qed.

Lemma Join_SplitLines (s : string) :
  gostrings.Join (gostrings.SplitLines s) gostrings.nl = s.
Proof.
  induction s as [|c s IH]; [reflexivity |].
  simpl. pose proof (SplitLines_not_nil s) as Hne.
  destruct (Ascii.eqb_spec c "010"%char) as [-> | Hc].
  - destruct (gostrings.SplitLines s) as [|f fs]; [congruence |].
    change (gostrings.Join ("" :: f :: fs) gostrings.nl)
      with ("" +:+ gostrings.nl +:+ gostrings.Join (f :: fs) gostrings.nl).
    rewrite IH. reflexivity.
  - destruct (gostrings.SplitLines s) as [|f fs]; [congruence |].
    destruct fs as [|g fs].
    + cbn [gostrings.Join] in *. now rewrite IH.
    + change (gostrings.Join (String c f :: g :: fs) gostrings.nl)
        with (String c f +:+ gostrings.nl +:+ gostrings.Join (g :: fs) gostrings.nl).
      change (gostrings.Join (f :: g :: fs) gostrings.nl)
        with (f +:+ gostrings.nl +:+ gostrings.Join (g :: fs) gostrings.nl) in IH.
      rewrite string_app_cons, IH. reflexivity.
Qed.

(** ** The registry and truncation, continued *)

Section RegistryMore.

Variable MkdirAll : string -> bool.
Variable WriteFile : string -> string -> bool.
Variable randomID : string.

Local Abbreviation Registry_Execute := (tool.Registry_Execute MkdirAll WriteFile randomID).

(** X11.  The registry writes a file only for a tool result over a ceiling,
    with an output directory set: then it writes exactly one file, the side
    file of the call, holding the tool's complete output, and the result it
    returns is marked truncated, names that file as its [outputPath] and
    ends its preview with the pointer to it.  An unknown tool, a failed tool
    and a result within the ceilings never write anything. *)
Theorem registry_writes_only_full_outputs (reg : tool.Registry) (name args path data : string) :
  let out := Registry_Execute reg name args in
  In (path, data) (snd out) ->
  exists t result result',
    tool.tools reg !! name = Some t /\
    tool.Execute t args = inr (Some result) /\
    tool.outputDir reg <> "" /\
    over_ceiling (tool.Output result) /\
    data = tool.Output result /\
    path = side_file randomID (tool.GetTruncationConfig reg name) /\
    snd out = [(path, data)] /\
    fst out = inr (Some result') /\
    tool.Metadata result' !! "outputPath" = Some (tool.any_string path) /\
    tool.Metadata result' !! "truncated" = Some (tool.any_bool true) /\
    tool.Output result' = preview (tool.Output result) +:+ file_note path.
Proof.
  cbv zeta. intros Hin.
  destruct (tool.tools reg !! name) as [t |] eqn:Htool;
    [| unfold tool.Registry_Execute in Hin; rewrite Htool in Hin; destruct Hin].
  destruct (tool.Execute t args) as [err | [result |]] eqn:Hexec;
    try (unfold tool.Registry_Execute in Hin; rewrite Htool, Hexec in Hin; destruct Hin).
  rewrite (Registry_Execute_result MkdirAll WriteFile randomID reg name args t result Htool Hexec)
    in *.
  cbv zeta in *.
  destruct (String.eqb_spec (tool.outputDir reg) "") as [| Hdir]; [destruct Hin |].
  destruct (_ || _) eqn:Hover; [| destruct Hin].
  apply over_ceiling_dec in Hover.
  destruct (stored _ _ _ _ _); [| destruct Hin].
  destruct Hin as [Heq | []]. injection Heq as <- <-.
  exists t, result. eexists. repeat split; try assumption; cbn [fst snd tool.Metadata tool.Output].
  - apply lookup_insert_eq.
  - rewrite lookup_insert_ne by discriminate. apply lookup_insert_eq.
Qed.

(** X12.  A call of a tool that is not registered fails with a message
    that holds "not found", and writes nothing; the content the loop makes
    of it, "Error: " followed by the message, is classified as a non-useful
    result, so that a model that keeps calling unknown tools runs into the
    stuck-loop stop. *)
Theorem unknown_tool_is_fruitless (reg : tool.Registry) (name args : string) :
  tool.tools reg !! name = None ->
  exists err,
    Registry_Execute reg name args = (inl err, []) /\
    isEmptyResult ("Error: " +:+ err) = true.
Proof.
  intros Hnone. unfold tool.Registry_Execute. rewrite Hnone. eexists. split; [reflexivity |].
  unfold isEmptyResult. cbv zeta.
  assert (H : gostrings.Contains
                (gostrings.ToLower
                   ("Error: " +:+ "tool " +:+ dq +:+ name +:+ dq
                    +:+ " not found. Available tools: grep, glob, read, list"))
                "not found" = true).
  { apply Contains_ToLower; [reflexivity |].
    exists ("Error: tool " +:+ dq +:+ name +:+ dq +:+ " "), "not found",
           ". Available tools: grep, glob, read, list".
    split; [| reflexivity].
    rewrite !string_app_assoc. reflexivity. }
  rewrite H. now rewrite orb_true_r.
Qed.

End RegistryMore.

(** X13.  When an output has more than 500 lines and the line cut fits
    under the byte ceiling, the preview begins with the first 500 lines of
    the output, unchanged and in order. *)
Theorem preview_keeps_the_first_lines (output : string) :
  tool.MaxOutputLines < length (gostrings.SplitLines output) ->
  String.length (line_cut output) <= tool.MaxOutputBytes ->
  take tool.MaxOutputLines (gostrings.SplitLines (preview output))
  = take tool.MaxOutputLines (gostrings.SplitLines output).
Proof.
  intros Hlines Hfit.
  destruct (preview_cases output) as [Hprev _]. rewrite (Hprev Hfit).
  unfold line_cut. cbv zeta. apply Nat.ltb_lt in Hlines as Hlt. rewrite Hlt.
  unfold line_note. rewrite SplitLines_Join_more.
  - apply take_app_length'. rewrite length_take. lia.
  - intros H. apply (f_equal (@length _)) in H. rewrite length_take in H.
    cbn [length] in H. unfold tool.MaxOutputLines in *. lia.
  - apply Forall_take, SplitLines_fields.
Qed.

(** ** The read tool *)

(** A line as the read tool shows it: cut to 2000 bytes and marked when
    longer. *)
Definition clip (token : string) : string :=
  if tool.maxLineLength <? String.length token then
    gostrings.slice_to tool.maxLineLength token +:+ "..."
  else token.

(** The bytes the read tool counts for the lines it keeps: each line and
    its newline. *)
Fixpoint bytes_of (lines : list string) : nat :=
  match lines with
  | [] => 0
  | line :: rest => String.length line + 1 + bytes_of rest
  end.

Lemma bytes_of_app (l1 l2 : list string) : bytes_of (l1 ++ l2) = bytes_of l1 + bytes_of l2.
Proof. induction l1 as [|a l1 IH]; simpl; [reflexivity | rewrite IH; lia]. Qed.

Lemma clip_length (token : string) : String.length (clip token) <= tool.maxLineLength + 3.
Proof.
  unfold clip. destruct (Nat.ltb_spec tool.maxLineLength (String.length token)) as [H | H].
  - rewrite string_app_length, slice_to_length. change (String.length "...") with 3. lia.
  - lia.
Qed.

(** The lines before the offset are passed over. *)
Lemma readLines_skipping (offset limit : Z) (pre rest : list string) :
  forall (lineNum : Z) (lines : list string) (bytesRead : nat),
    (lineNum + Z.of_nat (length pre) <= offset)%Z ->
    tool.readLines offset limit (pre ++ rest) lineNum lines bytesRead =
    tool.readLines offset limit rest (lineNum + Z.of_nat (length pre)) lines bytesRead.
Proof.
  induction pre as [|token pre IH]; intros lineNum lines bytesRead H.
  - cbn. now rewrite Z.add_0_r.
  - cbn [app tool.readLines length] in *. cbv zeta.
    destruct (Z.leb_spec (lineNum + 1) offset) as [_ | Hgt]; [| lia].
    rewrite IH by lia. f_equal. lia.
Qed.

(** Past the offset the loop keeps line after line until the limit or the
    byte ceiling stops it. *)
Lemma readLines_reading (offset limit : Z) (tokens : list string) :
  forall (lineNum : Z) (lines : list string) (bytesRead : nat),
    tokens = [] \/ (offset <= lineNum)%Z ->
    exists lineNum' truncated broke k,
      tool.readLines offset limit tokens lineNum lines bytesRead
        = (lineNum', lines ++ map clip (take k tokens), truncated, broke) /\
      k <= length tokens /\
      (k = 0 \/ (Z.of_nat (length lines + k) <= limit)%Z) /\
      (bytesRead <= tool.maxBytes ->
       bytesRead + bytes_of (map clip (take k tokens)) <= tool.maxBytes) /\
      lineNum' = (lineNum + Z.of_nat k + (if broke then 1 else 0))%Z /\
      (broke = false -> k = length tokens /\ truncated = false) /\
      (truncated = false -> broke = true -> (limit <= Z.of_nat (length lines + k))%Z) /\
      (truncated = true ->
       exists next, tokens !! k = Some next /\
         tool.maxBytes < bytesRead + bytes_of (map clip (take k tokens))
                         + (String.length (clip next) + 1)).
Proof.
  induction tokens as [|token rest IH]; intros lineNum lines bytesRead Hpast.
  - exists lineNum, false, false, 0. cbn [tool.readLines take map app bytes_of length].
    rewrite app_nil_r.
    repeat split; try lia; try discriminate.
  - destruct Hpast as [Hnil | Hpast]; [discriminate |].
    cbn [tool.readLines]. cbv zeta.
    destruct (Z.leb_spec (lineNum + 1) offset) as [Hle | _]; [lia |].
    destruct (Z.leb_spec limit (Z.of_nat (length lines))) as [Hfull | Hroom].
    { exists (lineNum + 1)%Z, false, true, 0. cbn [take map app bytes_of length].
      rewrite app_nil_r.
      repeat split; try lia; try discriminate. }
    fold (clip token).
    destruct (Nat.ltb_spec tool.maxBytes (bytesRead + (String.length (clip token) + 1)))
      as [Hover | Hfits].
    { exists (lineNum + 1)%Z, true, true, 0. cbn [take map app bytes_of]. rewrite app_nil_r.
      repeat split; try lia; try discriminate.
      intros _. exists token. split; [reflexivity | lia]. }
    destruct (IH (lineNum + 1)%Z (lines ++ [clip token])
                 (bytesRead + (String.length (clip token) + 1)) ltac:(right; lia))
      as (lineNum' & truncated & broke & k & Hrun & Hk & Hlim & Hbytes & Hnum & Hdone & Hstop
          & Hcut).
    exists lineNum', truncated, broke, (S k).
    rewrite Hrun, <- app_assoc. cbn [take map app bytes_of length].
    rewrite length_app in Hlim, Hstop. cbn [length] in Hlim, Hstop.
    split; [reflexivity |].
    split; [lia |].
    split; [right; lia |].
    split; [intros Hb; specialize (Hbytes Hfits); lia |].
    split; [lia |].
    split; [intros Hb; destruct (Hdone Hb); split; [lia | assumption] |].
    split; [intros Ht Hb; specialize (Hstop Ht Hb); lia |].
    intros Ht. destruct (Hcut Ht) as (next & Hnext & Hlarge).
    exists next. split; [exact Hnext | lia].
Qed.


(** X14.  The scan loop of the read tool returns a window of the file's
    lines: the lines that follow the first [offset] lines, in order, each
    cut to 2000 bytes plus "..." when longer.  The window never has more
    lines than [limit], never counts more than 50 KB (each line with its
    newline), and holds every line up to the limit or the end of the file
    unless the byte ceiling stopped it, in which case the next line would
    not have fit.  When the loop runs to the end of the file, the line
    count it reports is the number of lines of the file. *)
Theorem read_loop_returns_the_window (offset limit : Z) (tokens : list string) :
  exists lineNum lines truncated broke k,
    tool.readLines offset limit tokens 0 [] 0 = (lineNum, lines, truncated, broke) /\
    lines = map clip (take k (drop (Z.to_nat offset) tokens)) /\
    (Z.of_nat (length lines) <= Z.max 0 limit)%Z /\
    bytes_of lines <= tool.maxBytes /\
    Forall (fun line => String.length line <= tool.maxLineLength + 3) lines /\
    (truncated = false ->
     k = Nat.min (Z.to_nat limit) (length tokens - Z.to_nat offset)) /\
    (truncated = true ->
     exists next,
       drop (Z.to_nat offset) tokens !! k = Some next /\
       tool.maxBytes < bytes_of lines + (String.length (clip next) + 1)) /\
    (broke = false -> lineNum = Z.of_nat (length tokens)).
Proof.
  set (s := Z.to_nat offset).
  assert (Hsplit : tool.readLines offset limit tokens 0 [] 0 =
                   tool.readLines offset limit (drop s tokens)
                                  (Z.of_nat (length (take s tokens))) [] 0).
  { rewrite <- (take_drop s tokens) at 1.
    destruct (Z.le_gt_cases 0 offset) as [Hpos | Hneg].
    - rewrite readLines_skipping; [reflexivity |]. rewrite length_take. lia.
    - replace s with 0 by lia. reflexivity. }
  destruct (readLines_reading offset limit (drop s tokens)
              (Z.of_nat (length (take s tokens))) [] 0)
    as (lineNum' & truncated & broke & k & Hrun & Hk & Hlim & Hbytes & Hnum & Hdone & Hstop
        & Hcut).
  { destruct (Nat.le_gt_cases (length tokens) s) as [Hshort | Hlong].
    - left. now apply drop_ge.
    - right. rewrite length_take. lia. }
  exists lineNum', (map clip (take k (drop s tokens))), truncated, broke, k.
  rewrite Hsplit, Hrun. cbn [app length] in *.
  rewrite length_drop in Hk.
  split; [reflexivity | split; [reflexivity |]].
  rewrite length_map, length_take, length_drop.
  split; [lia |].
  split; [apply Hbytes; lia |].
  split.
  { apply Forall_forall. intros line Hin. apply list_elem_of_In, in_map_iff in Hin.
    destruct Hin as (token & <- & _). apply clip_length. }
  split.
  { intros Ht. destruct broke.
    - specialize (Hstop Ht eq_refl). lia.
    - destruct (Hdone eq_refl) as [Hall _]. rewrite length_drop in Hall. lia. }
  split.
  { intros Ht. destruct (Hcut Ht) as (next & Hnext & Hlarge). exists next. split; [exact Hnext | lia]. }
  intros Hb. destruct (Hdone Hb) as [Hall _]. rewrite length_drop in Hall.
  rewrite Hnum, Hb, length_take. lia.
Qed.

(** *** Binary files, in the search and in the read tool *)

Lemma slice_to_empty (n : nat) (s : string) :
  String.length (gostrings.slice_to (S n) s) = 0 -> s = "".
Proof. destruct s; [reflexivity | discriminate]. Qed.

Lemma hasNull_slice_mono (n m : nat) (s : string) :
  n <= m ->
  gostrings.hasNull (gostrings.slice_to n s) = true ->
  gostrings.hasNull (gostrings.slice_to m s) = true.
Proof.
  revert m s; induction n as [|n IH]; intros m s Hle H; [discriminate |].
  destruct s as [|c s]; [discriminate |].
  destruct m as [|m]; [lia |].
  cbn [gostrings.slice_to gostrings.hasNull] in *.
  apply orb_true_iff in H as [H | H]; [now rewrite H |].
  rewrite (IH m s ltac:(lia) H). apply orb_true_r.
Qed.

(** A file that content search passes over as binary fails a binary check
    of the read tool. *)
Lemma binary_for_search_binary_for_read (ReadFile : string -> string + string)
    (path data : string) :
  ReadFile path = inr data ->
  search.isBinaryFile path data = true ->
  tool.isBinaryExtension path || fst (tool.IsBinaryContent ReadFile path) = true.
Proof.
  intros Hread Hbin.
  unfold search.isBinaryFile in Hbin. cbv zeta in Hbin.
  change (existsb (String.eqb (gostrings.ToLower (filepath.Ext path))) search.binaryExtensions)
    with (tool.isBinaryExtension path) in Hbin.
  destruct (tool.isBinaryExtension path); [reflexivity |].
  cbn [orb]. unfold tool.IsBinaryContent. rewrite Hread. cbv zeta.
  destruct (Nat.eqb_spec (String.length (gostrings.slice_to 512 data)) 0) as [Hzero | _].
  - apply slice_to_empty in Hzero. subst data. reflexivity.
  - destruct (String.length (gostrings.slice_to 4096 data) =? 0); [reflexivity |].
    rewrite (hasNull_slice_mono 512 4096 data ltac:(lia) Hbin). reflexivity.
Qed.

Section ReadMore.

Variable workingDir : string.
Variable json_Unmarshal : string -> string + tool.readArgs.
Variable Stat : string -> tool.StatResult.
Variable ReadFile : string -> string + string.
Variable SuggestSimilarFiles : string -> nat -> list string.
Variable Rel : string -> string -> string.

Local Abbreviation ReadTool_Execute :=
  (tool.ReadTool_Execute workingDir json_Unmarshal Stat ReadFile SuggestSimilarFiles Rel).

(** The path the read tool resolves its argument to. *)
Definition resolved (a : tool.readArgs) : string :=
  if negb (filepath.IsAbs (tool.FilePath a)) then filepath.Join workingDir (tool.FilePath a)
  else tool.FilePath a.

(** X15.  The two binary checks agree in one direction: a regular file
    that content search passes over as binary (by its extension, because it
    is empty, or for a null byte among its first 512 bytes) is never shown
    by the read tool, which answers "cannot read binary file". *)
Theorem read_refuses_what_search_skips (args : string) (a : tool.readArgs) (data : string) :
  json_Unmarshal args = inr a ->
  tool.FilePath a <> "" ->
  Stat (resolved a) = tool.StatInfo false ->
  ReadFile (resolved a) = inr data ->
  search.isBinaryFile (resolved a) data = true ->
  ReadTool_Execute args = inl ("cannot read binary file: " +:+ resolved a).
Proof.
  intros Hargs Hpath Hstat Hread Hbin.
  pose proof (binary_for_search_binary_for_read ReadFile (resolved a) data Hread Hbin) as H.
  unfold tool.ReadTool_Execute. rewrite Hargs.
  apply String.eqb_neq in Hpath. rewrite Hpath. cbv zeta. fold (resolved a).
  rewrite Hstat.
  destruct (tool.isBinaryExtension (resolved a)); [reflexivity |].
  cbn [orb] in H. now rewrite H.
Qed.



End ReadMore.

(** ** Similar file names *)

(** *** The edit distance *)

(** An edit script that turns the bytes [a] into the bytes [b], with its
    cost: a byte of [a] is deleted (cost 1), a byte of [b] inserted (cost
    1), a byte kept (cost 0) or replaced by a different one (cost 1). *)
Inductive edits : list Ascii.ascii -> list Ascii.ascii -> nat -> Prop :=
| edits_nil : edits [] [] 0
| edits_delete (x : Ascii.ascii) (a b : list Ascii.ascii) (n : nat) :
    edits a b n -> edits (x :: a) b (S n)
| edits_insert (y : Ascii.ascii) (a b : list Ascii.ascii) (n : nat) :
    edits a b n -> edits a (y :: b) (S n)
| edits_keep (x : Ascii.ascii) (a b : list Ascii.ascii) (n : nat) :
    edits a b n -> edits (x :: a) (x :: b) n
| edits_replace (x y : Ascii.ascii) (a b : list Ascii.ascii) (n : nat) :
    x <> y -> edits a b n -> edits (x :: a) (y :: b) (S n).

(** The recurrence of the matrix, as a function of the two texts read from
    their ends: [lev ra rb] for the reversed prefixes [ra] and [rb]. *)
Fixpoint lev (a : list Ascii.ascii) : list Ascii.ascii -> nat :=
  match a with
  | [] => fun b => length b
  | x :: a' =>
      fix lev_row (b : list Ascii.ascii) : nat :=
        match b with
        | [] => S (length a')
        | y :: b' =>
            tool.min (lev a' b + 1) (lev_row b' + 1)
                     (lev a' b' + (if Ascii.eqb x y then 0 else 1))
        end
  end.

Lemma min_spec (a b c : nat) : tool.min a b c = Nat.min a (Nat.min b c).
Proof.
  unfold tool.min.
  destruct (Nat.ltb_spec a b); destruct (Nat.ltb_spec a c); destruct (Nat.ltb_spec b c); lia.
Qed.

Lemma lev_nil_r (a : list Ascii.ascii) : lev a [] = length a.
Proof. destruct a; reflexivity. Qed.

Lemma lev_cons (x y : Ascii.ascii) (a b : list Ascii.ascii) :
  lev (x :: a) (y :: b) =
  Nat.min (lev a (y :: b) + 1)
          (Nat.min (lev (x :: a) b + 1) (lev a b + (if Ascii.eqb x y then 0 else 1))).
Proof. cbn [lev]. now rewrite min_spec. Qed.

(** The recurrence yields the cost of a script ... *)
Lemma lev_sound (a b : list Ascii.ascii) : edits a b (lev a b).
Proof.
  revert b; induction a as [|x a IHa]; intros b.
  - cbn. induction b as [|y b IHb]; [apply edits_nil | now apply edits_insert].
  - induction b as [|y b IHb].
    + rewrite lev_nil_r. cbn [length]. apply edits_delete. specialize (IHa []).
      now rewrite lev_nil_r in IHa.
    + rewrite lev_cons.
      destruct (Nat.min_spec (lev a (y :: b) + 1)
                  (Nat.min (lev (x :: a) b + 1)
                           (lev a b + (if Ascii.eqb x y then 0 else 1)))) as [[_ ->] | [_ ->]].
      * rewrite Nat.add_1_r. apply edits_delete. apply IHa.
      * destruct (Nat.min_spec (lev (x :: a) b + 1)
                    (lev a b + (if Ascii.eqb x y then 0 else 1))) as [[_ ->] | [_ ->]].
        -- rewrite Nat.add_1_r. apply edits_insert. exact IHb.
        -- destruct (Ascii.eqb_spec x y) as [<- | Hne].
           ++ rewrite Nat.add_0_r. apply edits_keep. apply IHa.
           ++ rewrite Nat.add_1_r. apply edits_replace; [exact Hne | apply IHa].
Qed.

(** ... and no script is cheaper. *)
Lemma lev_least (a b : list Ascii.ascii) (n : nat) : edits a b n -> lev a b <= n.
Proof.
  induction 1 as [| x a b n _ IH | y a b n _ IH | x a b n _ IH | x y a b n Hne _ IH].
  - cbn. lia.
  - destruct b as [|y b]; [rewrite lev_nil_r in *; cbn [length]; lia |].
    rewrite lev_cons. lia.
  - destruct a as [|x a]; [cbn in *; lia |].
    rewrite lev_cons. lia.
  - rewrite lev_cons, Ascii.eqb_refl. lia.
  - rewrite lev_cons. apply Ascii.eqb_neq in Hne. rewrite Hne. lia.
Qed.

(** Scripts can be extended at the end as well as at the front, so the
    scripts between two texts are those between the reversed texts. *)
Lemma edits_snoc (a b : list Ascii.ascii) (n : nat) :
  edits a b n ->
  (forall x, edits (a ++ [x]) b (S n)) /\
  (forall y, edits a (b ++ [y]) (S n)) /\
  (forall x, edits (a ++ [x]) (b ++ [x]) n) /\
  (forall x y, x <> y -> edits (a ++ [x]) (b ++ [y]) (S n)).
Proof.
  induction 1 as [| x' a b n _ IH | y' a b n _ IH | x' a b n _ IH | x' y' a b n Hne _ IH].
  - split; [| split; [| split]]; intros; cbn.
    + apply edits_delete, edits_nil.
    + apply edits_insert, edits_nil.
    + apply edits_keep, edits_nil.
    + apply edits_replace; [assumption | apply edits_nil].
  - destruct IH as (I1 & I2 & I3 & I4).
    split; [| split; [| split]]; intros; cbn; apply edits_delete; auto.
  - destruct IH as (I1 & I2 & I3 & I4).
    split; [| split; [| split]]; intros; cbn; apply edits_insert; auto.
  - destruct IH as (I1 & I2 & I3 & I4).
    split; [| split; [| split]]; intros; cbn; apply edits_keep; auto.
  - destruct IH as (I1 & I2 & I3 & I4).
    split; [| split; [| split]]; intros; cbn; apply edits_replace; auto.
Qed.

Lemma edits_rev (a b : list Ascii.ascii) (n : nat) : edits a b n -> edits (rev a) (rev b) n.
Proof.
  induction 1 as [| x a b n _ IH | y a b n _ IH | x a b n _ IH | x y a b n Hne _ IH]; cbn.
  - apply edits_nil.
  - now apply edits_snoc.
  - now apply edits_snoc.
  - now apply edits_snoc.
  - now apply edits_snoc.
Qed.

Lemma edits_sym (a b : list Ascii.ascii) (n : nat) : edits a b n -> edits b a n.
Proof.
  induction 1 as [| x a b n _ IH | y a b n _ IH | x a b n _ IH | x y a b n Hne _ IH].
  - apply edits_nil.
  - now apply edits_insert.
  - now apply edits_delete.
  - now apply edits_keep.
  - apply edits_replace; [congruence | assumption].
Qed.

Lemma edits_zero (a b : list Ascii.ascii) (n : nat) : edits a b n -> n = 0 -> a = b.
Proof. induction 1; intros Hn; try discriminate; [reflexivity | f_equal; auto]. Qed.

Lemma edits_refl (a : list Ascii.ascii) : edits a a 0.
Proof. induction a; [apply edits_nil | now apply edits_keep]. Qed.

Lemma edits_lengths (a b : list Ascii.ascii) (n : nat) :
  edits a b n -> length a <= length b + n /\ length b <= length a + n.
Proof. induction 1; cbn; lia. Qed.

(** Replace along the common length, then delete or insert the rest. *)
Lemma edits_within_longer (a b : list Ascii.ascii) :
  exists n, edits a b n /\ n <= Nat.max (length a) (length b).
Proof.
  revert b; induction a as [|x a IH]; intros b.
  - induction b as [|y b (n & Hn & Hle)]; [exists 0; split; [apply edits_nil | lia] |].
    exists (S n). split; [now apply edits_insert | cbn in *; lia].
  - destruct b as [|y b].
    + destruct (IH []) as (n & Hn & Hle).
      exists (S n). split; [now apply edits_delete | cbn in *; lia].
    + destruct (IH b) as (n & Hn & Hle).
      destruct (Ascii.eqb_spec x y) as [<- | Hne].
      * exists n. split; [now apply edits_keep | cbn; lia].
      * exists (S n). split; [now apply edits_replace | cbn; lia].
Qed.

(** *** The matrix *)

Local Abbreviation bytes := String.list_ascii_of_string.

Lemma bytes_length (s : string) : length (bytes s) = String.length s.
Proof. induction s; cbn; congruence. Qed.

Lemma bytes_inj (s t : string) : bytes s = bytes t -> s = t.
Proof.
  intros H. rewrite <- (String.string_of_list_ascii_of_string s),
                    <- (String.string_of_list_ascii_of_string t). now rewrite H.
Qed.

(** The cells of a row from the column behind the bytes [rb] (reversed) on,
    [b'] being the bytes still to come: the recurrence at the prefixes. *)
Definition row_from (ra rb b' : list Ascii.ascii) : list nat :=
  map (fun k => lev ra (rev_append (take k b') rb)) (seq 0 (S (length b'))).

Lemma row_from_cons (ra rb : list Ascii.ascii) (y : Ascii.ascii) (b' : list Ascii.ascii) :
  row_from ra rb (y :: b') = lev ra rb :: row_from ra (y :: rb) b'.
Proof.
  unfold row_from. cbn [length seq map take rev_append].
  f_equal. rewrite <- seq_shift, map_map. reflexivity.
Qed.

Lemma row_from_head (ra rb b' : list Ascii.ascii) :
  row_from ra rb b' = lev ra rb :: List.tl (row_from ra rb b').
Proof. destruct b'; [reflexivity | now rewrite row_from_cons]. Qed.

(** The inner loop fills the row of [x :: ra] from the row of [ra]. *)
Lemma fillRow_spec (x : Ascii.ascii) (ra : list Ascii.ascii) (b' : string) :
  forall rb : list Ascii.ascii,
    tool.fillRow x b' (row_from ra rb (bytes b')) (lev (x :: ra) rb)
    = List.tl (row_from (x :: ra) rb (bytes b')).
Proof.
  induction b' as [|y b' IH]; intros rb.
  - reflexivity.
  - cbn [bytes]. rewrite !row_from_cons. cbn [List.tl].
    rewrite (row_from_head ra (y :: rb)). cbn [tool.fillRow]. cbv zeta.
    rewrite <- (row_from_head ra (y :: rb)).
    assert (Hcell : tool.min (lev ra (y :: rb) + 1) (lev (x :: ra) rb + 1)
                             (lev ra rb + (if Ascii.eqb x y then 0 else 1))
                    = lev (x :: ra) (y :: rb)) by reflexivity.
    rewrite Hcell, IH. symmetry. apply row_from_head.
Qed.

(** The outer loop: row after row. *)
Lemma fillRows_spec (b : string) (a' : string) :
  forall (ra : list Ascii.ascii) (i j : nat),
    i = S (length ra) ->
    j < String.length a' ->
    tool.fillRows a' b i (row_from ra [] (bytes b)) !! j
    = Some (row_from (rev_append (take (S j) (bytes a')) ra) [] (bytes b)).
Proof.
  induction a' as [|x a' IH]; intros ra i j Hi Hj; [cbn in Hj; lia |].
  cbn [tool.fillRows]. cbv zeta.
  assert (Hrow : i :: tool.fillRow x b (row_from ra [] (bytes b)) i
                 = row_from (x :: ra) [] (bytes b)).
  { rewrite (row_from_head (x :: ra)). rewrite <- fillRow_spec. cbn [lev]. now subst i. }
  rewrite Hrow. destruct j as [|j]; [reflexivity |].
  cbn [bytes take rev_append]. cbn in Hj.
  replace ((row_from (x :: ra) [] (bytes b)
            :: tool.fillRows a' b (S i) (row_from (x :: ra) [] (bytes b))) !! S j)
    with (tool.fillRows a' b (S i) (row_from (x :: ra) [] (bytes b)) !! j) by reflexivity.
  apply (IH (x :: ra) (S i) j); [cbn; lia | lia].
Qed.

Lemma row_zero (b : list Ascii.ascii) : row_from [] [] b = seq 0 (S (length b)).
Proof.
  unfold row_from. rewrite <- (map_id (seq 0 (S (length b)))) at 2.
  apply map_ext_in. intros k Hk. apply in_seq in Hk. cbn [lev].
  rewrite rev_append_rev, app_nil_r, length_rev, length_take. lia.
Qed.

Lemma row_from_lookup (ra b : list Ascii.ascii) (k : nat) :
  k <= length b ->
  row_from ra [] b !! k = Some (lev ra (rev (take k b))).
Proof.
  intros Hk. unfold row_from. rewrite list_lookup_fmap.
  rewrite lookup_seq_lt by lia. cbn. now rewrite rev_append_rev, app_nil_r.
Qed.

(** The cell the function returns is the recurrence at the two whole
    texts, read from their ends. *)
Lemma levenshteinDistance_lev (a b : string) :
  tool.levenshteinDistance a b = lev (rev (bytes a)) (rev (bytes b)).
Proof.
  unfold tool.levenshteinDistance.
  destruct (Nat.eqb_spec (String.length a) 0) as [Ha | Ha].
  { destruct a; [| discriminate]. cbn. now rewrite length_rev, bytes_length. }
  destruct (Nat.eqb_spec (String.length b) 0) as [Hb | Hb].
  { destruct b; [| discriminate]. cbn [bytes rev]. now rewrite lev_nil_r, length_rev, bytes_length. }
  cbv zeta. rewrite <- (bytes_length b), <- row_zero.
  destruct (String.length a) as [|n] eqn:Hlen; [congruence |].
  replace ((row_from [] [] (bytes b) :: tool.fillRows a b 1 (row_from [] [] (bytes b))) !! S n)
    with (tool.fillRows a b 1 (row_from [] [] (bytes b)) !! n) by reflexivity.
  rewrite (fillRows_spec b a [] 1 n eq_refl ltac:(lia)).
  rewrite row_from_lookup by lia. cbn [default].
  rewrite rev_append_rev, app_nil_r, <- Hlen, <- bytes_length.
  now rewrite !firstn_all.
Qed.

(** The distance is the cost of a script, and of a cheapest one. *)
Lemma levenshteinDistance_edits (a b : string) :
  edits (bytes a) (bytes b) (tool.levenshteinDistance a b) /\
  (forall n, edits (bytes a) (bytes b) n -> tool.levenshteinDistance a b <= n).
Proof.
  rewrite levenshteinDistance_lev. split.
  - rewrite <- (rev_involutive (bytes a)) at 1. rewrite <- (rev_involutive (bytes b)) at 1.
    apply edits_rev, lev_sound.
  - intros n H. apply lev_least, edits_rev, H.
Qed.

(** X17.  [levenshteinDistance] computes the edit distance: the value it
    reads from its matrix is the cost of a script of deletions, insertions
    and replacements of single bytes that turns [a] into [b], and no such
    script costs less. *)
Theorem levenshteinDistance_is_the_least_cost (a b : string) :
  edits (bytes a) (bytes b) (tool.levenshteinDistance a b) /\
  (forall n, edits (bytes a) (bytes b) n -> tool.levenshteinDistance a b <= n).
Proof.
  rewrite levenshteinDistance_lev. split.
  - rewrite <- (rev_involutive (bytes a)) at 1. rewrite <- (rev_involutive (bytes b)) at 1.
    apply edits_rev, lev_sound.
  - intros n H. apply lev_least, edits_rev, H.
Qed.

Lemma levenshteinDistance_sym (a b : string) :
  tool.levenshteinDistance a b = tool.levenshteinDistance b a.
Proof.
  destruct (levenshteinDistance_edits a b) as [Hab Hmin_ab].
  destruct (levenshteinDistance_edits b a) as [Hba Hmin_ba].
  apply Nat.le_antisymm.
  - apply Hmin_ab, edits_sym, Hba.
  - apply Hmin_ba, edits_sym, Hab.
Qed.

Lemma levenshteinDistance_zero (a b : string) :
  tool.levenshteinDistance a b = 0 <-> a = b.
Proof.
  destruct (levenshteinDistance_edits a b) as [Hab Hmin]. split.
  - intros H. apply bytes_inj. exact (edits_zero _ _ _ Hab H).
  - intros ->. specialize (Hmin 0 (edits_refl _)). lia.
Qed.

(** X18.  The distance is zero exactly between equal strings, is the same
    in both directions, is at most the length of the longer string, and at
    least the difference of the two lengths. *)
Theorem levenshteinDistance_is_a_distance (a b : string) :
  (tool.levenshteinDistance a b = 0 <-> a = b) /\
  tool.levenshteinDistance a b = tool.levenshteinDistance b a /\
  tool.levenshteinDistance a b <= Nat.max (String.length a) (String.length b) /\
  String.length a <= String.length b + tool.levenshteinDistance a b /\
  String.length b <= String.length a + tool.levenshteinDistance a b.
Proof.
  split; [apply levenshteinDistance_zero |].
  split; [apply levenshteinDistance_sym |].
  destruct (levenshteinDistance_edits a b) as [Hab Hmin].
  destruct (edits_within_longer (bytes a) (bytes b)) as (n & Hn & Hle).
  specialize (Hmin n Hn). apply edits_lengths in Hab.
  rewrite !bytes_length in *. lia.
Qed.

(** *** The similarity score *)

Lemma commonPrefix_sym (a b : string) : tool.commonPrefix a b = tool.commonPrefix b a.
Proof.
  revert b; induction a as [|x a IH]; intros [|y b]; cbn; try reflexivity.
  rewrite (Ascii.eqb_sym x y). destruct (Ascii.eqb y x); [now rewrite IH | reflexivity].
Qed.

(** X19.  The similarity score is 0 exactly for equal names, it does not
    depend on the order of the two names, and it is either below 10
    (similar: 1 to 8) or 100 (not similar). *)
Theorem calculateSimilarity_score (a b : string) :
  (tool.calculateSimilarity a b = 0 <-> a = b) /\
  tool.calculateSimilarity a b = tool.calculateSimilarity b a /\
  (tool.calculateSimilarity a b <= 8 \/ tool.calculateSimilarity a b = 100).
Proof.
  unfold tool.calculateSimilarity. cbv zeta.
  rewrite (String.eqb_sym b a), (orb_comm (gostrings.Contains b a)).
  rewrite (String.eqb_sym (gostrings.TrimSuffix b (filepath.Ext b))),
          (orb_comm (gostrings.Contains (gostrings.TrimSuffix b (filepath.Ext b)) _)).
  rewrite (levenshteinDistance_sym b a), (commonPrefix_sym b a).
  split; [| split; [reflexivity |]].
  - destruct (String.eqb_spec a b) as [-> | Hne]; [tauto |].
    split; [| contradiction].
    repeat match goal with
           | |- context [if ?c then _ else _] => destruct c
           end; intros H; try discriminate H; lia.
  - repeat match goal with
           | |- context [if ?c then _ else _] => destruct c eqn:?
           end; try (left; lia); try (right; reflexivity).
    left. match goal with H : (_ <=? 3) = true |- _ => apply Nat.leb_le in H end. lia.
Qed.

(** *** The suggestions *)

Lemma insertLeft_ext {A} (less less' : A -> A -> bool) (x : A) (rl : list A) :
  (forall a b, less a b = less' a b) ->
  search.insertLeft less x rl = search.insertLeft less' x rl.
Proof.
  intros H. induction rl as [|y rl IH]; cbn; [reflexivity |].
  rewrite H, IH. reflexivity.
Qed.

Lemma sort_Slice_ext {A} (less less' : A -> A -> bool) (l : list A) :
  (forall a b, less a b = less' a b) ->
  search.sort_Slice less l = search.sort_Slice less' l.
Proof.
  intros H. unfold search.sort_Slice. f_equal.
  generalize (@nil A). induction l as [|x l IH]; intros acc; cbn; [reflexivity |].
  rewrite (insertLeft_ext less less' x acc H). apply IH.
Qed.

Lemma StronglySorted_weaken {A} (R R' : A -> A -> Prop) (l : list A) :
  (forall x y, R x y -> R' x y) -> StronglySorted R l -> StronglySorted R' l.
Proof.
  intros H. induction 1 as [|a l _ IH Ha]; constructor; [exact IH |].
  eapply Forall_impl; [exact Ha |]. intros y. apply H.
Qed.

(** What the loop over the directory collects: the regular files whose
    lower-cased name scores below 10 against the lower-cased target. *)
Lemma collectSuggestions_spec (dir baseLower : string) (entries : list (string * bool))
    (s : tool.suggestion) :
  In s (tool.collectSuggestions dir baseLower entries) <->
  exists name,
    In (name, false) entries /\
    s = tool.mkSuggestion (filepath.Join dir name)
          (tool.calculateSimilarity baseLower (gostrings.ToLower name)) /\
    tool.calculateSimilarity baseLower (gostrings.ToLower name) < 10.
Proof.
  unfold tool.collectSuggestions. rewrite in_flat_map. split.
  - intros ([name isDir] & Hin & Hs). destruct isDir; [destruct Hs |].
    destruct (Nat.ltb_spec (tool.calculateSimilarity baseLower (gostrings.ToLower name)) 10)
      as [Hlt | Hge]; [| destruct Hs].
    destruct Hs as [<- | []]. exists name. auto.
  - intros (name & Hin & -> & Hlt). exists (name, false). split; [exact Hin |].
    apply Nat.ltb_lt in Hlt. rewrite Hlt. now left.
Qed.

(** X20.  [SuggestSimilarFiles] returns at most [maxSuggestions] paths.
    Each is a regular file of the target's directory whose lower-cased name
    scores below 10 against the lower-cased base name of the target; they
    come best score first, and none that is left out scores better than one
    that is returned.  When the directory cannot be read there are no
    suggestions. *)
Theorem SuggestSimilarFiles_ranks_the_directory
    (ReadDir : string -> string + list (string * bool))
    (targetPath : string) (maxSuggestions : nat) :
  let dir := filepath.Dir targetPath in
  let baseLower := gostrings.ToLower (filepath.Base targetPath) in
  let result := tool.SuggestSimilarFiles ReadDir targetPath maxSuggestions in
  match ReadDir dir with
  | inl _ => result = []
  | inr entries =>
      exists ranked,
        Permutation ranked (tool.collectSuggestions dir baseLower entries) /\
        StronglySorted (fun x y => tool.sg_score x <= tool.sg_score y) ranked /\
        result = map tool.sg_path (take maxSuggestions ranked) /\
        length result <= maxSuggestions /\
        (forall s, In s ranked ->
           exists name,
             In (name, false) entries /\
             tool.sg_path s = filepath.Join dir name /\
             tool.sg_score s = tool.calculateSimilarity baseLower (gostrings.ToLower name) /\
             tool.sg_score s < 10)
  end.
Proof.
  cbv zeta. unfold tool.SuggestSimilarFiles. cbv zeta.
  destruct (ReadDir (filepath.Dir targetPath)) as [err | entries]; [reflexivity |].
  set (found := tool.collectSuggestions _ _ entries).
  set (time := fun s : tool.suggestion => (- Z.of_nat (tool.sg_score s))%Z).
  rewrite (sort_Slice_ext _ (fun a b => search.After (time a) (time b)) found).
  2:{ intros a b. unfold search.After, time.
      destruct (Nat.ltb_spec (tool.sg_score a) (tool.sg_score b));
        destruct (Z.ltb_spec (- Z.of_nat (tool.sg_score b)) (- Z.of_nat (tool.sg_score a)));
        try reflexivity; lia. }
  destruct (sort_Slice_sorted time found) as [Hsorted Hperm].
  eexists. split; [exact Hperm |]. split; [| split; [reflexivity | split]].
  - unfold newest_first in Hsorted.
    revert Hsorted. apply StronglySorted_weaken. intros x y H. unfold time in H. lia.
  - rewrite length_map, length_take. lia.
  - intros s Hs. apply (Permutation_in _ Hperm) in Hs.
    apply collectSuggestions_spec in Hs as (name & Hin & -> & Hlt).
    exists name. auto.
Qed.

(** ** The search engine, continued *)

(** *** The hand-written sort of the ripgrep path *)

Section ExchangeSort.

Context {A : Type}.
Variable time : A -> Z.

Local Abbreviation step i := (fun (l : list A) (j : nat) => search.exchangeIfNewer time i j l).

(** One exchange: the list keeps its length and its elements; only the
    positions [i] and [j] can change, and afterwards the element at [j] is
    not newer than the one at [i]. *)
Lemma exchange_spec (i j : nat) (l : list A) :
  i < j -> j < length l ->
  let l' := search.exchangeIfNewer time i j l in
  length l' = length l /\ Permutation l' l /\
  (forall k, k <> i -> k <> j -> l' !! k = l !! k) /\
  (exists a b, l' !! i = Some a /\ l' !! j = Some b /\ (time b <= time a)%Z /\
               ((l !! i = Some a /\ l !! j = Some b) \/
                (l !! i = Some b /\ l !! j = Some a /\ (time b < time a)%Z))).
Proof.
  intros Hij Hj. cbv zeta. unfold search.exchangeIfNewer.
  destruct (lookup_lt_is_Some_2 l i ltac:(lia)) as [a Ha].
  destruct (lookup_lt_is_Some_2 l j Hj) as [b Hb].
  rewrite Ha, Hb. unfold search.After.
  destruct (Z.ltb_spec (time a) (time b)) as [Hlt | Hge].
  - split; [now rewrite !length_insert |].
    split; [now apply Permutation_insert_swap |].
    split.
    + intros k Hki Hkj. now rewrite !list_lookup_insert_ne by congruence.
    + exists b, a. rewrite list_lookup_insert_eq by (rewrite length_insert; lia).
      rewrite list_lookup_insert_ne by lia.
      rewrite list_lookup_insert_eq by lia.
      repeat split; try lia. right. auto.
  - split; [reflexivity |]. split; [reflexivity |]. split; [reflexivity |].
    exists a, b. repeat split; auto.
Qed.

(** What the inner loop has done after [m] exchanges for position [i]. *)
Definition inner_done (i m : nat) (l0 l : list A) : Prop :=
  length l = length l0 /\ Permutation l l0 /\
  (forall p, p < i -> l !! p = l0 !! p) /\
  (forall k b, i <= k -> l !! k = Some b -> exists k', i <= k' /\ l0 !! k' = Some b) /\
  (forall k a b, i < k <= i + m -> l !! i = Some a -> l !! k = Some b ->
                 (time b <= time a)%Z).

Lemma inner_loop (i m : nat) (l0 : list A) :
  i + m < length l0 ->
  inner_done i m l0 (fold_left (step i) (seq (i + 1) m) l0).
Proof.
  induction m as [|m IH]; intros Hm.
  - cbn. repeat split; auto.
    + intros k b Hk Hb. now exists k.
    + intros k a b Hk. lia.
  - rewrite seq_S, fold_left_app. cbn [fold_left].
    destruct (IH ltac:(lia)) as (Hlen & Hperm & Hlow & Hfrom & Hmax).
    set (l1 := fold_left (step i) (seq (i + 1) m) l0) in *.
    destruct (exchange_spec i (i + 1 + m) l1 ltac:(lia) ltac:(lia))
      as (Elen & Eperm & Eother & (a & b & Ea & Eb & Eab & Ecases)).
    set (l2 := search.exchangeIfNewer time i (i + 1 + m) l1) in *.
    split; [congruence |]. split; [now rewrite Eperm |].
    split; [intros p Hp; rewrite Eother by lia; now apply Hlow |].
    split.
    + intros k c Hk Hc.
      destruct (Nat.eq_dec k i) as [-> | Hki];
        [| destruct (Nat.eq_dec k (i + 1 + m)) as [-> | Hkj]].
      * rewrite Ea in Hc. injection Hc as <-.
        destruct Ecases as [[H _] | [_ [H _]]].
        -- apply (Hfrom i); [lia | exact H].
        -- apply (Hfrom (i + 1 + m)); [lia | exact H].
      * rewrite Eb in Hc. injection Hc as <-.
        destruct Ecases as [[_ H] | [H _]].
        -- apply (Hfrom (i + 1 + m)); [lia | exact H].
        -- apply (Hfrom i); [lia | exact H].
      * rewrite Eother in Hc by assumption. now apply (Hfrom k).
    + intros k a' c Hk Ha' Hc. rewrite Ea in Ha'. injection Ha' as <-.
      destruct (Nat.eq_dec k (i + 1 + m)) as [-> | Hkj].
      * rewrite Eb in Hc. injection Hc as <-. exact Eab.
      * rewrite Eother in Hc by lia.
        destruct Ecases as [[Hi _] | [Hi [_ Hlt]]].
        -- apply (Hmax k a c); [lia | exact Hi | exact Hc].
        -- specialize (Hmax k b c ltac:(lia) Hi Hc). lia.
Qed.

(** What the outer loop has done after [c] positions: each of them holds
    an element no older than any element behind it. *)
Definition outer_done (c : nat) (l : list A) : Prop :=
  forall p k a b, p < c -> p < k -> l !! p = Some a -> l !! k = Some b ->
                  (time b <= time a)%Z.

Lemma outer_loop (l0 : list A) (c : nat) :
  c <= length l0 - 1 ->
  let l := fold_left
             (fun l i => fold_left (step i) (seq (i + 1) (length l0 - (i + 1))) l)
             (seq 0 c) l0 in
  length l = length l0 /\ Permutation l l0 /\ outer_done c l.
Proof.
  cbv zeta. induction c as [|c IH]; intros Hc.
  - cbn. repeat split; auto. intros p k a b Hp. lia.
  - rewrite seq_S, fold_left_app. cbn [fold_left]. cbn [Nat.add].
    destruct (IH ltac:(lia)) as (Hlen & Hperm & Hdone).
    set (l1 := fold_left _ (seq 0 c) l0) in *.
    destruct (inner_loop c (length l0 - (c + 1)) l1 ltac:(lia))
      as (Ilen & Iperm & Ilow & Ifrom & Imax).
    set (l2 := fold_left (step c) _ l1) in *.
    split; [congruence |]. split; [now rewrite Iperm |].
    intros p k a b Hp Hpk Ha Hb.
    destruct (Nat.eq_dec p c) as [-> | Hne].
    + apply (Imax k a b); [| exact Ha | exact Hb].
      pose proof (lookup_lt_Some _ _ _ Hb). lia.
    + assert (Hp' : p < c) by lia.
      rewrite Ilow in Ha by exact Hp'.
      destruct (Nat.lt_ge_cases k c) as [Hk | Hk].
      * rewrite Ilow in Hb by exact Hk. exact (Hdone p k a b Hp' Hpk Ha Hb).
      * destruct (Ifrom k b Hk Hb) as (k' & Hk' & Hb').
        exact (Hdone p k' a b Hp' ltac:(lia) Ha Hb').
Qed.

Lemma sorted_by_lookup (R : A -> A -> Prop) (l : list A) :
  (forall p k a b, p < k -> l !! p = Some a -> l !! k = Some b -> R a b) ->
  StronglySorted R l.
Proof.
  induction l as [|x l IH]; intros H; constructor.
  - apply IH. intros p k a b Hpk Ha Hb. exact (H (S p) (S k) a b ltac:(lia) Ha Hb).
  - apply Forall_forall. intros y Hy. apply list_elem_of_lookup in Hy as [k Hk].
    exact (H 0 (S k) x y ltac:(lia) eq_refl Hk).
Qed.

(** The exchange sort returns its input, rearranged newest first. *)
Lemma sortByTime_sorted (l : list A) :
  newest_first time (search.sortByTime time l) /\ Permutation (search.sortByTime time l) l.
Proof.
  unfold search.sortByTime. cbv zeta.
  destruct (outer_loop l (length l - 1) ltac:(lia)) as (Hlen & Hperm & Hdone).
  split; [| exact Hperm].
  apply sorted_by_lookup. intros p k a b Hpk Ha Hb.
  apply (Hdone p k a b); try assumption.
  pose proof (lookup_lt_Some _ _ _ Hb). lia.
Qed.

End ExchangeSort.

(** *** Matches of one file *)

(** A line as a match shows it: cut to the line limit and marked when
    longer. *)
Definition shown (maxLineLength : nat) (text : string) : string :=
  if maxLineLength <? String.length text then
    gostrings.slice_to maxLineLength text +:+ "..."
  else text.

Lemma grepLines_spec (path : string) (modTime : Z) (re : string -> bool) (maxLen : nat)
    (lines : list string) :
  forall (n : Z) (m : search.Match),
    In m (search.grepLines path modTime re maxLen n lines) <->
    exists i line,
      lines !! i = Some line /\ re line = true /\
      m = search.mkMatch path (n + Z.of_nat i + 1) (shown maxLen line) modTime.
Proof.
  induction lines as [|line lines IH]; intros n m.
  - cbn. split; [tauto | intros (i & l & H & _); discriminate H].
  - cbn [search.grepLines]. cbv zeta. fold (shown maxLen line).
    assert (Htail : In m (search.grepLines path modTime re maxLen (n + 1) lines) <->
                    exists i l, (line :: lines) !! S i = Some l /\ re l = true /\
                      m = search.mkMatch path (n + Z.of_nat (S i) + 1) (shown maxLen l) modTime).
    { rewrite IH. split; intros (i & l & Hl & Hre & ->); exists i, l;
        (split; [exact Hl | split; [exact Hre | f_equal; lia]]). }
    destruct (re line) eqn:Hre.
    + cbn [In]. rewrite Htail. split.
      * intros [<- | (i & l & Hl & Hr & ->)].
        -- exists 0, line. repeat split; [exact Hre | f_equal; lia].
        -- now exists (S i), l.
      * intros ([|i] & l & Hl & Hr & ->).
        -- left. injection Hl as <-. f_equal. lia.
        -- right. now exists i, l.
    + rewrite Htail. split.
      * intros (i & l & H). now exists (S i), l.
      * intros ([|i] & l & Hl & Hr & ->); [injection Hl as <-; congruence |].
        now exists i, l.
Qed.

Lemma grepLines_sorted (path : string) (modTime : Z) (re : string -> bool) (maxLen : nat)
    (lines : list string) :
  forall n : Z,
    StronglySorted (fun a b => (search.LineNum a < search.LineNum b)%Z)
                   (search.grepLines path modTime re maxLen n lines) /\
    Forall (fun m => (n < search.LineNum m)%Z)
           (search.grepLines path modTime re maxLen n lines).
Proof.
  induction lines as [|line lines IH]; intros n; [split; constructor |].
  cbn [search.grepLines]. cbv zeta. destruct (IH (n + 1)%Z) as [Hs Hn].
  assert (Hn' : Forall (fun m => (n < search.LineNum m)%Z)
                       (search.grepLines path modTime re maxLen (n + 1) lines)).
  { eapply Forall_impl; [exact Hn |]. cbn. intros; lia. }
  destruct (re line); [| split; assumption].
  split.
  - constructor; [exact Hs |].
    eapply Forall_impl; [exact Hn |]. cbn. intros; lia.
  - constructor; [cbn; lia | exact Hn'].
Qed.

(** What grepFile returns. *)
Lemma grepFile_spec (path : string) (modTime : Z) (data : string)
    (re : string -> bool) (maxLen : nat) :
  let lines := fst (bufio.ScanLines data) in
  if snd (bufio.ScanLines data) then
    search.grepFile path modTime data re maxLen = inl "bufio.Scanner: token too long"
  else
    exists matches,
      search.grepFile path modTime data re maxLen = inr matches /\
      (forall m, In m matches <->
         exists i line,
           lines !! i = Some line /\ re line = true /\
           m = search.mkMatch path (Z.of_nat i + 1) (shown maxLen line) modTime) /\
      StronglySorted (fun a b => (search.LineNum a < search.LineNum b)%Z) matches.
Proof.
  cbv zeta. unfold search.grepFile.
  destruct (bufio.ScanLines data) as [lines tooLong]. cbn [fst snd].
  destruct tooLong; [reflexivity |].
  eexists. split; [reflexivity |]. split.
  - intros m. rewrite grepLines_spec. reflexivity.
  - apply grepLines_sorted.
Qed.

(** X21.  [grepFile] reports exactly the lines of the file that the
    expression matches: one match per matching line, in the order of the
    lines, numbered from 1, with the file's path and modification time and
    the line's text cut to the line limit.  A file with a line too long for
    the scanner yields the scanner's error, on which the walk passes over
    the file. *)
Theorem grepFile_reports_the_matching_lines (path : string) (modTime : Z) (data : string)
    (re : string -> bool) (maxLen : nat) :
  let lines := fst (bufio.ScanLines data) in
  if snd (bufio.ScanLines data) then
    search.grepFile path modTime data re maxLen = inl "bufio.Scanner: token too long"
  else
    exists matches,
      search.grepFile path modTime data re maxLen = inr matches /\
      (forall m, In m matches <->
         exists i line,
           lines !! i = Some line /\ re line = true /\
           m = search.mkMatch path (Z.of_nat i + 1) (shown maxLen line) modTime) /\
      StronglySorted (fun a b => (search.LineNum a < search.LineNum b)%Z) matches.
Proof.
  cbv zeta. unfold search.grepFile.
  destruct (bufio.ScanLines data) as [lines tooLong]. cbn [fst snd].
  destruct tooLong; [reflexivity |].
  eexists. split; [reflexivity |]. split.
  - intros m. rewrite grepLines_spec. reflexivity.
  - apply grepLines_sorted.
Qed.

(** *** The ripgrep path *)

Section RipgrepFacts.

Variable rg : list string -> string -> string + string.
Variable Stat : string -> option Z.

(** A match read from the line [path|number|text] of ripgrep's output. *)
Definition parsed_from (opts : search.GrepOptions) (lines : list string) (m : search.Match)
  : Prop :=
  exists line num text,
    In line lines /\
    search.splitThree line = Some (search.Path m, num, text) /\
    search.Atoi num = Some (search.LineNum m) /\
    search.LineText m = shown (search.MaxLineLength opts) text /\
    search.ModTime m = default 0%Z (Stat (search.Path m)).

Lemma scanMatches_spec (opts : search.GrepOptions) (lines : list string) :
  forall acc : list search.Match,
    length acc < search.MaxMatches opts ->
    exists new,
      search.scanMatches Stat opts lines acc = acc ++ new /\
      length (acc ++ new) <= search.MaxMatches opts /\
      Forall (parsed_from opts lines) new.
Proof.
  induction lines as [|line lines IH]; intros acc Hacc.
  - exists []. cbn. rewrite app_nil_r. repeat split; [lia | constructor].
  - assert (Hskip : exists new,
               search.scanMatches Stat opts lines acc = acc ++ new /\
               length (acc ++ new) <= search.MaxMatches opts /\
               Forall (parsed_from opts (line :: lines)) new).
    { destruct (IH acc Hacc) as (new & Hrun & Hlen & Hall). exists new.
      repeat split; try assumption.
      eapply Forall_impl; [exact Hall |].
      intros m (l & num & text & Hin & H). exists l, num, text. split; [now right | exact H]. }
    cbn [search.scanMatches].
    destruct (String.eqb line ""); [exact Hskip |].
    destruct (search.splitThree line) as [[[filePath num] text] |] eqn:Hsplit; [| exact Hskip].
    destruct (search.Atoi num) as [lineNum |] eqn:Hnum; [| exact Hskip].
    cbv zeta. fold (shown (search.MaxLineLength opts) text).
    set (m := search.mkMatch filePath lineNum (shown (search.MaxLineLength opts) text)
                             (default 0%Z (Stat filePath))).
    assert (Hm : parsed_from opts (line :: lines) m).
    { exists line, num, text. split; [now left |]. split; [exact Hsplit |].
      split; [exact Hnum |]. split; reflexivity. }
    destruct (Nat.leb_spec (search.MaxMatches opts) (length (acc ++ [m]))) as [Hfull | Hroom].
    + exists [m]. rewrite length_app in *. cbn [length] in *.
      repeat split; [lia | now constructor].
    + destruct (IH (acc ++ [m]) Hroom) as (new & Hrun & Hlen & Hall).
      exists (m :: new). rewrite Hrun, <- app_assoc. cbn [app].
      rewrite <- app_assoc in Hlen.
      repeat split; [exact Hlen |]. constructor; [exact Hm |].
      eapply Forall_impl; [exact Hall |].
      intros m' (l & num' & text' & Hin & H). exists l, num', text'.
      split; [now right | exact H].
Qed.

Lemma scanFiles_spec (root : string) (opts : search.GlobOptions) (lines : list string) :
  forall acc : list search.FileInfo,
    length acc < search.MaxFiles opts ->
    exists new,
      search.scanFiles Stat root opts lines acc = acc ++ new /\
      length (acc ++ new) <= search.MaxFiles opts /\
      Forall (fun f => exists line,
                In line lines /\ line <> "" /\
                search.fi_Path f =
                  (if filepath.IsAbs line then line else filepath.Join root line) /\
                search.fi_ModTime f = default 0%Z (Stat (search.fi_Path f))) new.
Proof.
  induction lines as [|line lines IH]; intros acc Hacc.
  - exists []. cbn. rewrite app_nil_r. repeat split; [lia | constructor].
  - cbn [search.scanFiles].
    destruct (String.eqb_spec line "") as [Hempty | Hline].
    { destruct (IH acc Hacc) as (new & Hrun & Hlen & Hall). exists new.
      repeat split; try assumption.
      eapply Forall_impl; [exact Hall |].
      intros f (l & Hin & H). exists l. split; [now right | exact H]. }
    cbv zeta.
    set (p := if negb (filepath.IsAbs line) then filepath.Join root line else line).
    set (f := search.mkFileInfo p (default 0%Z (Stat p))).
    assert (Hf : exists l, In l (line :: lines) /\ l <> "" /\
                   search.fi_Path f = (if filepath.IsAbs l then l else filepath.Join root l) /\
                   search.fi_ModTime f = default 0%Z (Stat (search.fi_Path f))).
    { exists line. split; [now left |]. split; [exact Hline |]. split; [| reflexivity].
      unfold f, p. cbn [search.fi_Path]. now destruct (filepath.IsAbs line). }
    destruct (Nat.leb_spec (search.MaxFiles opts) (length (acc ++ [f]))) as [Hfull | Hroom].
    + exists [f]. rewrite length_app in *. cbn [length] in *.
      repeat split; [lia | now constructor].
    + destruct (IH (acc ++ [f]) Hroom) as (new & Hrun & Hlen & Hall).
      exists (f :: new). rewrite Hrun, <- app_assoc. cbn [app].
      rewrite <- app_assoc in Hlen.
      repeat split; [exact Hlen |]. constructor; [exact Hf |].
      eapply Forall_impl; [exact Hall |].
      intros f' (l & Hin & H). exists l. split; [now right | exact H].
Qed.

(** X22.  What the ripgrep path returns is sorted by modification time,
    newest first, and is no longer than the cap (100 when the option is 0):
    for content search and for file-name search alike, the hand-written
    exchange sort rearranges what the scan of ripgrep's output gathered and
    loses or adds nothing. *)
Theorem ripgrep_results_are_ranked (root pattern : string) :
  (forall opts matches,
      search.RipgrepGrep rg Stat root pattern opts = inr matches ->
      newest_first search.ModTime matches /\
      length matches <= search.MaxMatches (grepOptions opts) /\
      exists stdout,
        rg (search.grepArgs root pattern (grepOptions opts)) root = inr stdout /\
        Permutation matches
          (search.scanMatches Stat (grepOptions opts) (fst (bufio.ScanLines stdout)) []))
  /\
  (forall opts files,
      search.RipgrepGlob rg Stat root pattern opts = inr files ->
      newest_first search.fi_ModTime files /\
      length files <= globCap opts /\
      exists stdout,
        rg (search.globArgs root pattern) root = inr stdout /\
        Permutation files
          (search.scanFiles Stat root (search.mkGlobOptions (globCap opts))
                            (fst (bufio.ScanLines stdout)) [])).
Proof.
  split.
  - intros opts matches H. unfold search.RipgrepGrep in H. cbv zeta in H.
    change (search.mkGrepOptions (search.Include opts)
              (if search.MaxMatches opts =? 0
               then search.MaxMatches search.DefaultGrepOptions
               else search.MaxMatches opts)
              (if search.MaxLineLength opts =? 0
               then search.MaxLineLength search.DefaultGrepOptions
               else search.MaxLineLength opts)) with (grepOptions opts) in H.
    destruct (rg (search.grepArgs root pattern (grepOptions opts)) root) as [err | stdout];
      [discriminate |].
    injection H as <-. unfold search.sortMatchesByTime.
    destruct (sortByTime_sorted search.ModTime
                (search.scanMatches Stat (grepOptions opts) (fst (bufio.ScanLines stdout)) []))
      as [Hsorted Hperm].
    split; [exact Hsorted |]. split; [| exists stdout; auto].
    rewrite (Permutation_length Hperm).
    destruct (scanMatches_spec (grepOptions opts) (fst (bufio.ScanLines stdout)) []
                               (grepCap_pos opts)) as (new & -> & Hlen & _).
    exact Hlen.
  - intros opts files H. unfold search.RipgrepGlob in H. cbv zeta in H.
    change (if search.MaxFiles opts =? 0 then search.MaxFiles search.DefaultGlobOptions
            else search.MaxFiles opts) with (globCap opts) in H.
    destruct (rg (search.globArgs root pattern) root) as [err | stdout]; [discriminate |].
    injection H as <-. unfold search.sortFilesByTime.
    destruct (sortByTime_sorted search.fi_ModTime
                (search.scanFiles Stat root (search.mkGlobOptions (globCap opts))
                                  (fst (bufio.ScanLines stdout)) []))
      as [Hsorted Hperm].
    split; [exact Hsorted |]. split; [| exists stdout; auto].
    rewrite (Permutation_length Hperm).
    destruct (scanFiles_spec root (search.mkGlobOptions (globCap opts))
                             (fst (bufio.ScanLines stdout)) [] (globCap_pos opts))
      as (new & -> & Hlen & _).
    exact Hlen.
Qed.

(** X23.  The ripgrep path reports only what ripgrep printed: every match
    it returns was read from an output line of the form path|number|text
    with a decimal number, carries that path and number, the text cut to the
    line limit, and the modification time [os.Stat] gives for the path (the
    zero time when it fails); every file it returns was read from a
    non-empty output line, resolved against the root when relative.  When
    the child process cannot be started the error comes back unchanged. *)
Theorem ripgrep_reports_what_was_printed (root pattern : string) :
  (forall opts,
      match rg (search.grepArgs root pattern (grepOptions opts)) root with
      | inl err => search.RipgrepGrep rg Stat root pattern opts = inl err
      | inr stdout =>
          exists matches,
            search.RipgrepGrep rg Stat root pattern opts = inr matches /\
            Forall (parsed_from (grepOptions opts) (fst (bufio.ScanLines stdout))) matches
      end)
  /\
  (forall opts,
      match rg (search.globArgs root pattern) root with
      | inl err => search.RipgrepGlob rg Stat root pattern opts = inl err
      | inr stdout =>
          exists files,
            search.RipgrepGlob rg Stat root pattern opts = inr files /\
            Forall (fun f => exists line,
                      In line (fst (bufio.ScanLines stdout)) /\ line <> "" /\
                      search.fi_Path f =
                        (if filepath.IsAbs line then line else filepath.Join root line) /\
                      search.fi_ModTime f = default 0%Z (Stat (search.fi_Path f))) files
      end).
Proof.
  split.
  - intros opts. unfold search.RipgrepGrep. cbv zeta.
    change (search.mkGrepOptions (search.Include opts)
              (if search.MaxMatches opts =? 0
               then search.MaxMatches search.DefaultGrepOptions
               else search.MaxMatches opts)
              (if search.MaxLineLength opts =? 0
               then search.MaxLineLength search.DefaultGrepOptions
               else search.MaxLineLength opts)) with (grepOptions opts).
    destruct (rg (search.grepArgs root pattern (grepOptions opts)) root) as [err | stdout];
      [reflexivity |].
    eexists. split; [reflexivity |]. unfold search.sortMatchesByTime.
    destruct (sortByTime_sorted search.ModTime
                (search.scanMatches Stat (grepOptions opts) (fst (bufio.ScanLines stdout)) []))
      as [_ Hperm].
    destruct (scanMatches_spec (grepOptions opts) (fst (bufio.ScanLines stdout)) []
                               (grepCap_pos opts)) as (new & Hrun & _ & Hall).
    rewrite Hrun in Hperm. cbn [app] in Hperm.
    rewrite Hrun. cbn [app]. symmetry in Hperm. exact (Permutation_Forall Hperm Hall).
  - intros opts. unfold search.RipgrepGlob. cbv zeta.
    change (if search.MaxFiles opts =? 0 then search.MaxFiles search.DefaultGlobOptions
            else search.MaxFiles opts) with (globCap opts).
    destruct (rg (search.globArgs root pattern) root) as [err | stdout]; [reflexivity |].
    eexists. split; [reflexivity |]. unfold search.sortFilesByTime.
    destruct (sortByTime_sorted search.fi_ModTime
                (search.scanFiles Stat root (search.mkGlobOptions (globCap opts))
                                  (fst (bufio.ScanLines stdout)) []))
      as [_ Hperm].
    destruct (scanFiles_spec root (search.mkGlobOptions (globCap opts))
                             (fst (bufio.ScanLines stdout)) [] (globCap_pos opts))
      as (new & Hrun & _ & Hall).
    rewrite Hrun in Hperm. cbn [app] in Hperm.
    rewrite Hrun. cbn [app]. symmetry in Hperm. exact (Permutation_Forall Hperm Hall).
Qed.

End RipgrepFacts.

(** *** The Go path: what is found and how much *)

Lemma gather_reaches {A} (cap : nat) (groups : list (list A)) (s : list A) :
  cap <= length s + length (concat groups) -> cap <= length (gather cap s groups).
Proof.
  revert s; induction groups as [|g groups IH]; intros s H; cbn in *; [lia |].
  destruct (Nat.leb_spec cap (length (s ++ g))) as [Hfull | Hroom]; [exact Hfull |].
  apply IH. rewrite length_app in *. lia.
Qed.

Lemma gather_incl {A} (cap : nat) (groups : list (list A)) (s : list A) (x : A) :
  In x (gather cap s groups) -> In x s \/ In x (concat groups).
Proof.
  revert s; induction groups as [|g groups IH]; intros s H; cbn in *; [now left |].
  destruct (cap <=? length (s ++ g)).
  - apply in_app_or in H as [H | H]; [now left | right; apply in_or_app; now left].
  - destruct (IH _ H) as [H' | H']; [| right; apply in_or_app; now right].
    apply in_app_or in H' as [H' | H']; [now left | right; apply in_or_app; now left].
Qed.

Section ReachFacts.

Context {A : Type}.
Variable skip : string -> string -> bool.
Variable results : string -> string -> Z -> string -> list A.

(** [reach path d filePath name modTime data]: the walk of the tree [d]
    at [path] comes to the file [name] at [filePath], entering only
    directories that are not skipped. *)
Inductive reach : string -> search.Node -> string -> string -> Z -> string -> Prop :=
| reach_file (path name : string) (modTime : Z) (data : string) :
    reach path (search.File name modTime data) path name modTime data
| reach_dir (path dirName : string) (entries : list search.Node) (d1 : search.Node)
    (filePath name : string) (modTime : Z) (data : string) :
    skip path dirName = false ->
    In d1 entries ->
    reach (filepath.Join path (search.Name d1)) d1 filePath name modTime data ->
    reach path (search.Dir dirName entries) filePath name modTime data.

(** The results of a walk without cap are the results of the files the
    walk reaches. *)
Lemma groups_of_reach (d : search.Node) :
  forall (path : string) (x : A),
    In x (concat (groups_of skip results path d)) <->
    exists filePath name modTime data,
      reach path d filePath name modTime data /\ In x (results filePath name modTime data).
Proof.
  induction d as [name modTime data | dirName entries IH] using Node_induction; intros path x.
  - cbn. rewrite app_nil_r. split.
    + intros H. exists path, name, modTime, data. split; [constructor | exact H].
    + intros (fp & n & t & dt & Hreach & Hin). inversion Hreach; subst. exact Hin.
  - cbn [groups_of]. destruct (skip path dirName) eqn:Hskip.
    + cbn. split; [tauto |].
      intros (fp & n & t & dt & Hreach & _). inversion Hreach; subst. congruence.
    + rewrite in_concat. split.
      * intros (g & Hg & Hx). apply in_flat_map in Hg as (d1 & Hd1 & Hg).
        rewrite List.Forall_forall in IH.
        assert (Hin : In x (concat (groups_of skip results
                                      (filepath.Join path (search.Name d1)) d1))).
        { apply in_concat. now exists g. }
        apply (IH d1 Hd1) in Hin as (fp & n & t & dt & Hreach & Hres).
        exists fp, n, t, dt. split; [| exact Hres].
        now apply (reach_dir path dirName entries d1).
      * intros (fp & n & t & dt & Hreach & Hres). inversion Hreach; subst.
        rewrite List.Forall_forall in IH.
        assert (Hin : In x (concat (groups_of skip results
                                      (filepath.Join path (search.Name d1)) d1))).
        { apply (IH d1); [assumption |]. now exists fp, n, t, dt. }
        apply in_concat in Hin as (g & Hg & Hx). exists g. split; [| exact Hx].
        apply in_flat_map. now exists d1.
Qed.

End ReachFacts.

Section SearchMore.

Variable regexp_Compile : string -> string + (string -> bool).
Variable doublestar_Match : string -> string -> string + bool.
Variable ignorer : option (string -> bool -> bool).

Local Abbreviation goGrep := (search.goGrep regexp_Compile doublestar_Match ignorer).
Local Abbreviation goGlob := (search.goGlob doublestar_Match ignorer).
Local Abbreviation found := (globFound doublestar_Match ignorer).
Local Abbreviation groups := (grepGroups doublestar_Match ignorer).

(** The file [name] at [path] is one the walk from [root] comes to. *)
Definition in_tree (root : string) (tree : search.Node) (path name : string) (modTime : Z)
    (data : string) : Prop :=
  reach (search.skipDirectory ignorer root) root tree path name modTime data.

(** What goGlob returns, before any property of it. *)
Lemma goGlob_result (tree : search.Node) (root pattern : string) (opts : search.GlobOptions) :
  goGlob tree root pattern opts =
    inr (search.sort_Slice (fun a b => search.After (search.fi_ModTime a) (search.fi_ModTime b))
           (take (globCap opts) (found tree root pattern))).
Proof.
  unfold search.goGlob. cbv zeta.
  change (if search.MaxFiles opts =? 0 then search.MaxFiles search.DefaultGlobOptions
          else search.MaxFiles opts) with (globCap opts).
  cbn [search.MaxFiles].
  rewrite (goGlob_walk doublestar_Match ignorer tree root pattern (globCap opts)
                       (globCap_pos opts)).
  rewrite cut_to_cap. f_equal. apply take_ge.
  destruct (sort_Slice_sorted search.fi_ModTime (take (globCap opts) (found tree root pattern)))
    as [_ Hperm].
  rewrite (Permutation_length Hperm), length_take. lia.
Qed.

Lemma goGrep_result (tree : search.Node) (root pattern : string) (opts : search.GrepOptions)
    (re : string -> bool) :
  regexp_Compile pattern = inr re ->
  goGrep tree root pattern opts =
    inr (take (search.MaxMatches (grepOptions opts))
           (search.sort_Slice (fun a b => search.After (search.ModTime a) (search.ModTime b))
              (gather (search.MaxMatches (grepOptions opts)) []
                      (groups tree root re (grepOptions opts))))).
Proof.
  intros Hre. unfold search.goGrep. rewrite Hre. cbv zeta.
  change (search.mkGrepOptions (search.Include opts)
            (if search.MaxMatches opts =? 0
             then search.MaxMatches search.DefaultGrepOptions
             else search.MaxMatches opts)
            (if search.MaxLineLength opts =? 0
             then search.MaxLineLength search.DefaultGrepOptions
             else search.MaxLineLength opts)) with (grepOptions opts).
  rewrite (goGrep_walk doublestar_Match ignorer tree root re (grepOptions opts)
                       (grepCap_pos opts)).
  now rewrite cut_to_cap.
Qed.

(** X24.  Both searches of the Go path return as many results as the cap
    allows: the number of results is the smaller of the cap and the number
    of results the whole tree holds, so a search comes back short only when
    the tree has no more to offer. *)
Theorem search_fills_the_cap (tree : search.Node) (root pattern : string) :
  (forall opts,
      exists files,
        goGlob tree root pattern opts = inr files /\
        length files = Nat.min (globCap opts) (length (found tree root pattern)))
  /\
  (forall opts re,
      regexp_Compile pattern = inr re ->
      exists matches,
        goGrep tree root pattern opts = inr matches /\
        length matches =
          Nat.min (search.MaxMatches (grepOptions opts))
                  (length (concat (groups tree root re (grepOptions opts))))).
Proof.
  split.
  - intros opts. rewrite goGlob_result. eexists. split; [reflexivity |].
    destruct (sort_Slice_sorted search.fi_ModTime (take (globCap opts) (found tree root pattern)))
      as [_ Hperm].
    now rewrite (Permutation_length Hperm), length_take.
  - intros opts re Hre. rewrite (goGrep_result tree root pattern opts re Hre).
    eexists. split; [reflexivity |].
    set (cap := search.MaxMatches (grepOptions opts)).
    set (gs := groups tree root re (grepOptions opts)).
    destruct (sort_Slice_sorted search.ModTime (gather cap [] gs)) as [_ Hperm].
    rewrite length_take, (Permutation_length Hperm).
    destruct (Nat.le_gt_cases cap (length (concat gs))) as [Hmany | Hfew].
    + pose proof (gather_reaches cap gs [] ltac:(cbn [length Nat.add]; lia)). lia.
    + rewrite (gather_all cap gs []) by (cbn [length Nat.add]; lia). cbn [app]. lia.
Qed.

(** X25.  File-name search on the Go path is sound: every file it
    returns is a file of the tree, reached from the root through
    directories that are neither hidden (the root apart) nor ignored; the
    file is not hidden and not ignored, its name or its path relative to
    the root matches the pattern, and it comes with its own modification
    time.  And it is complete up to the cap: when the matching files fit
    under the cap, every such file is returned. *)
Theorem goGlob_returns_files_of_the_tree (tree : search.Node) (root pattern : string)
    (opts : search.GlobOptions) :
  exists files,
    goGlob tree root pattern opts = inr files /\
    (forall f, In f files ->
       exists name data,
         in_tree root tree (search.fi_Path f) name (search.fi_ModTime f) data /\
         gostrings.HasPrefix name "." = false /\
         search.ignored ignorer (search.Rel root (search.fi_Path f)) false = false /\
         (doublestar_Match pattern name = inr true \/
          doublestar_Match pattern (search.Rel root (search.fi_Path f)) = inr true)) /\
    (length (found tree root pattern) <= globCap opts ->
     forall path name modTime data,
       in_tree root tree path name modTime data ->
       gostrings.HasPrefix name "." = false ->
       search.ignored ignorer (search.Rel root path) false = false ->
       doublestar_Match pattern name = inr true ->
       In (search.mkFileInfo path modTime) files).
Proof.
  rewrite goGlob_result. eexists. split; [reflexivity |].
  destruct (sort_Slice_sorted search.fi_ModTime (take (globCap opts) (found tree root pattern)))
    as [_ Hperm].
  split.
  - intros f Hf. apply (Permutation_in _ Hperm) in Hf.
    assert (Hfound : In f (found tree root pattern)).
    { rewrite <- (take_drop (globCap opts) (found tree root pattern)).
      apply in_or_app. now left. }
    apply groups_of_reach in Hfound as (path & name & modTime & data & Hreach & Hres).
    unfold globResults in Hres.
    destruct (gostrings.HasPrefix name ".") eqn:Hhidden; [destruct Hres |].
    destruct (search.ignored ignorer (search.Rel root path) false) eqn:Hign; [destruct Hres |].
    destruct (doublestar_Match pattern name) as [err | [|]] eqn:Hname; [destruct Hres | |].
    + destruct Hres as [<- | []]. exists name, data. cbn. auto.
    + destruct (doublestar_Match pattern (search.Rel root path)) as [err | [|]] eqn:Hrel;
        try destruct Hres as [<- | []]; try destruct Hres.
      exists name, data. cbn. auto.
  - intros Hfit path name modTime data Hreach Hhidden Hign Hname.
    apply (Permutation_in _ (Permutation_sym Hperm)).
    rewrite take_ge by exact Hfit.
    apply groups_of_reach. exists path, name, modTime, data. split; [exact Hreach |].
    unfold globResults. rewrite Hhidden, Hign, Hname. now left.
Qed.

(** X26.  Content search on the Go path is sound: every match it returns
    lies in a file of the tree, reached from the root through directories
    that are neither hidden (the root apart) nor ignored; the file is not
    hidden, not ignored, passes the include filter and the binary check,
    and the match is one of its lines that the expression matches, with
    its line number, its text cut to the line limit and the file's
    modification time. *)
Theorem goGrep_returns_lines_of_the_tree (tree : search.Node) (root pattern : string)
    (opts : search.GrepOptions) (re : string -> bool) :
  regexp_Compile pattern = inr re ->
  exists matches,
    goGrep tree root pattern opts = inr matches /\
    forall m, In m matches ->
      exists name data i line,
        in_tree root tree (search.Path m) name (search.ModTime m) data /\
        gostrings.HasPrefix name "." = false /\
        search.ignored ignorer (search.Rel root (search.Path m)) false = false /\
        search.included doublestar_Match (search.Include opts) name
                        (search.Rel root (search.Path m)) = true /\
        search.isBinaryFile (search.Path m) data = false /\
        fst (bufio.ScanLines data) !! i = Some line /\
        re line = true /\
        search.LineNum m = (Z.of_nat i + 1)%Z /\
        search.LineText m = shown (search.MaxLineLength (grepOptions opts)) line.
Proof.
  intros Hre. rewrite (goGrep_result tree root pattern opts re Hre).
  eexists. split; [reflexivity |].
  set (cap := search.MaxMatches (grepOptions opts)).
  set (gs := groups tree root re (grepOptions opts)).
  destruct (sort_Slice_sorted search.ModTime (gather cap [] gs)) as [_ Hperm].
  intros m Hm.
  assert (Hsorted : In m (search.sort_Slice
                            (fun a b => search.After (search.ModTime a) (search.ModTime b))
                            (gather cap [] gs))).
  { rewrite <- (take_drop cap (search.sort_Slice _ _)). apply in_or_app. now left. }
  apply (Permutation_in _ Hperm) in Hsorted.
  apply gather_incl in Hsorted as [[] | Hin].
  apply groups_of_reach in Hin as (path & name & modTime & data & Hreach & Hres).
  unfold grepResults in Hres.
  destruct (gostrings.HasPrefix name ".") eqn:Hhidden; [destruct Hres |].
  destruct (search.ignored ignorer (search.Rel root path) false) eqn:Hign; [destruct Hres |].
  destruct (search.included doublestar_Match (search.Include (grepOptions opts)) name
                            (search.Rel root path)) eqn:Hincl; [| destruct Hres].
  cbn [negb] in Hres.
  destruct (search.isBinaryFile path data) eqn:Hbin; [destruct Hres |].
  pose proof (grepFile_spec path modTime data re
                (search.MaxLineLength (grepOptions opts))) as Hfile.
  cbv zeta in Hfile.
  destruct (snd (bufio.ScanLines data)).
  - rewrite Hfile in Hres. destruct Hres.
  - destruct Hfile as (fileMatches & Hrun & Hspec & _). rewrite Hrun in Hres.
    apply Hspec in Hres as (i & line & Hline & Hmatch & ->).
    exists name, data, i, line. cbn. repeat split; auto.
Qed.

End SearchMore.

(** ** The grep and glob tools *)

Section SearchToolFacts.

Variable workingDir : string.
Variable grep_Unmarshal : string -> string + tool.grepArgs.
Variable glob_Unmarshal : string -> string + tool.globArgs.
Variable search_Grep : string -> string -> search.GrepOptions -> string + list search.Match.
Variable search_Glob : string -> string -> search.GlobOptions -> string + list search.FileInfo.
Variable Rel : string -> string -> string.

Local Abbreviation GrepTool_Execute :=
  (tool.GrepTool_Execute workingDir grep_Unmarshal search_Grep Rel).
Local Abbreviation GlobTool_Execute :=
  (tool.GlobTool_Execute workingDir glob_Unmarshal search_Glob Rel).

(** X27.  A search that finds nothing is a fruitless round for the loop:
    when the search behind the grep tool or the glob tool returns no
    result, the tool answers "No files found" with a count of 0 and no
    truncation, and the loop's emptiness test classifies that output as
    non-useful.  Both tools search with a cap of 100, and a failure of the
    search comes back as the tool's error. *)
Theorem empty_search_is_a_fruitless_result (args : string) :
  (forall a,
      grep_Unmarshal args = inr a -> tool.ga_Pattern a <> "" ->
      match search_Grep (tool.searchPathOf workingDir (tool.ga_Path a)) (tool.ga_Pattern a)
                        (search.mkGrepOptions (tool.ga_Include a) 100 2000) with
      | inl err => GrepTool_Execute args = inl ("search failed: " +:+ err)
      | inr [] =>
          exists result,
            GrepTool_Execute args = inr (Some result) /\
            tool.Output result = "No files found" /\
            isEmptyResult (tool.Output result) = true /\
            tool.Metadata result !! "matches" = Some (tool.any_int 0) /\
            tool.Metadata result !! "truncated" = Some (tool.any_bool false)
      | inr (m :: rest) =>
          exists result,
            GrepTool_Execute args = inr (Some result) /\
            tool.Metadata result !! "matches"
              = Some (tool.any_int (Z.of_nat (length (m :: rest)))) /\
            tool.Metadata result !! "truncated"
              = Some (tool.any_bool (100 <=? length (m :: rest)))
      end)
  /\
  (forall a,
      glob_Unmarshal args = inr a -> tool.gl_Pattern a <> "" ->
      match search_Glob (tool.searchPathOf workingDir (tool.gl_Path a)) (tool.gl_Pattern a)
                        (search.mkGlobOptions 100) with
      | inl err => GlobTool_Execute args = inl ("glob failed: " +:+ err)
      | inr [] =>
          exists result,
            GlobTool_Execute args = inr (Some result) /\
            tool.Output result = "No files found" /\
            isEmptyResult (tool.Output result) = true /\
            tool.Metadata result !! "count" = Some (tool.any_int 0) /\
            tool.Metadata result !! "truncated" = Some (tool.any_bool false)
      | inr (f :: rest) =>
          exists result,
            GlobTool_Execute args = inr (Some result) /\
            tool.Metadata result !! "count"
              = Some (tool.any_int (Z.of_nat (length (f :: rest)))) /\
            tool.Metadata result !! "truncated"
              = Some (tool.any_bool (100 <=? length (f :: rest)))
      end).
Proof.
  split.
  - intros a Hargs Hpattern. unfold tool.GrepTool_Execute. rewrite Hargs.
    apply String.eqb_neq in Hpattern. rewrite Hpattern. cbv zeta.
    destruct (search_Grep _ _ _) as [err | [|m rest]]; [reflexivity | |].
    + eexists. split; [reflexivity |]. cbn [tool.Output tool.Metadata].
      split; [reflexivity |]. split; [reflexivity |].
      split; [apply lookup_insert_eq |].
      rewrite lookup_insert_ne by discriminate. apply lookup_singleton_eq.
    + eexists. split; [reflexivity |]. cbn [tool.Metadata search.MaxMatches].
      split; [apply lookup_insert_eq |].
      rewrite lookup_insert_ne by discriminate. apply lookup_singleton_eq.
  - intros a Hargs Hpattern. unfold tool.GlobTool_Execute. rewrite Hargs.
    apply String.eqb_neq in Hpattern. rewrite Hpattern. cbv zeta.
    destruct (search_Glob _ _ _) as [err | [|f rest]]; [reflexivity | |].
    + eexists. split; [reflexivity |]. cbn [tool.Output tool.Metadata].
      split; [reflexivity |]. split; [reflexivity |].
      split; [apply lookup_insert_eq |].
      rewrite lookup_insert_ne by discriminate. apply lookup_singleton_eq.
    + eexists. split; [reflexivity |]. cbn [tool.Metadata search.MaxFiles].
      split; [apply lookup_insert_eq |].
      rewrite lookup_insert_ne by discriminate. apply lookup_singleton_eq.
Qed.

End SearchToolFacts.

(** ** The further properties on concrete inputs *)

(** X11 at work: 600 short lines through a configured registry leave one
    side file, with all 600 lines. *)
Lemma registry_writes_only_full_outputs_witness :
  snd (tool.Registry_Execute os_ok1 os_ok2 "a1b2c3d4" (configured_registry short_lines_600)
                             "grep" "{}")
  = [("/data/outputs/1700000000/grep-a1b2c3d4.txt", short_lines_600)].
Proof.
  destruct (registry_writes_only_full_outputs os_ok1 os_ok2 "a1b2c3d4"
              (configured_registry short_lines_600) "grep" "{}"
              "/data/outputs/1700000000/grep-a1b2c3d4.txt" short_lines_600)
    as (_ & _ & _ & _ & _ & _ & _ & _ & _ & Hsnd & _).
  - vm_compute. left. reflexivity.
  - exact Hsnd.
Defined.

(** X12 at work: the model asks for a tool named search. *)
Lemma unknown_tool_is_fruitless_witness :
  exists err,
    tool.Registry_Execute os_ok1 os_ok2 "a1b2c3d4" (bare_registry "x") "search" "{}"
      = (inl err, []) /\
    isEmptyResult ("Error: " +:+ err) = true.
Proof.
  apply (unknown_tool_is_fruitless os_ok1 os_ok2 "a1b2c3d4" (bare_registry "x") "search" "{}").
  vm_compute. reflexivity.
Defined.

(** X13 at work: the 600 short lines. *)
Lemma preview_keeps_the_first_lines_witness :
  take 500 (gostrings.SplitLines (preview short_lines_600))
  = take 500 (gostrings.SplitLines short_lines_600).
Proof.
  apply (preview_keeps_the_first_lines short_lines_600).
  - apply Nat.ltb_lt. vm_compute. reflexivity.
  - apply Nat.leb_le. vm_compute. reflexivity.
Defined.

(** A disk with one file that holds a null byte. *)
Definition blob : string := "ab" +:+ String "000"%char "cd".

Definition blob_Stat (path : string) : tool.StatResult :=
  if String.eqb path "/repo/blob.txt" then tool.StatInfo false else tool.StatNotExist.

Definition blob_ReadFile (path : string) : string + string :=
  if String.eqb path "/repo/blob.txt" then inr blob else inl "no such file or directory".

(** X15 at work: a text file name, a null byte inside. *)
Lemma read_refuses_what_search_skips_witness :
  search.isBinaryFile "/repo/blob.txt" blob = true /\
  tool.ReadTool_Execute "/repo" path_only blob_Stat blob_ReadFile no_suggestions
                        (fun _ p => p) "blob.txt"
    = inl "cannot read binary file: /repo/blob.txt".
Proof.
  split; [vm_compute; reflexivity |].
  apply (read_refuses_what_search_skips "/repo" path_only blob_Stat blob_ReadFile no_suggestions
           (fun _ p => p) "blob.txt" (tool.mkReadArgs "blob.txt" 0 0) blob).
  - reflexivity.
  - discriminate.
  - vm_compute. reflexivity.
  - vm_compute. reflexivity.
  - vm_compute. reflexivity.
Defined.


(** X26 at work: the three files that hold "foo". *)
Lemma goGrep_returns_lines_of_the_tree_witness :
  exists matches,
    search.goGrep literal_regexp star_glob None three_files "/repo" "foo"
                  (search.mkGrepOptions "" 0 0) = inr matches /\
    forall m, In m matches ->
      exists name data i line,
        in_tree None "/repo" three_files (search.Path m) name (search.ModTime m) data /\
        gostrings.HasPrefix name "." = false /\
        search.ignored None (search.Rel "/repo" (search.Path m)) false = false /\
        search.included star_glob "" name (search.Rel "/repo" (search.Path m)) = true /\
        search.isBinaryFile (search.Path m) data = false /\
        fst (bufio.ScanLines data) !! i = Some line /\
        gostrings.Contains line "foo" = true /\
        search.LineNum m = (Z.of_nat i + 1)%Z /\
        search.LineText m = shown 2000 line.
Proof.
  apply (goGrep_returns_lines_of_the_tree literal_regexp star_glob None three_files "/repo"
           "foo" (search.mkGrepOptions "" 0 0) (fun line => gostrings.Contains line "foo")).
  reflexivity.
Defined.

(** ** A file that is not there *)

(** X28.  Reading a missing file is a fruitless result for the loop: when
    [os.Stat] reports that the resolved path does not exist, the read tool
    fails with a message that begins with "file not found: " and the path,
    whatever suggestions follow, and the content the loop makes of the
    failure is classified as non-useful. *)
Theorem missing_file_is_a_fruitless_result
    (workingDir : string) (json_Unmarshal : string -> string + tool.readArgs)
    (Stat : string -> tool.StatResult) (ReadFile : string -> string + string)
    (SuggestSimilarFiles : string -> nat -> list string) (Rel : string -> string -> string)
    (args : string) (a : tool.readArgs) :
  json_Unmarshal args = inr a ->
  tool.FilePath a <> "" ->
  Stat (resolved workingDir a) = tool.StatNotExist ->
  exists err,
    tool.ReadTool_Execute workingDir json_Unmarshal Stat ReadFile SuggestSimilarFiles Rel args
      = inl err /\
    gostrings.HasPrefix err ("file not found: " +:+ resolved workingDir a) = true /\
    isEmptyResult ("Error: " +:+ err) = true.
Proof.
  intros Hargs Hpath Hstat. unfold tool.ReadTool_Execute. rewrite Hargs.
  apply String.eqb_neq in Hpath. rewrite Hpath. cbv zeta. fold (resolved workingDir a).
  rewrite Hstat.
  assert (Hgen : forall rest,
             gostrings.HasPrefix ("file not found: " +:+ resolved workingDir a +:+ rest)
                                 ("file not found: " +:+ resolved workingDir a) = true /\
             isEmptyResult ("Error: " +:+ "file not found: " +:+ resolved workingDir a +:+ rest)
               = true).
  { intros rest. split.
    - apply HasPrefix_app. exists rest. now rewrite !string_app_assoc.
    - unfold isEmptyResult. cbv zeta.
      assert (H : gostrings.Contains
                    (gostrings.ToLower
                       ("Error: " +:+ "file not found: " +:+ resolved workingDir a +:+ rest))
                    "not found" = true).
      { apply Contains_ToLower; [reflexivity |].
        exists "Error: file ", "not found", (": " +:+ resolved workingDir a +:+ rest).
        split; reflexivity. }
      rewrite H. now rewrite orb_true_r. }
  destruct (0 <? length (SuggestSimilarFiles (resolved workingDir a) 3)).
  - eexists. split; [reflexivity |]. apply Hgen.
  - eexists. split; [reflexivity |].
    specialize (Hgen ""). now rewrite !string_app_nil_r in Hgen.
Qed.

(** X28 at work: a misspelt file name on the small disk. *)
Lemma missing_file_is_a_fruitless_result_witness :
  exists err,
    tool.ReadTool_Execute "/repo" path_only disk_Stat disk_ReadFile no_suggestions
                          (fun _ p => p) "mian.go" = inl err /\
    gostrings.HasPrefix err ("file not found: " +:+ "/repo/mian.go") = true /\
    isEmptyResult ("Error: " +:+ err) = true.
Proof.
  apply (missing_file_is_a_fruitless_result "/repo" path_only disk_Stat disk_ReadFile
           no_suggestions (fun _ p => p) "mian.go" (tool.mkReadArgs "mian.go" 0 0));
    [reflexivity | discriminate | vm_compute; reflexivity].
Defined.
